(** * telethon-events: event filters, event actions and the file-id packer

    A shallow embedding of [src/events/events.py] and [src/events/utils.py].
    Python values are modelled as follows.
    - [str] is a list of characters ([list ascii]), [bytes] a list of
      [Byte.byte]; the sequence methods the code calls ([replace], [split],
      [count], slicing) are written once over any element type with a
      boolean equality.
    - Optional values are [option]; an exception is a constructor of [exn]
      carried by [outcome].
    - The module-level [_spam_cache] is an explicit cache value threaded
      through every filter, together with the reading of the clock (in
      milliseconds) at the moment of the call.
    - Event actions run in a small state-and-exception monad whose state is
      the event's private fields and the list of requests handed to the
      client. *)

From Stdlib Require Import Ascii String.
From Stdlib Require Import ZArith List Bool Lia Arith.
From coqutil Require Import Byte Word.LittleEndianList.
Import ListNotations.

Set Implicit Arguments.

(** ** Python runtime *)

Module Py.

Inductive exn : Type :=
| ValueError | TypeError | AttributeError | IndexError
| StructError                (* struct.error *)
| ReError                    (* re.error *)
| RPCError (code : Z).       (* raised by the wrapped client *)

Inductive outcome (A : Type) : Type :=
| Return (a : A)
| Raise (e : exn).
Arguments Return {A} a.
Arguments Raise {A} e.

Definition str := list ascii.
Definition bytes := list byte.

(** Elements of a sequence type that can be compared: characters of a
    [str], octets of a [bytes]. *)
Class Elem (A : Type) := {
  elem_eqb : A -> A -> bool;
  elem_eqb_eq : forall x y, elem_eqb x y = true <-> x = y
}.

#[export] Instance ascii_Elem : Elem ascii :=
  {| elem_eqb := Ascii.eqb; elem_eqb_eq := Ascii.eqb_eq |}.

Definition byte_eqb_eq (x y : byte) : Byte.eqb x y = true <-> x = y :=
  conj (Byte.byte_dec_bl x y) (Byte.byte_dec_lb (x := x) (y := y)).

#[export] Instance byte_Elem : Elem byte :=
  {| elem_eqb := Byte.eqb; elem_eqb_eq := byte_eqb_eq |}.

Section Sequences.
Context {A : Type} `{Elem A}.

(** [s.startswith(pre)] *)
Fixpoint startswith (pre s : list A) : bool :=
  match pre, s with
  | [], _ => true
  | _ :: _, [] => false
  | p :: pre', x :: s' => elem_eqb p x && startswith pre' s'
  end.

(** [s == t] *)
Fixpoint seq_eqb (s t : list A) : bool :=
  match s, t with
  | [], [] => true
  | x :: s', y :: t' => elem_eqb x y && seq_eqb s' t'
  | _, _ => false
  end.

(** [s.find(sub)], with [None] for Python's [-1]. *)
Fixpoint find (sub s : list A) : option nat :=
  if startswith sub s then Some 0%nat
  else match s with
       | [] => None
       | _ :: s' => option_map S (find sub s')
       end.

(** [s.replace(old, new, 1)]: only the leftmost occurrence is replaced. *)
Definition replace1 (old new s : list A) : list A :=
  match find old s with
  | Some i => firstn i s ++ new ++ skipn (i + length old) s
  | None => s
  end.

(** [s.split(sep, maxsplit)] for a non-empty [sep]; [maxsplit = None] is
    Python's [-1].  Every cut removes at least one element, so
    [S (length s)] rounds are enough. *)
Fixpoint split_fuel (fuel : nat) (sep s : list A) (maxsplit : option nat)
  : list (list A) :=
  match fuel with
  | O => [s]
  | S fuel' =>
    match maxsplit with
    | Some O => [s]
    | _ =>
      match find sep s with
      | None => [s]
      | Some i =>
        firstn i s ::
        split_fuel fuel' sep (skipn (i + length sep) s) (option_map pred maxsplit)
      end
    end
  end.

Definition split (sep s : list A) (maxsplit : option nat) : list (list A) :=
  split_fuel (S (length s)) sep s maxsplit.

(** [s.count(sub)]: non-overlapping occurrences, scanning from the left. *)
Fixpoint count_fuel (fuel : nat) (sub s : list A) : nat :=
  match fuel with
  | O => O
  | S fuel' =>
    match find sub s with
    | None => O
    | Some i => S (count_fuel fuel' sub (skipn (i + length sub) s))
    end
  end.

Definition count (sub s : list A) : nat :=
  match sub with
  | [] => S (length s)
  | _ :: _ => count_fuel (S (length s)) sub s
  end.

(** [x in l] for a list of sequences. *)
Fixpoint contains (x : list A) (l : list (list A)) : bool :=
  match l with
  | [] => false
  | y :: l' => seq_eqb x y || contains x l'
  end.

(** Normalisation of one bound of a slice over a sequence of length [len]. *)
Definition slice_bound (len i : Z) : Z :=
  if (i <? 0)%Z then Z.max 0 (i + len) else Z.min i len.

(** [s[lo:hi]] *)
Definition slice (s : list A) (lo hi : Z) : list A :=
  let len := Z.of_nat (length s) in
  let lo' := slice_bound len lo in
  let hi' := slice_bound len hi in
  firstn (Z.to_nat (hi' - lo')) (skipn (Z.to_nat lo') s).

(** [l[0]] *)
Definition item0 {B : Type} (l : list B) : outcome B :=
  match l with
  | [] => Raise IndexError
  | x :: _ => Return x
  end.

End Sequences.

(** ASCII whitespace, as [bytes.split(None)] understands it. *)
Definition is_space (b : byte) : bool :=
  match b with
  | Init.Byte.x20 | Init.Byte.x09 | Init.Byte.x0a
  | Init.Byte.x0b | Init.Byte.x0c | Init.Byte.x0d => true
  | _ => false
  end.

Fixpoint lstrip_space (s : bytes) : bytes :=
  match s with
  | [] => []
  | b :: s' => if is_space b then lstrip_space s' else s
  end.

Fixpoint take_word (s : bytes) : bytes :=
  match s with
  | [] => []
  | b :: s' => if is_space b then [] else b :: take_word s'
  end.

Fixpoint drop_word (s : bytes) : bytes :=
  match s with
  | [] => []
  | b :: s' => if is_space b then s else drop_word s'
  end.

(** [s.split(None, maxsplit)]: runs of whitespace separate the words and
    leading whitespace is dropped; after [maxsplit] cuts the remainder is
    kept as it is. *)
Fixpoint split_space (maxsplit : nat) (s : bytes) : list bytes :=
  match lstrip_space s with
  | [] => []
  | b :: r =>
    match maxsplit with
    | O => [b :: r]
    | S m => take_word (b :: r) :: split_space m (drop_word (b :: r))
    end
  end.

(** [s.encode("utf-8")] for characters below U+0100. *)
Definition encode_char (c : ascii) : bytes :=
  let n := N_of_ascii c in
  if (n <? 128)%N then [byte.of_Z (Z.of_N n)]
  else [byte.of_Z (192 + Z.of_N n / 64); byte.of_Z (128 + Z.of_N n mod 64)].

Definition encode_utf8 (s : str) : bytes := flat_map encode_char s.

(** String literals for examples. *)
Definition s (x : string) : str := list_ascii_of_string x.
Definition b (x : string) : bytes := list_byte_of_string x.

End Py.
Import Py.

(** ** Spam guard ([events.py], lines 16-24) *)

Module SpamGuard.

(** Ids are [sender_id] or [user_id] values; a message without a sender
    has [None]. *)
Definition key := option Z.

Definition key_eqb (a b : key) : bool :=
  match a, b with
  | Some x, Some y => Z.eqb x y
  | None, None => true
  | _, _ => false
  end.

Record entry := { e_key : key; e_value : Z; e_expires : Z }.

(** Modelled from the spec: [cachebox.TTLCache], the container behind
    [_spam_cache], is a third-party class whose code is not under src/.
    Following sections 3 and 4.1 it holds at most [maxsize] entries, each
    living for [ttl] after it was stored; a lookup never refreshes an
    entry, expired entries are dropped when something is stored, and a
    full cache gives up its oldest entry.  Entries are kept oldest first,
    the clock counts milliseconds, and [_spam_cache] starts out empty. *)
Definition TTLCache := list entry.

(** [cachebox.TTLCache(500, 0.6)]: the capacity, and 0.6 s in
    milliseconds. *)
Definition maxsize : nat := 500.
Definition ttl : Z := 600.

(** Modelled from the spec: an entry has expired once its time-to-live
    has elapsed. *)
Definition expired (now : Z) (e : entry) : bool := (e_expires e <=? now)%Z.

Definition lookup (c : TTLCache) (k : key) : option entry :=
  List.find (fun e => key_eqb (e_key e) k) c.

(** Modelled from the spec: [TTLCache.get(k, default)], the value stored
    under [k] unless it is absent or has expired; nothing is refreshed. *)
Definition get (c : TTLCache) (now : Z) (k : key) (default : Z) : Z :=
  match lookup c k with
  | Some e => if expired now e then default else e_value e
  | None => default
  end.

(** Modelled from the spec: the time-based eviction of [TTLCache]. *)
Definition expire (now : Z) (c : TTLCache) : TTLCache :=
  filter (fun e => negb (expired now e)) c.

(** Modelled from the spec: [TTLCache.__setitem__], [cache[k] = v].  The
    entry lives for [ttl] from [now]; a full cache first gives up its
    oldest entry. *)
Definition setitem (c : TTLCache) (now : Z) (k : key) (v : Z) : TTLCache :=
  let live := expire now c in
  let fresh := {| e_key := k; e_value := v; e_expires := (now + ttl)%Z |} in
  match lookup live k with
  | Some _ => filter (fun e => negb (key_eqb (e_key e) k)) live ++ [fresh]
  | None => (if (maxsize <=? length live)%nat then tl live else live) ++ [fresh]
  end.

Definition _spam_cache : TTLCache := [].

(** [is_spam(id)], called at time [now] on the cache [c]. *)
Definition is_spam (now : Z) (id : key) (c : TTLCache) : bool * TTLCache :=
  if negb (get c now id 0 =? 0)%Z then (true, c)
  else (false, setitem c now id 1).

End SpamGuard.

(** ** The part of [telethon.tl.types] the code inspects *)

Module types.

Inductive Peer : Type :=
| PeerUser (user_id : Z)
| PeerChat (chat_id : Z)
| PeerChannel (channel_id : Z).

Inductive InputPeer : Type :=
| InputPeerUser (user_id access_hash : Z)
| InputPeerChat (chat_id : Z)
| InputPeerChannel (channel_id access_hash : Z).

Inductive MessageEntityKind : Type :=
| MessageEntityBotCommand | MessageEntityMention | MessageEntityHashtag
| MessageEntityUrl | MessageEntityBold | MessageEntityCode.

Record MessageEntity := {
  kind : MessageEntityKind;
  offset : Z;
  length : Z
}.

(** A [Message] with the fields and derived properties the filters read. *)
Record Message := {
  out : bool;
  message : str;
  entities : option (list MessageEntity);
  sender_id : option Z;
  is_private : bool;
  is_group : bool;
  is_channel : bool
}.

Inductive InputBotInlineMessageID : Type :=
| InputBotInlineMessageID_ (dc_id id access_hash : Z)
| InputBotInlineMessageID64 (dc_id owner_id id access_hash : Z).

(** The two callback updates; only the inline one carries an inline
    message identifier in [msg_id]. *)
Inductive CallbackUpdate : Type :=
| UpdateBotCallbackQuery
    (query_id user_id : Z) (peer : Peer) (msg_id : Z)
    (chat_instance : Z) (data : option bytes)
| UpdateInlineBotCallbackQuery
    (query_id user_id : Z) (msg_id : InputBotInlineMessageID)
    (chat_instance : Z) (data : option bytes).

(** What [query.msg_id] evaluates to. *)
Inductive MsgId : Type :=
| IntId (id : Z)
| InlineId (id : InputBotInlineMessageID).

Definition query_id (q : CallbackUpdate) : Z :=
  match q with
  | UpdateBotCallbackQuery i _ _ _ _ _ => i
  | UpdateInlineBotCallbackQuery i _ _ _ _ => i
  end.

Definition user_id (q : CallbackUpdate) : Z :=
  match q with
  | UpdateBotCallbackQuery _ u _ _ _ _ => u
  | UpdateInlineBotCallbackQuery _ u _ _ _ => u
  end.

Definition msg_id (q : CallbackUpdate) : MsgId :=
  match q with
  | UpdateBotCallbackQuery _ _ _ m _ _ => IntId m
  | UpdateInlineBotCallbackQuery _ _ m _ _ => InlineId m
  end.

Definition data (q : CallbackUpdate) : option bytes :=
  match q with
  | UpdateBotCallbackQuery _ _ _ _ _ d => d
  | UpdateInlineBotCallbackQuery _ _ _ _ d => d
  end.

Record UpdateBotInlineQuery := {
  iq_query_id : Z;
  iq_user_id : Z;
  iq_query : str;
  iq_offset : str
}.

Record InputBotInlineResult := { result_id : str; send_message : str }.

Record InlineBotSwitchPM := { text : str; start_param : str }.

(** What a request carries as [switch_pm]: the button made of the text,
    or the text itself when no button was made of it. *)
Inductive SwitchPM : Type :=
| switch_pm_button (pm : InlineBotSwitchPM)
| switch_pm_text (x : str).

Inductive DocumentAttribute : Type :=
| DocumentAttributeImageSize (w h : Z)
| DocumentAttributeAnimated
| DocumentAttributeSticker
| DocumentAttributeVideo (round_message : bool)
| DocumentAttributeAudio (voice : bool)
| DocumentAttributeFilename (file_name : str)
| DocumentAttributeHasStickers
| DocumentAttributeCustomEmoji.

Inductive TypePhotoSize : Type :=
| PhotoSizeEmpty | PhotoSize | PhotoCachedSize | PhotoStrippedSize
| PhotoSizeProgressive | PhotoPathSize.

Record Document := {
  document_id : Z;
  document_access_hash : Z;
  document_dc_id : Z;
  attributes : list DocumentAttribute
}.

Record Photo := {
  photo_id : Z;
  photo_access_hash : Z;
  photo_dc_id : Z;
  sizes : list TypePhotoSize
}.

(** Values [pack_bot_file_id] can be handed. *)
Inductive TLObject : Type :=
| Document_ (d : Document)
| DocumentEmpty (id : Z)
| Photo_ (p : Photo)
| PhotoEmpty (id : Z)
| MessageMediaDocument (document : TLObject)
| MessageMediaPhoto (photo : TLObject)
| MessageMediaGeo
| PyNone.

End types.

(** ** [functions] and the client *)

Module client.

Inductive request : Type :=
| SetBotCallbackAnswerRequest
    (query_id cache_time : Z) (alert : bool) (message url : option str)
| SetInlineBotResultsRequest
    (query_id : Z) (results : list types.InputBotInlineResult)
    (cache_time : Z) (gallery : bool) (next_offset : option str)
    (private : bool) (switch_pm : option types.SwitchPM).

(** What an event asks of its client, in the order it asks. *)
Inductive call : Type :=
| invoke (r : request)                      (* [await self._client(r)] *)
| create_task_answer                        (* [loop.create_task(self.answer())] *)
| delete_messages (entity : option types.InputPeer) (message_ids : list Z).

(** The mutable part of an event together with its client. *)
Record state := {
  _answered : bool;
  calls : list call
}.

(** An [async def] body: it runs on a state, leaves a state behind also
    when it raises, and either returns or raises. *)
Definition action (A : Type) : Type := state -> outcome A * state.

Definition ret {A} (a : A) : action A := fun st => (Return a, st).

Definition raise {A} (e : exn) : action A := fun st => (Raise e, st).

Definition bind {A B} (m : action A) (k : A -> action B) : action B :=
  fun st =>
    match m st with
    | (Return a, st') => k a st'
    | (Raise e, st') => (Raise e, st')
    end.

Definition get_answered : action bool := fun st => (Return (_answered st), st).

Definition set_answered (v : bool) : action unit :=
  fun st => (Return tt, {| _answered := v; calls := calls st |}).

(** Perform one call on the client; [reply] is what the client gives back. *)
Definition perform {A} (c : call) (reply : outcome A) : action A :=
  fun st => (reply, {| _answered := _answered st; calls := calls st ++ [c] |}).

End client.

Declare Scope action_scope.
Delimit Scope action_scope with action.
Notation "x <- m ;; k" := (client.bind m (fun x => k))
  (at level 100, m at next level, right associativity) : action_scope.
Notation "m ;; k" := (client.bind m (fun _ => k))
  (at level 100, right associativity) : action_scope.

(** ** [events.py]: the builders *)

(** Truth values of the Python objects the filters test. *)
Definition truthy_flag (x : option bool) : bool :=
  match x with Some true => true | _ => false end.

Definition truthy_seq {A} (x : option (list A)) : bool :=
  match x with Some (_ :: _) => true | _ => false end.

Definition is_some {A} (x : option A) : bool :=
  match x with Some _ => true | None => false end.

Definition is_none {A} (x : option A) : bool := negb (is_some x).

(** A compiled [re.Pattern], seen through [bool(pattern.match(text))]. *)
Record Pattern := { matches : str -> bool }.

(** The [pattern] argument of a constructor. *)
Inductive pattern_arg : Type :=
| pattern_str (p : str)
| pattern_compiled (p : Pattern)
| pattern_none
| pattern_other.              (* any other object *)

Module EventBuilder.

Record t (Event : Type) := {
  resolved : bool;
  func : option (Event -> bool)
}.
Arguments resolved {Event} _.
Arguments func {Event} _.

Definition __init__ {Event} (func : option (Event -> bool)) : t Event :=
  {| resolved := false; func := func |}.

Definition resolve {Event} (self : t Event) : t Event :=
  if resolved self then self
  else {| resolved := true; func := func self |}.

(** [filter]: the empty result [None] is the rejection [false]. *)
Definition filter {Event} (self : t Event) (event : Event) : bool :=
  if negb (resolved self) then false
  else match func self with
       | Some f => f event
       | None => true
       end.

End EventBuilder.

Module NewMessage.

Record Event := {
  message : types.Message;
  is_private : bool;
  is_group : bool;
  is_channel : bool;
  me_username : option str        (* [event._client.me.username] *)
}.

Record t := {
  base : EventBuilder.t Event;
  pattern : option Pattern;
  incoming : option bool;
  outgoing : option bool;
  private : bool;
  public : bool
}.

Section Init.
(** [re.compile], which raises on a malformed expression. *)
Variable re_compile : str -> outcome Pattern.

Definition __init__ (pattern : pattern_arg) (outgoing incoming : option bool)
    (func : option (Event -> bool)) (private public : bool) : outcome t :=
  let base := EventBuilder.__init__ func in
  if private && public then Raise ValueError
  else
    let directions : outcome (option bool * option bool) :=
      if truthy_flag incoming && truthy_flag outgoing then Return (None, None)
      else if is_some incoming && is_none outgoing
      then Return (incoming, Some (negb (truthy_flag incoming)))
      else if is_some outgoing && is_none incoming
      then Return (Some (negb (truthy_flag outgoing)), outgoing)
      else if forallb (fun x => is_some x && negb (truthy_flag x))
                      [incoming; outgoing]
      then Raise ValueError
      else Return (incoming, outgoing) in
    match directions with
    | Raise e => Raise e
    | Return (incoming, outgoing) =>
      let compiled : outcome (option Pattern) :=
        match pattern with
        | pattern_str p =>
          match re_compile p with
          | Return c => Return (Some c)
          | Raise e => Raise e
          end
        | pattern_compiled c => Return (Some c)
        | pattern_none => Return None
        | pattern_other => Raise TypeError
        end in
      match compiled with
      | Raise e => Raise e
      | Return pattern =>
        Return {| base := base; pattern := pattern;
                  incoming := incoming; outgoing := outgoing;
                  private := private; public := public |}
      end
    end.

End Init.

(** [resolve], inherited from [EventBuilder]. *)
Definition resolve (self : t) : t :=
  {| base := EventBuilder.resolve (base self); pattern := pattern self;
     incoming := incoming self; outgoing := outgoing self;
     private := private self; public := public self |}.

(** [filter], run at time [now] on the spam cache [c]. *)
Definition filter (self : t) (now : Z) (event : Event)
    (c : SpamGuard.TTLCache) : bool * SpamGuard.TTLCache :=
  if private self && negb (is_private event) then (false, c)
  else if public self && negb (is_group event || is_channel event) then (false, c)
  else if truthy_flag (incoming self) && types.out (message event) then (false, c)
  else if truthy_flag (outgoing self) && negb (types.out (message event)) then (false, c)
  else if match pattern self with
          | Some p => negb (matches p (types.message (message event)))
          | None => false
          end then (false, c)
  else
    let (spam, c') := SpamGuard.is_spam now (types.sender_id (message event)) c in
    if spam then (false, c')
    else (EventBuilder.filter (base self) event, c').

End NewMessage.

Module Command.

(** The [command] argument of the constructor. *)
Inductive command_arg : Type :=
| command_str (c : str)
| command_list (l : list str)
| command_other.

(** A [Command] is a [NewMessage] that also carries [self.command]. *)
Record t := {
  command : list str;
  super : NewMessage.t
}.

Section Init.
Variable re_compile : str -> outcome Pattern.

Definition __init__ (command : command_arg) (outgoing incoming : option bool)
    (func : option (NewMessage.Event -> bool)) (private public : bool)
  : outcome t :=
  let stored : outcome (list str) :=
    match command with
    | command_str c => Return [replace1 (s "/") (s "") c]
    | command_list l => Return (map (fun i => replace1 (s "/") (s "") i) l)
    | command_other => Raise TypeError
    end in
  match stored with
  | Raise e => Raise e
  | Return stored =>
    match NewMessage.__init__ re_compile pattern_none
            outgoing incoming func private public with
    | Raise e => Raise e
    | Return nm => Return {| command := stored; super := nm |}
    end
  end.

End Init.

Definition resolve (self : t) : t :=
  {| command := command self; super := NewMessage.resolve (super self) |}.

Definition filter (self : t) (now : Z) (event : NewMessage.Event)
    (c : SpamGuard.TTLCache) : bool * SpamGuard.TTLCache :=
  let nm := super self in
  let m := NewMessage.message event in
  if NewMessage.private nm && negb (types.is_private m) then (false, c)
  else if NewMessage.public nm
          && negb (types.is_group m || types.is_channel m) then (false, c)
  else if truthy_flag (NewMessage.incoming nm) && types.out m then (false, c)
  else if truthy_flag (NewMessage.outgoing nm) && negb (types.out m) then (false, c)
  else
    match types.entities m with
    | None | Some [] => (false, c)
    | Some (e0 :: _) =>
      if match types.kind e0 with
         | types.MessageEntityBotCommand => false
         | _ => true
         end
         || negb (types.offset e0 =? 0)%Z
      then (false, c)
      else
        let _entity_command :=
          split (s "@")
            (slice (types.message m) (types.offset e0 + 1)
                   (types.offset e0 + types.length e0)) None in
        match _entity_command with
        | [] => (false, c)              (* [split] never returns an empty list *)
        | name :: _entity_command =>    (* [pop(0)] *)
          if negb (contains name (command self)) then (false, c)
          else if match _entity_command with
                  | [] => false
                  | user :: _ =>
                    match NewMessage.me_username event with
                    | Some me => negb (seq_eqb user me)
                    | None => true
                    end
                  end
          then (false, c)
          else
            let (spam, c') := SpamGuard.is_spam now (types.sender_id m) c in
            if spam then (false, c')
            else (EventBuilder.filter (NewMessage.base nm) event, c')
        end
    end.

End Command.

Module CallbackQuery.

(** A [str] or [bytes] argument. *)
Inductive text : Type :=
| text_str (x : str)
| text_bytes (x : bytes).

Definition as_bytes (x : text) : bytes :=
  match x with
  | text_str x => encode_utf8 x
  | text_bytes x => x
  end.

(** The [split] argument: nothing, a separator, or a pair of a separator
    and a count. *)
Inductive split_arg : Type :=
| split_none
| split_sep (sep : text)
| split_pair (sep : text) (n : Z).

Record Event := {
  query : types.CallbackUpdate;
  input_chat : option types.InputPeer    (* what [get_input_chat()] finds *)
}.

Record t := {
  base : EventBuilder.t Event;
  data : option bytes;
  split_char : option bytes;
  split_char_count : option Z
}.

Definition __init__ (data : option text) (split : split_arg)
    (func : option (Event -> bool)) : t :=
  let base := EventBuilder.__init__ func in
  let data := option_map as_bytes data in
  let '(split_char, split_char_count) :=
    match split with
    | split_pair sep n => (Some sep, Some n)
    | split_sep sep => (Some sep, None)
    | split_none => (None, None)
    end in
  {| base := base; data := data;
     split_char := option_map as_bytes split_char;
     split_char_count := split_char_count |}.

Definition resolve (self : t) : t :=
  {| base := EventBuilder.resolve (base self); data := data self;
     split_char := split_char self;
     split_char_count := split_char_count self |}.

(** [payload.count(sep)] on values that may be [None]. *)
Definition data_count (payload sep : option bytes) : outcome Z :=
  match payload, sep with
  | None, _ => Raise AttributeError
  | Some _, None => Raise TypeError
  | Some p, Some sep => Return (Z.of_nat (count sep p))
  end.

(** [payload.split(sep, 2)] on values that may be [None]. *)
Definition data_split (payload sep : option bytes) : outcome (list bytes) :=
  match payload, sep with
  | None, _ => Raise AttributeError
  | Some p, None => Return (split_space 2 p)
  | Some _, Some [] => Raise ValueError
  | Some p, Some sep => Return (split sep p (Some 2%nat))
  end.

(** [self.data != payload] *)
Definition data_differs (d : bytes) (payload : option bytes) : bool :=
  match payload with
  | Some p => negb (seq_eqb d p)
  | None => true
  end.

(** [filter], run at time [now] on the spam cache [c].  [passed] is the
    outcome of the block guarded by [if self.data:]. *)
Definition filter (self : t) (now : Z) (event : Event)
    (c : SpamGuard.TTLCache) : outcome bool * SpamGuard.TTLCache :=
  let payload := types.data (query event) in
  let passed : outcome bool :=
    match data self with
    | None | Some [] => Return true
    | Some d =>
      if negb (truthy_seq (split_char self)) && data_differs d payload
      then Return false
      else
        let count_differs : outcome bool :=
          match split_char_count self with
          | None => Return false
          | Some n =>
            if (n =? 0)%Z then Return false
            else match data_count payload (split_char self) with
                 | Return k => Return (negb (k =? n)%Z)
                 | Raise e => Raise e
                 end
          end in
        match count_differs with
        | Raise e => Raise e
        | Return true => Return false
        | Return false =>
          match data_split payload (split_char self) with
          | Raise e => Raise e
          | Return parts =>
            match item0 parts with
            | Raise e => Raise e
            | Return head => Return (seq_eqb d head)
            end
          end
        end
    end in
  match passed with
  | Raise e => (Raise e, c)
  | Return false => (Return false, c)
  | Return true =>
    let (spam, c') :=
      SpamGuard.is_spam now (Some (types.user_id (query event))) c in
    if spam then (Return false, c')
    else (Return (EventBuilder.filter (base self) event), c')
  end.

(** *** [CallbackQuery.Event] *)

Section Actions.
Local Open Scope action_scope.
(** The client's answers: what a call gives back once awaited. *)
Variable response : Type.
Variable reply : client.call -> outcome response.

Definition answer (event : Event) (message : option str) (cache_time : Z)
    (url : option str) (alert : bool) : client.action (option response) :=
  answered <- client.get_answered ;;
  if answered then client.ret None
  else
    client.set_answered true ;;
    let r := client.invoke
               (client.SetBotCallbackAnswerRequest
                  (types.query_id (query event)) cache_time alert message url) in
    x <- client.perform r (reply r) ;;
    client.ret (Some x).

Definition via_inline (event : Event) : bool :=
  match query event with
  | types.UpdateInlineBotCallbackQuery _ _ _ _ _ => true
  | types.UpdateBotCallbackQuery _ _ _ _ _ _ => false
  end.

Definition delete (event : Event) : client.action response :=
  client.perform client.create_task_answer (Return tt) ;;
  match types.msg_id (query event) with
  | types.InlineId _ => client.raise TypeError
  | types.IntId m =>
    let r := client.delete_messages (input_chat event) [m] in
    client.perform r (reply r)
  end.

End Actions.

End CallbackQuery.

Module InlineQuery.

Record Event := { query : types.UpdateBotInlineQuery }.

Record t := {
  base : EventBuilder.t Event;
  pattern : option Pattern
}.

Section Init.
Variable re_compile : str -> outcome Pattern.

Definition __init__ (pattern : pattern_arg) (func : option (Event -> bool))
  : outcome t :=
  let base := EventBuilder.__init__ func in
  let compiled : outcome (option Pattern) :=
    match pattern with
    | pattern_str p =>
      match re_compile p with
      | Return c => Return (Some c)
      | Raise e => Raise e
      end
    | pattern_compiled c => Return (Some c)
    | pattern_none => Return None
    | pattern_other => Raise TypeError
    end in
  match compiled with
  | Raise e => Raise e
  | Return pattern => Return {| base := base; pattern := pattern |}
  end.

End Init.

Definition filter (self : t) (event : Event) : bool :=
  if match pattern self with
     | Some p => negb (matches p (types.iq_query (query event)))
     | None => false
     end then false
  else EventBuilder.filter (base self) event.

(** *** [InlineQuery.Event] *)

(** An entry of [results]: a result, or something still to be awaited,
    which ends in a result or in an exception. *)
Inductive result_arg : Type :=
| ready (r : types.InputBotInlineResult)
| awaitable (o : outcome types.InputBotInlineResult).

(** The future made of an entry, seen once it is done. *)
Definition _as_future (obj : result_arg) : outcome types.InputBotInlineResult :=
  match obj with
  | ready r => Return r
  | awaitable o => o
  end.

(** [[x.result() for x in futures]] *)
Fixpoint results_of (futures : list (outcome types.InputBotInlineResult))
  : outcome (list types.InputBotInlineResult) :=
  match futures with
  | [] => Return []
  | Raise e :: _ => Raise e
  | Return r :: rest =>
    match results_of rest with
    | Return rs => Return (r :: rs)
    | Raise e => Raise e
    end
  end.

Section Actions.
Local Open Scope action_scope.
Variable response : Type.
Variable reply : client.call -> outcome response.

Definition answer (event : Event) (results : option (list result_arg))
    (cache_time : Z) (gallery : bool) (next_offset : option str)
    (private : bool) (switch_pm : option str) (switch_pm_param : str)
  : client.action (option response) :=
  answered <- client.get_answered ;;
  if answered then client.ret None
  else
    results <- (if truthy_seq results
                then let futures := map _as_future
                                        (match results with Some l => l | None => [] end) in
                     fun st => (results_of futures, st)
                else client.ret []) ;;
    let switch_pm :=
      if truthy_seq switch_pm
      then option_map
             (fun x => types.switch_pm_button
                         {| types.text := x;
                            types.start_param := switch_pm_param |})
             switch_pm
      else option_map types.switch_pm_text switch_pm in
    let r := client.invoke
               (client.SetInlineBotResultsRequest
                  (types.iq_query_id (query event)) results cache_time gallery
                  next_offset private switch_pm) in
    x <- client.perform r (reply r) ;;
    client.ret (Some x).

End Actions.

End InlineQuery.

(** ** [utils.py]: the file-id packer *)

Module struct.

(** Format characters of [struct.pack] used with the prefix [<]
    (little-endian, no padding): signed integers of 4, 8 and 1 octets. *)
Inductive code : Type := fmt_i | fmt_q | fmt_b.

Definition size (c : code) : nat :=
  match c with fmt_i => 4 | fmt_q => 8 | fmt_b => 1 end.

Definition in_range (c : code) (v : Z) : bool :=
  let w := (8 * Z.of_nat (size c) - 1)%Z in
  ((- 2 ^ w <=? v) && (v <? 2 ^ w))%Z.

(** [struct.pack("<...", *args)]; a value out of range or a wrong number
    of arguments is a [struct.error]. *)
Fixpoint pack (fmt : list code) (args : list Z) : outcome bytes :=
  match fmt, args with
  | [], [] => Return []
  | c :: fmt', v :: args' =>
    if in_range c v
    then match pack fmt' args' with
         | Return rest => Return (le_split (size c) v ++ rest)
         | Raise e => Raise e
         end
    else Raise StructError
  | _, _ => Raise StructError
  end.

End struct.

Module utils.

(** Modelled from the spec: [telethon.utils._rle_encode] belongs to the
    wrapped library and is not under src/.  It is the run-length encoding
    of section 4.7: a run of zero octets is written as a zero followed by
    the length of the run when the next non-zero octet arrives; a run
    that ends the input is not written. *)
Fixpoint _rle_encode_from (new : bytes) (count : Z) (string : bytes)
  : outcome bytes :=
  match string with
  | [] => Return new
  | cur :: rest =>
    if (byte.unsigned cur =? 0)%Z then _rle_encode_from new (count + 1) rest
    else if (count =? 0)%Z then _rle_encode_from (new ++ [cur]) 0 rest
    else if (255 <? count)%Z then Raise ValueError
    else _rle_encode_from (new ++ [Init.Byte.x00; byte.of_Z count] ++ [cur]) 0 rest
  end.

Definition _rle_encode (string : bytes) : outcome bytes :=
  _rle_encode_from [] 0 string.

Definition b64_table : str :=
  s "ABCDEFGHIJKLMNOPQRSTUVWXYZabcdefghijklmnopqrstuvwxyz0123456789-_".

Definition b64_digit (n : Z) : ascii := nth (Z.to_nat n) b64_table "="%char.

(** [base64.urlsafe_b64encode], as text. *)
Fixpoint urlsafe_b64encode (string : bytes) : str :=
  match string with
  | [] => []
  | [x] =>
    let n := byte.unsigned x in
    [b64_digit (n / 4); b64_digit (n mod 4 * 16); "="%char; "="%char]
  | [x; y] =>
    let n := (byte.unsigned x * 256 + byte.unsigned y)%Z in
    [b64_digit (n / 1024); b64_digit (n / 16 mod 64);
     b64_digit (n mod 16 * 4); "="%char]
  | x :: y :: z :: rest =>
    let n := (byte.unsigned x * 65536 + byte.unsigned y * 256
              + byte.unsigned z)%Z in
    [b64_digit (n / 262144); b64_digit (n / 4096 mod 64);
     b64_digit (n / 64 mod 64); b64_digit (n mod 64)]
    ++ urlsafe_b64encode rest
  end.

Fixpoint lstrip (c : ascii) (x : str) : str :=
  match x with
  | [] => []
  | a :: x' => if Ascii.eqb a c then lstrip c x' else x
  end.

Definition rstrip (c : ascii) (x : str) : str := rev (lstrip c (rev x)).

(** Modelled from the spec: [telethon.utils._encode_telegram_base64]
    belongs to the wrapped library and is not under src/.  It is the
    base64 step of section 4.7: the URL-safe alphabet with the padding
    removed; for a [bytes] argument it always gives a string. *)
Definition _encode_telegram_base64 (string : bytes) : option str :=
  Some (rstrip "="%char (urlsafe_b64encode string)).

(** The [for attribute in file.attributes] loop, entered with the current
    [file_type]. *)
Fixpoint scan_attributes (file_type : Z) (attributes : list types.DocumentAttribute)
  : Z :=
  match attributes with
  | [] => file_type
  | attribute :: rest =>
    match attribute with
    | types.DocumentAttributeAudio voice => if voice then 3 else 9
    | types.DocumentAttributeVideo round_message => if round_message then 13 else 4
    | types.DocumentAttributeSticker => 8
    | types.DocumentAttributeAnimated => 10
    | _ => scan_attributes file_type rest
    end
  end%Z.

Definition is_sized (x : types.TypePhotoSize) : bool :=
  match x with
  | types.PhotoSize | types.PhotoCachedSize => true
  | _ => false
  end.

Definition pack_bot_file_id (file : types.TLObject) : outcome (option str) :=
  let file :=
    match file with
    | types.MessageMediaDocument document => document
    | types.MessageMediaPhoto photo => photo
    | _ => file
    end in
  match file with
  | types.Document_ file =>
    let file_type := scan_attributes 5 (types.attributes file) in
    match struct.pack [struct.fmt_i; struct.fmt_i; struct.fmt_q; struct.fmt_q;
                       struct.fmt_b]
            [file_type; types.document_dc_id file; types.document_id file;
             types.document_access_hash file; 2]%Z with
    | Raise e => Raise e
    | Return record =>
      match _rle_encode record with
      | Raise e => Raise e
      | Return packed => Return (_encode_telegram_base64 packed)
      end
    end
  | types.Photo_ file =>
    match List.find is_sized (rev (types.sizes file)) with
    | None => Return None
    | Some _ =>
      match struct.pack [struct.fmt_i; struct.fmt_i; struct.fmt_q; struct.fmt_q;
                         struct.fmt_q; struct.fmt_q; struct.fmt_i; struct.fmt_b]
              [2; types.photo_dc_id file; types.photo_id file;
               types.photo_access_hash file; 0; 0; 0; 2]%Z with
      | Raise e => Raise e
      | Return record =>
        match _rle_encode record with
        | Raise e => Raise e
        | Return packed => Return (_encode_telegram_base64 packed)
        end
      end
    end
  | _ => Return None
  end.

End utils.


(** ** Notions used to state the properties *)

Module Notions.

(** The message [m] with its direction flag set to [o]. *)
Definition with_out (o : bool) (m : types.Message) : types.Message :=
  {| types.out := o;
     types.message := types.message m;
     types.entities := types.entities m;
     types.sender_id := types.sender_id m;
     types.is_private := types.is_private m;
     types.is_group := types.is_group m;
     types.is_channel := types.is_channel m |}.

(** The event [ev] carrying the message [m] instead of its own. *)
Definition with_message (m : types.Message) (ev : NewMessage.Event)
  : NewMessage.Event :=
  {| NewMessage.message := m;
     NewMessage.is_private := NewMessage.is_private ev;
     NewMessage.is_group := NewMessage.is_group ev;
     NewMessage.is_channel := NewMessage.is_channel ev;
     NewMessage.me_username := NewMessage.me_username ev |}.

(** The event [ev] seen by a bot whose username is [u]. *)
Definition with_username (u : option str) (ev : NewMessage.Event)
  : NewMessage.Event :=
  {| NewMessage.message := NewMessage.message ev;
     NewMessage.is_private := NewMessage.is_private ev;
     NewMessage.is_group := NewMessage.is_group ev;
     NewMessage.is_channel := NewMessage.is_channel ev;
     NewMessage.me_username := u |}.

Definition bot_command (offset length : Z) : types.MessageEntity :=
  {| types.kind := types.MessageEntityBotCommand;
     types.offset := offset; types.length := length |}.

(** A callback from user 7 on message 1 of a private chat, carrying
    [payload]. *)
Definition callback_event (payload : bytes) : CallbackQuery.Event :=
  {| CallbackQuery.query :=
       types.UpdateBotCallbackQuery 100 7 (types.PeerUser 7) 1 5 (Some payload);
     CallbackQuery.input_chat := Some (types.InputPeerUser 7 0) |}.

(** The same click on a message sent through inline mode. *)
Definition inline_callback_event (payload : bytes) : CallbackQuery.Event :=
  {| CallbackQuery.query :=
       types.UpdateInlineBotCallbackQuery 100 7
         (types.InputBotInlineMessageID_ 2 1 0) 5 (Some payload);
     CallbackQuery.input_chat := None |}.

(** A private text message from user 7 with the given entities. *)
Definition text_message (o : bool) (txt : str)
    (ents : option (list types.MessageEntity)) : types.Message :=
  {| types.out := o; types.message := txt; types.entities := ents;
     types.sender_id := Some 7%Z;
     types.is_private := true; types.is_group := false;
     types.is_channel := false |}.

Definition text_event (o : bool) (txt : str)
    (ents : option (list types.MessageEntity)) (me : option str)
  : NewMessage.Event :=
  {| NewMessage.message := text_message o txt ents;
     NewMessage.is_private := true; NewMessage.is_group := false;
     NewMessage.is_channel := false; NewMessage.me_username := me |}.

(** The attributes that decide the type of a document. *)
Definition media_attribute (a : types.DocumentAttribute) : bool :=
  match a with
  | types.DocumentAttributeAudio _ | types.DocumentAttributeVideo _
  | types.DocumentAttributeSticker | types.DocumentAttributeAnimated => true
  | _ => false
  end.

(** The type code of a document whose first such attribute is [a];
    5 stands for a document without any. *)
Definition type_code (a : option types.DocumentAttribute) : Z :=
  match a with
  | Some (types.DocumentAttributeAudio voice) => if voice then 3 else 9
  | Some (types.DocumentAttributeVideo round_message) =>
    if round_message then 13 else 4
  | Some types.DocumentAttributeSticker => 8
  | Some types.DocumentAttributeAnimated => 10
  | _ => 5
  end.

(** The record of a document: type code and datacenter on 32 bits, file
    id and access hash on 64 bits, all little-endian, then the version. *)
Definition document_record (d : types.Document) : bytes :=
  le_split 4 (type_code (List.find media_attribute (types.attributes d)))
  ++ le_split 4 (types.document_dc_id d)
  ++ le_split 8 (types.document_id d)
  ++ le_split 8 (types.document_access_hash d)
  ++ [Init.Byte.x02].

(** The record of a photo: the constant 2, datacenter, photo id, access
    hash, three reserved zero fields, then the version. *)
Definition photo_record (p : types.Photo) : bytes :=
  le_split 4 2
  ++ le_split 4 (types.photo_dc_id p)
  ++ le_split 8 (types.photo_id p)
  ++ le_split 8 (types.photo_access_hash p)
  ++ le_split 8 0 ++ le_split 8 0 ++ le_split 4 0
  ++ [Init.Byte.x02].

(** The fields of a document fit their TL types ([int], [long]). *)
Definition document_fits (d : types.Document) : Prop :=
  struct.in_range struct.fmt_i (types.document_dc_id d) = true
  /\ struct.in_range struct.fmt_q (types.document_id d) = true
  /\ struct.in_range struct.fmt_q (types.document_access_hash d) = true.

Definition photo_fits (p : types.Photo) : Prop :=
  struct.in_range struct.fmt_i (types.photo_dc_id p) = true
  /\ struct.in_range struct.fmt_q (types.photo_id p) = true
  /\ struct.in_range struct.fmt_q (types.photo_access_hash p) = true.

(** The inverse of the run-length encoding: a zero octet announces a run
    whose length is the next octet. *)
Fixpoint rle_decode (x : bytes) : bytes :=
  match x with
  | [] => []
  | z :: tl =>
    if (byte.unsigned z =? 0)%Z
    then match tl with
         | [] => [z]
         | n :: rest =>
           repeat Init.Byte.x00 (Z.to_nat (byte.unsigned n)) ++ rle_decode rest
         end
    else z :: rle_decode tl
  end.

(** The value of a base64 digit: its place in the alphabet. *)
Fixpoint index_of (c : ascii) (l : str) : option Z :=
  match l with
  | [] => None
  | a :: l' =>
    if Ascii.eqb a c then Some 0%Z else option_map Z.succ (index_of c l')
  end.

Definition b64_value (c : ascii) : option Z := index_of c utils.b64_table.

(** Decoding of unpadded URL-safe base64 text. *)
Fixpoint b64decode (x : str) : option bytes :=
  match x with
  | [] => Some []
  | [_] => None
  | [c1; c2] =>
    match b64_value c1, b64_value c2 with
    | Some v1, Some v2 => Some [byte.of_Z (v1 * 4 + v2 / 16)%Z]
    | _, _ => None
    end
  | [c1; c2; c3] =>
    match b64_value c1, b64_value c2, b64_value c3 with
    | Some v1, Some v2, Some v3 =>
      Some [byte.of_Z (v1 * 4 + v2 / 16); byte.of_Z (v2 mod 16 * 16 + v3 / 4)]
    | _, _, _ => None
    end
  | c1 :: c2 :: c3 :: c4 :: rest =>
    match b64_value c1, b64_value c2, b64_value c3, b64_value c4,
          b64decode rest with
    | Some v1, Some v2, Some v3, Some v4, Some r =>
      Some (byte.of_Z (v1 * 4 + v2 / 16)
            :: byte.of_Z (v2 mod 16 * 16 + v3 / 4)
            :: byte.of_Z (v3 mod 4 * 64 + v4) :: r)
    | _, _, _, _, _ => None
    end
  end.

(** A signed integer read back from [w] bits. *)
Definition signed (w : Z) (z : Z) : Z :=
  if (z <? 2 ^ (w - 1))%Z then z else (z - 2 ^ w)%Z.

(** The flags of a [NewMessage] that cannot be asked for together. *)
Definition flags_conflict (private public : bool) (incoming outgoing : option bool)
  : Prop :=
  (private = true /\ public = true)
  \/ (incoming = Some false /\ outgoing = Some false).

(** The builder [self] with its criteria only: resolved and without a
    user predicate. *)
Definition without_predicate (self : NewMessage.t) : NewMessage.t :=
  {| NewMessage.base := {| EventBuilder.resolved := true;
                           EventBuilder.func := None |};
     NewMessage.pattern := NewMessage.pattern self;
     NewMessage.incoming := NewMessage.incoming self;
     NewMessage.outgoing := NewMessage.outgoing self;
     NewMessage.private := NewMessage.private self;
     NewMessage.public := NewMessage.public self |}.

(** A resolved [CallbackQuery] builder for the text [data], without a
    user predicate. *)
Definition callback_builder (data : string) (split : CallbackQuery.split_arg)
  : CallbackQuery.t :=
  CallbackQuery.resolve
    (CallbackQuery.__init__ (Some (CallbackQuery.text_str (s data))) split None).

(** The caches [_spam_cache] can become: the empty one, and what a call
    of [is_spam] leaves behind. *)
Inductive reachable : SpamGuard.TTLCache -> Prop :=
| reachable_start : reachable SpamGuard._spam_cache
| reachable_call (now : Z) (id : SpamGuard.key) (c : SpamGuard.TTLCache) :
    reachable c -> reachable (snd (SpamGuard.is_spam now id c)).

(** The cache after the calls [is_spam(id)] of [calls], each with its
    time, made one after the other. *)
Definition spam_calls (calls : list (Z * SpamGuard.key))
    (c : SpamGuard.TTLCache) : SpamGuard.TTLCache :=
  fold_left (fun c call => snd (SpamGuard.is_spam (fst call) (snd call) c))
            calls c.

(** The mark that [is_spam] set for [id] at time [t] is in the cache,
    no older entry is for [id], and at most [n] entries are newer. *)
Definition marked (t : Z) (id : SpamGuard.key) (n : nat)
    (c : SpamGuard.TTLCache) : Prop :=
  exists older newer,
    c = older
        ++ {| SpamGuard.e_key := id; SpamGuard.e_value := 1;
              SpamGuard.e_expires := t + SpamGuard.ttl |} :: newer
    /\ (forall x, In x older -> SpamGuard.key_eqb (SpamGuard.e_key x) id = false)
    /\ (List.length newer <= n)%nat.

End Notions.

(** ** [events.py]: the [build] class methods *)

Module unpacking.

(** [struct.unpack("<...", data)]: signed little-endian integers read in
    the order of the format; data of another length is a [struct.error]. *)
Fixpoint unpack (fmt : list struct.code) (data : bytes) : outcome (list Z) :=
  match fmt with
  | [] => match data with
          | [] => Return []
          | _ :: _ => Raise StructError
          end
  | c :: fmt' =>
    let n := struct.size c in
    if (List.length data <? n)%nat then Raise StructError
    else match unpack fmt' (skipn n data) with
         | Return vs =>
           Return (Notions.signed (8 * Z.of_nat n) (le_combine (firstn n data))
                   :: vs)
         | Raise e => Raise e
         end
  end.

End unpacking.

Module updates.

(** The [from_id] of a message: a peer, or the [PeerUser(None)] that
    [build] makes for an outgoing short message when [self_id] is
    missing. *)
Inductive SenderPeer : Type :=
| sender (p : types.Peer)
| PeerUser_None.

(** [types.PeerUser(user_id)] with a [user_id] that may be [None]. *)
Definition PeerUser (user_id : option Z) : SenderPeer :=
  match user_id with
  | Some i => sender (types.PeerUser i)
  | None => PeerUser_None
  end.

(** A [types.Message] as it arrives, before the client completes it. *)
Record Message := {
  out : bool;
  mentioned : bool;
  media_unread : bool;
  silent : bool;
  post : bool;
  id : Z;
  peer_id : types.Peer;
  from_id : option SenderPeer;
  message : str;
  date : Z;
  fwd_from : option Z;
  via_bot_id : option Z;
  reply_to : option Z;
  entities : option (list types.MessageEntity);
  ttl_period : option Z
}.

(** The [message] field of [UpdateNewMessage]. *)
Inductive TypeMessage : Type :=
| Message_ (m : Message)
| MessageService (id : Z)
| MessageEmpty (id : Z).

Record UpdateShortMessage := {
  s_out : bool;
  s_mentioned : bool;
  s_media_unread : bool;
  s_silent : bool;
  s_id : Z;
  s_user_id : Z;
  s_message : str;
  s_date : Z;
  s_fwd_from : option Z;
  s_via_bot_id : option Z;
  s_reply_to : option Z;
  s_entities : option (list types.MessageEntity);
  s_ttl_period : option Z
}.

Record UpdateShortChatMessage := {
  c_out : bool;
  c_mentioned : bool;
  c_media_unread : bool;
  c_silent : bool;
  c_id : Z;
  c_from_id : Z;
  c_chat_id : Z;
  c_message : str;
  c_date : Z;
  c_fwd_from : option Z;
  c_via_bot_id : option Z;
  c_reply_to : option Z;
  c_entities : option (list types.MessageEntity);
  c_ttl_period : option Z
}.

(** The updates the builders tell apart. *)
Inductive Update : Type :=
| UpdateNewMessage (message : TypeMessage)
| UpdateNewChannelMessage (message : TypeMessage)
| UpdateShort (u : UpdateShortMessage)
| UpdateShortChat (u : UpdateShortChatMessage)
| UpdateCallback (q : types.CallbackUpdate)
| UpdateInlineQuery (q : types.UpdateBotInlineQuery)
| UpdateUserTyping (user_id : Z).

(** What [NewMessage.Event.__init__] keeps of a message. *)
Record MessageEvent := {
  ev_message : Message;
  ev_chat_peer : types.Peer;
  ev_msg_id : Z;
  ev_broadcast : bool
}.

Definition Event (message : Message) : MessageEvent :=
  {| ev_message := message; ev_chat_peer := peer_id message;
     ev_msg_id := id message; ev_broadcast := post message |}.

(** [NewMessage.build(update, others, self_id)] *)
Definition NewMessage_build (update : Update) (self_id : option Z)
  : option MessageEvent :=
  match update with
  | UpdateNewMessage m | UpdateNewChannelMessage m =>
    match m with
    | Message_ m => Some (Event m)
    | _ => None
    end
  | UpdateShort u =>
    Some (Event
      {| out := s_out u; mentioned := s_mentioned u;
         media_unread := s_media_unread u; silent := s_silent u;
         post := false; id := s_id u;
         peer_id := types.PeerUser (s_user_id u);
         from_id := Some (PeerUser
                      (if s_out u then self_id else Some (s_user_id u)));
         message := s_message u; date := s_date u;
         fwd_from := s_fwd_from u; via_bot_id := s_via_bot_id u;
         reply_to := s_reply_to u; entities := s_entities u;
         ttl_period := s_ttl_period u |})
  | UpdateShortChat u =>
    Some (Event
      {| out := c_out u; mentioned := c_mentioned u;
         media_unread := c_media_unread u; silent := c_silent u;
         post := false; id := c_id u;
         from_id := Some (PeerUser
                      (if c_out u then self_id else Some (c_from_id u)));
         peer_id := types.PeerChat (c_chat_id u);
         message := c_message u; date := c_date u;
         fwd_from := c_fwd_from u; via_bot_id := c_via_bot_id u;
         reply_to := c_reply_to u; entities := c_entities u;
         ttl_period := c_ttl_period u |})
  | _ => None
  end.

(** What [CallbackQuery.Event.__init__] is given. *)
Record CallbackEvent := {
  cb_query : types.CallbackUpdate;
  cb_chat_peer : types.Peer;
  cb_message_id : Z
}.

(** [update.msg_id.id] *)
Definition inline_id (m : types.InputBotInlineMessageID) : Z :=
  match m with
  | types.InputBotInlineMessageID_ _ id _ => id
  | types.InputBotInlineMessageID64 _ _ id _ => id
  end.

(** [CallbackQuery.build(update)] *)
Definition CallbackQuery_build (update : Update) : outcome (option CallbackEvent) :=
  match update with
  | UpdateCallback (types.UpdateBotCallbackQuery _ _ peer msg_id _ _ as q) =>
    Return (Some {| cb_query := q; cb_chat_peer := peer;
                    cb_message_id := msg_id |})
  | UpdateCallback (types.UpdateInlineBotCallbackQuery _ _ msg_id _ _ as q) =>
    match struct.pack [struct.fmt_q] [inline_id msg_id] with
    | Raise e => Raise e
    | Return packed =>
      match unpacking.unpack [struct.fmt_i; struct.fmt_i] packed with
      | Raise e => Raise e
      | Return [mid; pid] =>
        let peer := if (pid <? 0)%Z then types.PeerChannel (- pid)
                    else types.PeerUser pid in
        Return (Some {| cb_query := q; cb_chat_peer := peer;
                        cb_message_id := mid |})
      | Return _ => Raise ValueError     (* two fields are always unpacked *)
      end
    end
  | _ => Return None
  end.

(** [InlineQuery.build(update)] *)
Definition InlineQuery_build (update : Update) : option InlineQuery.Event :=
  match update with
  | UpdateInlineQuery q => Some {| InlineQuery.query := q |}
  | _ => None
  end.

End updates.

(** ** [CallbackQuery.Event.get_message] *)

Module get_message.

(** The cached message of the event and the fetches made so far, each
    with the chat and the message id handed to [client.get_messages]. *)
Record state := {
  _message : option types.Message;
  fetches : list (option types.InputPeer * Z)
}.

Section Client.
(** [await self._client.get_messages(chat, ids=id)]: the message, [None]
    when there is none, or an exception. *)
Variable get_messages : option types.InputPeer -> Z -> outcome (option types.Message).

Definition get_message (is_channel : bool) (input_chat : option types.InputPeer)
    (_message_id : Z) (st : state) : outcome (option types.Message) * state :=
  match _message st with
  | Some m => (Return (Some m), st)
  | None =>
    let chat := if is_channel then input_chat else None in
    let fetched := fetches st ++ [(chat, _message_id)] in
    match get_messages chat _message_id with
    | Return m => (Return m, {| _message := m; fetches := fetched |})
    | Raise ValueError =>
      (Return None, {| _message := None; fetches := fetched |})
    | Raise e => (Raise e, {| _message := None; fetches := fetched |})
    end
  end.

End Client.

End get_message.

(** ** [NewMessage.Event]: the attribute dictionary *)

Module attributes.

(** Attribute values, as far as their truth matters. *)
Inductive value : Type :=
| PyNone
| PyBool (b : bool)
| PyInt (z : Z)
| PyStr (x : str)
| PyObject (id : Z).

Definition truthy (v : value) : bool :=
  match v with
  | PyNone => false
  | PyBool b => b
  | PyInt z => negb (z =? 0)%Z
  | PyStr x => match x with [] => false | _ :: _ => true end
  | PyObject _ => true
  end.

(** [self.__dict__], in insertion order. *)
Definition dict := list (str * value).

Inductive result (A : Type) : Type :=
| Ok (a : A)
| KeyError (key : str).
Arguments Ok {A} a.
Arguments KeyError {A} key.

(** [d[name]], [None] standing for the [KeyError]. *)
Fixpoint lookup (d : dict) (name : str) : option value :=
  match d with
  | [] => None
  | (k, v) :: d' => if seq_eqb k name then Some v else lookup d' name
  end.

(** [d[name] = v] *)
Fixpoint store (d : dict) (name : str) (v : value) : dict :=
  match d with
  | [] => [(name, v)]
  | (k, w) :: d' =>
    if seq_eqb k name then (k, v) :: d' else (k, w) :: store d' name v
  end.

Definition _init : str := s "_init".

(** [__getattr__(item)]: [self.__dict__[item]].  Python calls it for the
    names that are no attribute of the class; those of the instance it
    finds in the same dictionary. *)
Definition __getattr__ (d : dict) (item : str) : result value :=
  match lookup d item with
  | Some v => Ok v
  | None => KeyError item
  end.

(** [__setattr__(name, value)] *)
Definition __setattr__ (d : dict) (name : str) (v : value) : result dict :=
  match lookup d _init with
  | None => KeyError _init
  | Some init =>
    if negb (truthy init) || is_some (lookup d name)
    then Ok (store d name v)
    else Ok d
  end.

(** The end of [_set_client]: [self.__dict__["_init"] = True]. *)
Definition freeze (d : dict) : dict := store d _init (PyBool true).

(** Assignments made one after the other. *)
Fixpoint assign_all (d : dict) (l : list (str * value)) : result dict :=
  match l with
  | [] => Ok d
  | (name, v) :: l' =>
    match __setattr__ d name v with
    | Ok d' => assign_all d' l'
    | KeyError k => KeyError k
    end
  end.

End attributes.

(** * Properties *)

Unset Implicit Arguments.

(** ** Sequences *)

Module PyFacts.
Section Sequences.
Context {A : Type} `{Elem A}.

Lemma elem_eqb_refl (x : A) : elem_eqb x x = true.
Proof. now apply elem_eqb_eq. Qed.

Lemma seq_eqb_eq (x y : list A) : seq_eqb x y = true <-> x = y.
Proof.
  revert y; induction x as [|a x IH]; intros [|c y]; simpl;
    try (split; [discriminate | discriminate]); [tauto|].
  rewrite andb_true_iff, elem_eqb_eq, IH.
  split; [intros [-> ->]; reflexivity | intros E; inversion E; auto].
Qed.

Lemma seq_eqb_refl (x : list A) : seq_eqb x x = true.
Proof. now apply seq_eqb_eq. Qed.

Lemma seq_eqb_neq (x y : list A) : seq_eqb x y = false <-> x <> y.
Proof.
  rewrite <- seq_eqb_eq. destruct (seq_eqb x y); split; congruence.
Qed.

Lemma startswith_app (pre r : list A) : startswith pre (pre ++ r) = true.
Proof.
  induction pre as [|a pre IH]; simpl; [reflexivity|].
  now rewrite elem_eqb_refl, IH.
Qed.

Lemma startswith_true (pre x : list A) :
  startswith pre x = true -> x = pre ++ skipn (List.length pre) x.
Proof.
  revert x; induction pre as [|a pre IH]; intros [|c x]; simpl;
    try reflexivity; try discriminate.
  rewrite andb_true_iff, elem_eqb_eq. intros [-> Hs].
  f_equal. now apply IH.
Qed.

(** [find] gives the leftmost position at which [sub] starts. *)
Lemma find_Some (sub x : list A) (i : nat) :
  find sub x = Some i ->
  startswith sub (skipn i x) = true
  /\ (i <= List.length x)%nat
  /\ forall j, (j < i)%nat -> startswith sub (skipn j x) = false.
Proof.
  revert i; induction x as [|a x IH]; intros i.
  - cbn [find]. destruct (startswith sub []) eqn:E; [|discriminate].
    intros [= <-]. repeat split; [exact E | lia | intros j Hj; lia].
  - cbn [find]. destruct (startswith sub (a :: x)) eqn:E.
    + intros [= <-]. repeat split; [exact E | simpl; lia | intros j Hj; lia].
    + destruct (find sub x) as [k|] eqn:F; [|discriminate].
      intros [= <-]. destruct (IH k eq_refl) as (H1 & H2 & H3).
      repeat split; [exact H1 | simpl; lia |].
      intros [|j] Hj; [exact E | apply H3; lia].
Qed.

Lemma find_None (sub x : list A) :
  find sub x = None ->
  forall j, (j <= List.length x)%nat -> startswith sub (skipn j x) = false.
Proof.
  induction x as [|a x IH].
  - cbn [find]. destruct (startswith sub []) eqn:E; [discriminate|].
    intros _ [|j] Hj; [exact E | simpl in Hj; lia].
  - cbn [find]. destruct (startswith sub (a :: x)) eqn:E; [discriminate|].
    destruct (find sub x) eqn:F; [discriminate|].
    intros _ [|j] Hj; [exact E | apply IH; [reflexivity | simpl in Hj; lia]].
Qed.

Lemma find_bound (sub x : list A) (i : nat) :
  find sub x = Some i -> (i + List.length sub <= List.length x)%nat.
Proof.
  intros F. destruct (find_Some _ _ _ F) as (H1 & H2 & _).
  apply startswith_true in H1.
  apply (f_equal (@List.length A)) in H1.
  rewrite length_app, !length_skipn in H1. lia.
Qed.

(** The sequence cut at the leftmost occurrence of [sub]. *)
Lemma find_split (sub x : list A) (i : nat) :
  find sub x = Some i ->
  x = firstn i x ++ sub ++ skipn (i + List.length sub) x.
Proof.
  intros F. destruct (find_Some _ _ _ F) as (H1 & _ & _).
  apply startswith_true in H1.
  rewrite skipn_skipn in H1. rewrite (Nat.add_comm i).
  rewrite <- H1. symmetry. apply firstn_skipn.
Qed.

Lemma find_app_here (sub pre r : list A) :
  (forall j, (j < List.length pre)%nat ->
             startswith sub (skipn j (pre ++ sub ++ r)) = false) ->
  find sub (pre ++ sub ++ r) = Some (List.length pre).
Proof.
  induction pre as [|a pre IH]; intros Hno.
  - simpl. destruct (sub ++ r) eqn:E; cbn [find];
      rewrite <- E, startswith_app; reflexivity.
  - pose proof (Hno 0%nat ltac:(simpl; lia)) as H0.
    cbn [skipn] in H0. cbn [app find] in *. rewrite H0.
    rewrite IH; [reflexivity|].
    intros j Hj. apply (Hno (S j)). simpl. lia.
Qed.

(** The first piece of a split is what precedes the leftmost separator. *)
Lemma split_head (sep x : list A) (n : nat) :
  exists rest,
    split sep x (Some (S n)) =
    match find sep x with Some i => firstn i x | None => x end :: rest.
Proof.
  unfold split. cbn [split_fuel]. destruct (find sep x); eauto.
Qed.

Lemma split_all_head (sep x : list A) :
  exists rest,
    split sep x None =
    match find sep x with Some i => firstn i x | None => x end :: rest.
Proof.
  unfold split. cbn [split_fuel]. destruct (find sep x); eauto.
Qed.

Lemma split_no_sep (sep x : list A) (m : option nat) :
  find sep x = None -> split sep x m = [x].
Proof.
  intros F. unfold split. cbn [split_fuel]. rewrite F.
  destruct m as [[|]|]; reflexivity.
Qed.

(** More rounds than the sequence has elements change nothing. *)
Lemma split_fuel_enough (sep x : list A) (m : option nat) (f g : nat) :
  sep <> [] -> (List.length x < f)%nat -> (List.length x < g)%nat ->
  split_fuel f sep x m = split_fuel g sep x m.
Proof.
  intros Hsep. revert x m g.
  induction f as [|f IH]; intros x m g Hf Hg; [lia|].
  destruct g as [|g]; [lia|]. cbn [split_fuel].
  assert (Hcut : forall i, find sep x = Some i ->
            (List.length (skipn (i + List.length sep) x) < f)%nat
            /\ (List.length (skipn (i + List.length sep) x) < g)%nat).
  { intros i F. pose proof (find_bound _ _ _ F) as Hi.
    rewrite length_skipn.
    destruct sep; [congruence | cbn [List.length] in *; lia]. }
  destruct m as [[|m]|]; try reflexivity;
    (destruct (find sep x) as [i|] eqn:F; [|reflexivity]);
    (f_equal; apply IH; apply (Hcut i eq_refl)).
Qed.

Lemma count_fuel_enough (sub x : list A) (f g : nat) :
  sub <> [] -> (List.length x < f)%nat -> (List.length x < g)%nat ->
  count_fuel f sub x = count_fuel g sub x.
Proof.
  intros Hsub. revert x g.
  induction f as [|f IH]; intros x g Hf Hg; [lia|].
  destruct g as [|g]; [lia|]. cbn [count_fuel].
  destruct (find sub x) as [i|] eqn:F; [|reflexivity].
  pose proof (find_bound _ _ _ F) as Hi.
  f_equal. apply IH; rewrite length_skipn;
    (destruct sub; [congruence | cbn [List.length] in *; lia]).
Qed.

(** [count] is one less than the number of pieces of an unbounded split. *)
Lemma count_split (sep x : list A) :
  sep <> [] -> S (count sep x) = List.length (split sep x None).
Proof.
  intros Hsep. unfold count, split.
  destruct sep as [|a sep]; [congruence|].
  generalize (S (List.length x)). intros f. revert x.
  induction f as [|f IH]; intros x; [reflexivity|].
  cbn [count_fuel split_fuel].
  destruct (find (a :: sep) x) as [i|]; [|reflexivity].
  cbn [List.length option_map]. f_equal. apply IH.
Qed.

Lemma count_zero (sub x : list A) :
  sub <> [] -> (count sub x = 0%nat <-> find sub x = None).
Proof.
  intros Hsub. unfold count. destruct sub as [|a sub]; [congruence|].
  cbn [count_fuel]. destruct (find (a :: sub) x); split; congruence.
Qed.

End Sequences.
End PyFacts.

(** ** Spam guard *)

Module SpamGuardFacts.
Import SpamGuard.

Lemma key_eqb_eq (a c : key) : key_eqb a c = true <-> a = c.
Proof.
  destruct a as [x|], c as [y|]; simpl; try (split; congruence).
  rewrite Z.eqb_eq. split; congruence.
Qed.

Lemma key_eqb_refl (a : key) : key_eqb a a = true.
Proof. now apply key_eqb_eq. Qed.

Lemma lookup_after (l : TTLCache) (k : key) (e : entry) :
  (forall x, In x l -> key_eqb (e_key x) k = false) ->
  e_key e = k ->
  lookup (l ++ [e]) k = Some e.
Proof.
  intros Hl He. unfold lookup.
  induction l as [|x l IH]; simpl.
  - now rewrite He, key_eqb_refl.
  - rewrite (Hl x) by now left. apply IH. intros y Hy. apply Hl. now right.
Qed.

Lemma lookup_None (l : TTLCache) (k : key) :
  lookup l k = None -> forall x, In x l -> key_eqb (e_key x) k = false.
Proof.
  intros Hn x Hx. unfold lookup in Hn.
  apply (find_none _ _ Hn x Hx).
Qed.

(** Storing under [k] leaves exactly one entry for [k], the new one. *)
Lemma lookup_setitem (c : TTLCache) (now : Z) (k : key) (v : Z) :
  lookup (setitem c now k v) k
  = Some {| e_key := k; e_value := v; e_expires := now + ttl |}.
Proof.
  unfold setitem.
  destruct (lookup (expire now c) k) eqn:L.
  - apply lookup_after; [|reflexivity].
    intros x Hx. apply filter_In in Hx. destruct Hx as [_ Hx].
    now apply negb_true_iff in Hx.
  - apply lookup_after; [|reflexivity].
    intros x Hx. apply (lookup_None _ _ L).
    destruct (maxsize <=? List.length (expire now c))%nat; [|exact Hx].
    destruct (expire now c); [contradiction | now right].
Qed.

Lemma get_miss (c : TTLCache) (now : Z) (k : key) (d : Z) :
  (forall e, In e c -> e_key e = k -> (e_expires e <= now)%Z) ->
  get c now k d = d.
Proof.
  intros Hc. unfold get. destruct (lookup c k) as [e|] eqn:L; [|reflexivity].
  apply find_some in L. destruct L as [Hin Hk]. apply key_eqb_eq in Hk.
  unfold expired. now rewrite (proj2 (Z.leb_le _ _) (Hc e Hin Hk)).
Qed.

(** A live entry with a true value is a hit, and a hit changes nothing. *)
Lemma is_spam_hit (c : TTLCache) (now : Z) (id : key) (e : entry) :
  lookup c id = Some e -> (now < e_expires e)%Z -> e_value e <> 0%Z ->
  is_spam now id c = (true, c).
Proof.
  intros L Hlive Hv. unfold is_spam, get, expired. rewrite L.
  rewrite (proj2 (Z.leb_gt _ _) Hlive).
  now rewrite (proj2 (Z.eqb_neq _ _) Hv).
Qed.

Lemma is_spam_miss (c : TTLCache) (now : Z) (id : key) :
  (forall e, In e c -> e_key e = id -> (e_expires e <= now)%Z) ->
  is_spam now id c = (false, setitem c now id 1).
Proof.
  intros Hc. unfold is_spam. now rewrite (get_miss c now id 0%Z Hc).
Qed.

(** A call for another id keeps a live entry as long as the cache has
    room. *)
Lemma is_spam_other (c : TTLCache) (now : Z) (id other : key) (e : entry) :
  other <> id ->
  lookup c id = Some e -> (now < e_expires e)%Z ->
  (List.length c < maxsize)%nat ->
  lookup (snd (is_spam now other c)) id = Some e.
Proof.
  intros Hne L Hlive Hroom. unfold is_spam.
  destruct (negb (get c now other 0 =? 0)%Z); [exact L|].
  cbn [snd]. unfold setitem.
  assert (Hother : key_eqb other id = false).
  { destruct (key_eqb other id) eqn:E; [|reflexivity].
    apply key_eqb_eq in E. contradiction. }
  assert (Hlen : (List.length (expire now c) < maxsize)%nat).
  { unfold expire. pose proof (filter_length_le (fun e => negb (expired now e)) c).
    lia. }
  assert (Hkeep : forall (p : entry -> bool) (l : TTLCache),
             (forall x, key_eqb (e_key x) id = true ->
                        (now < e_expires x)%Z -> p x = true) ->
             lookup l id = Some e -> lookup (filter p l) id = Some e).
  { intros p l Hp. unfold lookup. induction l as [|x l IH]; simpl; [discriminate|].
    destruct (key_eqb (e_key x) id) eqn:Ex.
    - intros [= ->]. rewrite (Hp e Ex Hlive). simpl. now rewrite Ex.
    - intros Hl. destruct (p x); simpl; [rewrite Ex|]; now apply IH. }
  assert (Hlive' : lookup (expire now c) id = Some e).
  { apply Hkeep; [|exact L]. intros x _ Hx. unfold expired.
    now rewrite (proj2 (Z.leb_gt _ _) Hx). }
  assert (Happ : forall l x, lookup l id = Some e -> lookup (l ++ [x]) id = Some e).
  { intros l x. unfold lookup. induction l as [|y l IH]; simpl; [discriminate|].
    destruct (key_eqb (e_key y) id); [auto | apply IH]. }
  destruct (lookup (expire now c) other).
  - apply Happ, Hkeep; [|exact Hlive'].
    intros x Hx _. apply key_eqb_eq in Hx.
    destruct (key_eqb (e_key x) other) eqn:E; [|reflexivity].
    apply key_eqb_eq in E. congruence.
  - apply Happ. destruct (Nat.leb_spec maxsize (List.length (expire now c))); [lia|].
    exact Hlive'.
Qed.

(** C7. If [is_spam(id)] is called at time [t] while the cache holds no
    unexpired entry for [id], it answers false and stores an entry that
    expires [ttl] (0.6 s) later; every call before that moment answers
    true and leaves the cache, and with it the expiry, as it is; a call at
    or after that moment answers false again. *)
Theorem is_spam_window (c : TTLCache) (id : key) (t : Z)
  (Hnone : forall e, In e c -> e_key e = id -> (e_expires e <= t)%Z) :
  let c' := snd (is_spam t id c) in
  fst (is_spam t id c) = false
  /\ lookup c' id = Some {| e_key := id; e_value := 1; e_expires := t + 600 |}
  /\ (forall t', (t <= t' < t + 600)%Z ->
        is_spam t' id c' = (true, c'))
  /\ (forall t', (t + 600 <= t')%Z ->
        fst (is_spam t' id c') = false).
Proof.
  intros c'. subst c'. rewrite (is_spam_miss c t id Hnone). cbn [fst snd].
  pose proof (lookup_setitem c t id 1) as L. unfold ttl in L.
  split; [reflexivity|]. split; [exact L|]. split.
  - intros t' Ht'. apply (is_spam_hit _ t' id _ L); cbn; [lia | discriminate].
  - intros t' Ht'. unfold is_spam, get, expired. rewrite L. cbn.
    now rewrite (proj2 (Z.leb_le _ _) Ht').
Qed.

Lemma is_spam_window_witness :
  let c' := snd (is_spam 1000 (Some 42%Z) _spam_cache) in
  fst (is_spam 1000 (Some 42%Z) _spam_cache) = false
  /\ lookup c' (Some 42%Z)
     = Some {| e_key := Some 42%Z; e_value := 1; e_expires := 1000 + 600 |}
  /\ (forall t', (1000 <= t' < 1000 + 600)%Z ->
        is_spam t' (Some 42%Z) c' = (true, c'))
  /\ (forall t', (1000 + 600 <= t')%Z ->
        fst (is_spam t' (Some 42%Z) c') = false).
Proof.
  apply (is_spam_window _spam_cache (Some 42%Z) 1000).
  intros e He. simpl in He. contradiction.
Defined.

End SpamGuardFacts.

(** ** [NewMessage] *)

Module NewMessageFacts.
Import Notions.

Ltac flag_cases :=
  repeat match goal with
         | x : bool |- _ => destruct x
         | x : option bool |- _ => destruct x as [[|]|]
         end.

(** C3, amended. Constructing a [NewMessage] raises [ValueError]
    whenever [private] and [public] are both set, and whenever [incoming]
    and [outgoing] are both given as false; with any other flags the
    construction fails only on its [pattern] argument: with [TypeError]
    when it is neither a string, a compiled pattern nor [None], and with
    the error of [re.compile] when it is a malformed string.  In every
    construction that succeeds the flags do not conflict, and a lone
    [incoming=True] is completed by [outgoing=False] (and a lone
    [outgoing=True] by [incoming=False]).  So for a pattern that is
    omitted, compiled, or a string that compiles, the construction
    raises exactly when the flags conflict. *)
Theorem init_flags (re_compile : str -> outcome Pattern) (pattern : pattern_arg)
    (outgoing incoming : option bool)
    (func : option (NewMessage.Event -> bool)) (private public : bool) :
  let r := NewMessage.__init__ re_compile pattern outgoing incoming func
             private public in
  (flags_conflict private public incoming outgoing -> r = Raise ValueError)
  /\ (~ flags_conflict private public incoming outgoing ->
      (exists t, r = Return t)
      \/ (pattern = pattern_other /\ r = Raise TypeError)
      \/ (exists p e, pattern = pattern_str p /\ re_compile p = Raise e
                      /\ r = Raise e))
  /\ (forall t, r = Return t ->
      ~ flags_conflict private public incoming outgoing
      /\ NewMessage.private t = private /\ NewMessage.public t = public
      /\ (incoming = Some true -> outgoing = None ->
          NewMessage.incoming t = Some true /\ NewMessage.outgoing t = Some false)
      /\ (outgoing = Some true -> incoming = None ->
          NewMessage.outgoing t = Some true /\ NewMessage.incoming t = Some false))
  /\ (pattern = pattern_none
      \/ (exists p, pattern = pattern_compiled p)
      \/ (exists p c, pattern = pattern_str p /\ re_compile p = Return c) ->
      ((exists e, r = Raise e)
       <-> flags_conflict private public incoming outgoing)).
Proof.
  intros r. subst r. unfold flags_conflict. split; [|split; [|split]].
  - intros [[-> ->]|[-> ->]]; [reflexivity|].
    unfold NewMessage.__init__. flag_cases; reflexivity.
  - intros Hok. unfold NewMessage.__init__.
    flag_cases; cbn;
      try (exfalso; apply Hok; auto; fail);
      (destruct pattern as [p|p| |]; cbn;
       [ destruct (re_compile p) as [c|e] eqn:E;
         [left; eauto | right; right; exists p, e; auto]
       | left; eauto | left; eauto | right; left; auto ]).
  - intros t. unfold NewMessage.__init__.
    flag_cases; cbn; try discriminate;
      (destruct pattern as [p|p| |]; cbn;
       [ destruct (re_compile p) | | | ]; try discriminate;
       intros [= <-]; cbn;
       repeat split; try reflexivity; try discriminate;
       intros [[? ?]|[? ?]]; discriminate).
  - intros Hpat. unfold NewMessage.__init__.
    assert (Hcompiled :
              exists c,
                match pattern with
                | pattern_str p =>
                  match re_compile p with
                  | Return c => Return (Some c)
                  | Raise e => Raise e
                  end
                | pattern_compiled c => Return (Some c)
                | pattern_none => Return None
                | pattern_other => Raise TypeError
                end = Return c).
    { destruct Hpat as [->|[[p ->]|(p & c & -> & ->)]]; eauto. }
    destruct Hcompiled as [c ->].
    flag_cases; cbn;
      (split;
       [ intros [e He]; try discriminate He; auto
       | intros [[? ?]|[? ?]]; try discriminate; eauto ]).
Qed.

Lemma init_flags_witness :
  NewMessage.__init__ (fun _ => Raise ReError) pattern_none None None None
    true true = Raise ValueError
  /\ NewMessage.__init__ (fun _ => Raise ReError) pattern_none
       (Some false) (Some false) None false false = Raise ValueError
  /\ exists t,
       NewMessage.__init__ (fun _ => Raise ReError) pattern_none
         None (Some true) None false false = Return t
       /\ NewMessage.incoming t = Some true
       /\ NewMessage.outgoing t = Some false.
Proof.
  split; [|split].
  - apply (init_flags (fun _ => Raise ReError) pattern_none None None None
             true true).
    left. split; reflexivity.
  - apply (init_flags (fun _ => Raise ReError) pattern_none
             (Some false) (Some false) None false false).
    right. split; reflexivity.
  - eexists. split; [reflexivity|].
    apply (init_flags (fun _ => Raise ReError) pattern_none
             None (Some true) None false false); reflexivity.
Defined.

(** C3 as written fails: the construction does not raise exactly when
    the flags conflict, since [NewMessage(pattern=123)] raises with no
    flag given. *)
Lemma init_bad_pattern_counterexample :
  ~ (forall (re_compile : str -> outcome Pattern) (pattern : pattern_arg)
            (outgoing incoming : option bool)
            (func : option (NewMessage.Event -> bool)) (private public : bool),
       (exists e, NewMessage.__init__ re_compile pattern outgoing incoming
                    func private public = Raise e)
       <-> flags_conflict private public incoming outgoing).
Proof.
  intros Hall.
  destruct (proj1 (Hall (fun _ => Raise ReError) pattern_other None None None
                     false false)) as [[H _]|[H _]].
  - exists TypeError. reflexivity.
  - discriminate H.
  - discriminate H.
Qed.

(** Without direction flags the filter never looks at [out]. *)
Lemma filter_no_direction (self : NewMessage.t) (now : Z)
    (ev : NewMessage.Event) (o : bool) (c : SpamGuard.TTLCache) :
  NewMessage.incoming self = None -> NewMessage.outgoing self = None ->
  (forall f, EventBuilder.func (NewMessage.base self) = Some f ->
             f (with_message (with_out o (NewMessage.message ev)) ev) = f ev) ->
  NewMessage.filter self now
    (with_message (with_out o (NewMessage.message ev)) ev) c
  = NewMessage.filter self now ev c.
Proof.
  intros Hi Ho Hf. unfold NewMessage.filter. rewrite Hi, Ho. cbn.
  destruct (NewMessage.private self && negb (NewMessage.is_private ev));
    [reflexivity|].
  destruct (NewMessage.public self
            && negb (NewMessage.is_group ev || NewMessage.is_channel ev));
    [reflexivity|].
  destruct (match NewMessage.pattern self with
            | Some p => negb (matches p (types.message (NewMessage.message ev)))
            | None => false
            end); [reflexivity|].
  destruct (SpamGuard.is_spam now (types.sender_id (NewMessage.message ev)) c)
    as [spam c'].
  destruct spam; [reflexivity|]. f_equal.
  unfold EventBuilder.filter.
  destruct (negb (EventBuilder.resolved (NewMessage.base self)));
    [reflexivity|].
  destruct (EventBuilder.func (NewMessage.base self)) as [f|] eqn:F;
    [apply Hf; reflexivity | reflexivity].
Qed.

(** C10. [NewMessage(incoming=True, outgoing=True)] does not raise on its
    direction flags: it builds what [NewMessage()] without direction flags
    builds, with [incoming] and [outgoing] both [None], and it succeeds
    whenever [private] and [public] are not both set and the pattern is
    absent or compiled; the filter of the builder then gives the same
    answer whatever the direction of the message, and both an outgoing
    and an incoming message pass it. *)
Theorem init_both_directions (re_compile : str -> outcome Pattern)
    (pattern : pattern_arg) (func : option (NewMessage.Event -> bool))
    (private public : bool) :
  NewMessage.__init__ re_compile pattern (Some true) (Some true) func
    private public
  = NewMessage.__init__ re_compile pattern None None func private public
  /\ (forall t,
        NewMessage.__init__ re_compile pattern (Some true) (Some true) func
          private public = Return t ->
        NewMessage.incoming t = None /\ NewMessage.outgoing t = None
        /\ forall now ev o c,
             (forall f, func = Some f ->
                f (with_message (with_out o (NewMessage.message ev)) ev) = f ev) ->
             NewMessage.filter (NewMessage.resolve t) now
               (with_message (with_out o (NewMessage.message ev)) ev) c
             = NewMessage.filter (NewMessage.resolve t) now ev c)
  /\ (private && public = false ->
      forall compiled,
        pattern = pattern_none \/ pattern = pattern_compiled compiled ->
        exists t,
          NewMessage.__init__ re_compile pattern (Some true) (Some true) func
            private public = Return t)
  /\ (exists t,
        NewMessage.__init__ (fun _ => Raise ReError) pattern_none
          (Some true) (Some true) None false false = Return t
        /\ fst (NewMessage.filter (NewMessage.resolve t) 0
                  (text_event true (s "hi") None None) SpamGuard._spam_cache)
           = true
        /\ fst (NewMessage.filter (NewMessage.resolve t) 0
                  (text_event false (s "hi") None None) SpamGuard._spam_cache)
           = true).
Proof.
  split; [reflexivity|]. split.
  - intros t Ht.
    assert (Hshape : NewMessage.incoming t = None /\ NewMessage.outgoing t = None
                     /\ EventBuilder.func (NewMessage.base t) = func).
    { revert Ht. unfold NewMessage.__init__.
      destruct (private && public); [discriminate|]. cbn.
      destruct pattern as [p|p| |]; cbn;
        [destruct (re_compile p) | | | ]; try discriminate;
        intros [= <-]; cbn; auto. }
    destruct Hshape as (Hi & Ho & Hf). split; [exact Hi|]. split; [exact Ho|].
    intros now ev o c Hfun.
    apply filter_no_direction; [exact Hi | exact Ho |].
    intros f. cbn. unfold EventBuilder.resolve.
    destruct (EventBuilder.resolved (NewMessage.base t)); cbn;
      rewrite Hf; apply Hfun.
  - split.
    + intros Hvis compiled [->| ->]; unfold NewMessage.__init__;
        rewrite Hvis; cbn; eauto.
    + eexists. split; [reflexivity|]. split; reflexivity.
Qed.

Lemma init_both_directions_witness :
  exists t,
    NewMessage.__init__ (fun _ => Raise ReError) pattern_none
      (Some true) (Some true) None false true = Return t
    /\ NewMessage.incoming t = None /\ NewMessage.outgoing t = None.
Proof.
  eexists. split; [reflexivity|].
  split;
    apply (init_both_directions (fun _ => Raise ReError) pattern_none None
             false true); reflexivity.
Defined.

End NewMessageFacts.

(** ** [Command] *)

Module CommandFacts.
Import Notions.

Lemma find_single_here {A} `{Elem A} (a : A) (rest : list A) :
  find [a] (a :: rest) = Some 0%nat.
Proof. cbn. now rewrite PyFacts.elem_eqb_refl. Qed.


Lemma find_single_first {A} `{Elem A} (a : A) (pre post : list A) :
  ~ In a pre -> find [a] (pre ++ a :: post) = Some (List.length pre).
Proof.
  induction pre as [|c pre IH]; intros Hn.
  - apply find_single_here.
  - cbn [app find startswith List.length].
    destruct (elem_eqb a c) eqn:E.
    + apply elem_eqb_eq in E. subst c. exfalso. apply Hn. now left.
    + cbn. rewrite IH; [reflexivity|]. intros Hin. apply Hn. now right.
Qed.

(** [x.replace(a, "", 1)] removes the leftmost [a] and nothing else. *)
Lemma replace1_single_first {A} `{Elem A} (a : A) (pre post : list A) :
  ~ In a pre -> replace1 [a] [] (pre ++ a :: post) = pre ++ post.
Proof.
  intros Hn. unfold replace1. rewrite find_single_first by exact Hn.
  cbn [app List.length].
  rewrite firstn_app, firstn_all, Nat.sub_diag. cbn [firstn].
  rewrite app_nil_r. f_equal.
  rewrite skipn_app, skipn_all2 by lia.
  replace (List.length pre + 1 - List.length pre)%nat with 1%nat by lia.
  reflexivity.
Qed.


Lemma init_stores (re_compile : str -> outcome Pattern) (c : str)
    (outgoing incoming : option bool)
    (func : option (NewMessage.Event -> bool)) (private public : bool)
    (t : Command.t) :
  Command.__init__ re_compile (Command.command_str c) outgoing incoming func
    private public = Return t ->
  Command.command t = [replace1 (s "/") (s "") c].
Proof.
  unfold Command.__init__.
  destruct (NewMessage.__init__ re_compile pattern_none outgoing incoming
              func private public); [|discriminate].
  now intros [= <-].
Qed.

(** What the constructor stores when the first slash is not in front. *)
Lemma init_inner_slash (re_compile : str -> outcome Pattern) (pre post : str)
    (outgoing incoming : option bool)
    (func : option (NewMessage.Event -> bool)) (private public : bool)
    (t : Command.t) :
  ~ In "/"%char pre ->
  Command.__init__ re_compile (Command.command_str (pre ++ "/"%char :: post))
    outgoing incoming func private public = Return t ->
  Command.command t = [pre ++ post].
Proof.
  intros Hn Ht. apply init_stores in Ht. rewrite Ht. f_equal.
  now apply (replace1_single_first "/"%char).
Qed.




Lemma contains_In {A} `{Elem A} (x : list A) (l : list (list A)) :
  contains x l = true <-> In x l.
Proof.
  induction l as [|y l IH]; simpl; [split; [discriminate | tauto]|].
  rewrite orb_true_iff, PyFacts.seq_eqb_eq, IH.
  split; (intros [E|E]; [left; congruence | now right]).
Qed.

(** What an accepted event looks like. *)
Lemma command_filter_accepts (self : Command.t) (now : Z) (ev : NewMessage.Event)
    (c : SpamGuard.TTLCache) :
  fst (Command.filter self now ev c) = true ->
  exists e0 rest name others,
    types.entities (NewMessage.message ev) = Some (e0 :: rest)
    /\ types.kind e0 = types.MessageEntityBotCommand
    /\ types.offset e0 = 0%Z
    /\ split (s "@")
         (slice (types.message (NewMessage.message ev)) 1 (types.length e0))
         None = name :: others
    /\ name = match find (s "@")
                      (slice (types.message (NewMessage.message ev)) 1
                             (types.length e0)) with
              | Some i =>
                firstn i (slice (types.message (NewMessage.message ev)) 1
                                (types.length e0))
              | None =>
                slice (types.message (NewMessage.message ev)) 1 (types.length e0)
              end
    /\ In name (Command.command self)
    /\ (forall user more, others = user :: more ->
          NewMessage.me_username ev = Some user).
Proof.
  unfold Command.filter.
  repeat match goal with
         | |- fst (if ?b then (false, c) else _) = true -> _ =>
           destruct b; [discriminate|]
         end.
  destruct (types.entities (NewMessage.message ev)) as [[|e0 rest]|] eqn:E;
    try discriminate.
  destruct (types.kind e0) eqn:K; cbn [orb]; try discriminate.
  destruct (types.offset e0 =? 0)%Z eqn:O; cbn [negb]; try discriminate.
  apply Z.eqb_eq in O. rewrite O. cbn [Z.add].
  destruct (split (s "@") _ None) as [|name others] eqn:S; [discriminate|].
  destruct (contains name (Command.command self)) eqn:C; cbn [negb];
    [|discriminate].
  intros Hacc. exists e0, rest, name, others.
  repeat split; try assumption; try reflexivity.
  - destruct (PyFacts.split_all_head (s "@")
                (slice (types.message (NewMessage.message ev)) 1
                       (types.length e0))) as [more Hs].
    rewrite S in Hs. now injection Hs.
  - now apply contains_In.
  - intros user more ->.
    destruct (NewMessage.me_username ev) as [me|]; [|discriminate].
    destruct (seq_eqb user me) eqn:U; [|discriminate].
    apply PyFacts.seq_eqb_eq in U. now subst.
Qed.

(** Without a username suffix the bot's username is never read. *)
Lemma filter_without_suffix (self : Command.t) (now : Z)
    (ev : NewMessage.Event) (u : option str) (c : SpamGuard.TTLCache)
    (e0 : types.MessageEntity) (rest : list types.MessageEntity) :
  types.entities (NewMessage.message ev) = Some (e0 :: rest) ->
  find (s "@")
    (slice (types.message (NewMessage.message ev)) (types.offset e0 + 1)
           (types.offset e0 + types.length e0)) = None ->
  (forall f, EventBuilder.func (NewMessage.base (Command.super self)) = Some f ->
             f (with_username u ev) = f ev) ->
  Command.filter self now (with_username u ev) c = Command.filter self now ev c.
Proof.
  intros E F Hf. unfold Command.filter. cbn [with_username NewMessage.message].
  rewrite E, (PyFacts.split_no_sep _ _ None F).
  repeat match goal with
         | |- (if ?b then _ else _) = (if ?b then _ else _) =>
           destruct b; [reflexivity|]
         end.
  destruct (SpamGuard.is_spam now (types.sender_id (NewMessage.message ev)) c)
    as [spam c'].
  destruct spam; [reflexivity|]. f_equal.
  unfold EventBuilder.filter.
  destruct (negb (EventBuilder.resolved (NewMessage.base (Command.super self))));
    [reflexivity|].
  destruct (EventBuilder.func (NewMessage.base (Command.super self))) as [f|];
    [now apply Hf | reflexivity].
Qed.

(** C5. [Command.filter] accepts an event only if the message has
    entities, the first of them is a bot-command entity and starts at
    offset 0, the text of that entity after its slash, cut at ["@"], begins
    with a name of the configured command set (the text before its first
    ["@"]), and a username following the name is the bot's own.  Hence ["/start@otherbot"] is rejected by
    every builder when the bot is not called [otherbot], while for
    ["/start"] the answer does not depend on the bot's username, and
    [Command("start")] accepts it whatever that username is. *)
Theorem filter_command (self : Command.t) (now : Z) (c : SpamGuard.TTLCache) :
  (forall ev,
     fst (Command.filter self now ev c) = true ->
     exists e0 rest name others,
       types.entities (NewMessage.message ev) = Some (e0 :: rest)
       /\ types.kind e0 = types.MessageEntityBotCommand
       /\ types.offset e0 = 0%Z
       /\ split (s "@")
            (slice (types.message (NewMessage.message ev)) 1 (types.length e0))
            None = name :: others
       /\ name = match find (s "@")
                         (slice (types.message (NewMessage.message ev)) 1
                                (types.length e0)) with
                 | Some i =>
                   firstn i (slice (types.message (NewMessage.message ev)) 1
                                   (types.length e0))
                 | None =>
                   slice (types.message (NewMessage.message ev)) 1
                         (types.length e0)
                 end
       /\ In name (Command.command self)
       /\ (forall user more, others = user :: more ->
             NewMessage.me_username ev = Some user))
  /\ (forall ev rest,
        types.message (NewMessage.message ev) = s "/start@otherbot" ->
        types.entities (NewMessage.message ev)
        = Some (bot_command 0 15 :: rest) ->
        NewMessage.me_username ev <> Some (s "otherbot") ->
        fst (Command.filter self now ev c) = false)
  /\ (forall ev rest u,
        types.message (NewMessage.message ev) = s "/start" ->
        types.entities (NewMessage.message ev)
        = Some (bot_command 0 6 :: rest) ->
        (forall f,
           EventBuilder.func (NewMessage.base (Command.super self)) = Some f ->
           f (with_username u ev) = f ev) ->
        Command.filter self now (with_username u ev) c
        = Command.filter self now ev c)
  /\ (forall u t,
        Command.__init__ (fun _ => Raise ReError) (Command.command_str (s "start"))
          None None None false false = Return t ->
        fst (Command.filter (Command.resolve t) now
               (text_event false (s "/start") (Some [bot_command 0 6]) u)
               SpamGuard._spam_cache) = true).
Proof.
  split; [|split; [|split]].
  - intros ev. apply command_filter_accepts.
  - intros ev rest Hm He Hu.
    destruct (fst (Command.filter self now ev c)) eqn:Hacc; [|reflexivity].
    apply command_filter_accepts in Hacc.
    destruct Hacc as (e0 & rest' & name & others & E & _ & _ & S & _ & _ & U).
    rewrite He in E. injection E as <- <-.
    rewrite Hm in S. cbv in S. injection S as <- <-.
    exfalso. apply Hu. now apply (U (s "otherbot") []).
  - intros ev rest u Hm He Hf.
    apply (filter_without_suffix self now ev u c _ rest He); [|exact Hf].
    rewrite Hm. reflexivity.
  - intros u t [= <-]. reflexivity.
Qed.

Lemma filter_command_witness :
  fst (Command.filter
         {| Command.command := [s "start"];
            Command.super :=
              {| NewMessage.base := {| EventBuilder.resolved := true;
                                       EventBuilder.func := None |};
                 NewMessage.pattern := None;
                 NewMessage.incoming := None; NewMessage.outgoing := None;
                 NewMessage.private := false; NewMessage.public := false |} |}
         0
         (text_event false (s "/start@otherbot") (Some [bot_command 0 15])
            (Some (s "mybot")))
         SpamGuard._spam_cache) = false.
Proof.
  refine (proj1 (proj2 (filter_command _ 0 SpamGuard._spam_cache))
            (text_event false (s "/start@otherbot") (Some [bot_command 0 15])
               (Some (s "mybot")))
            [] eq_refl eq_refl _).
  discriminate.
Defined.

End CommandFacts.

(** ** [CallbackQuery] *)

Module CallbackQueryFacts.
Import Notions.

(** The payload test of [filter] on a builder with non-empty [data]. *)
Lemma callback_filter_accepts (self : CallbackQuery.t) (now : Z)
    (ev : CallbackQuery.Event) (c : SpamGuard.TTLCache) (d : bytes) :
  CallbackQuery.data self = Some d -> d <> [] ->
  fst (CallbackQuery.filter self now ev c) = Return true ->
  exists p,
    types.data (CallbackQuery.query ev) = Some p
    /\ (truthy_seq (CallbackQuery.split_char self) = false -> p = d)
    /\ (forall sep, CallbackQuery.split_char self = Some sep -> sep <> [] ->
          match find sep p with Some i => firstn i p | None => p end = d
          /\ forall n, CallbackQuery.split_char_count self = Some n ->
                       n <> 0%Z -> Z.of_nat (count sep p) = n).
Proof.
  intros Hd Hne. unfold CallbackQuery.filter. rewrite Hd.
  destruct d as [|d0 d']; [congruence|]. set (D := d0 :: d') in *.
  destruct (types.data (CallbackQuery.query ev)) as [p|] eqn:P.
  - (* a payload is present *)
    destruct (CallbackQuery.split_char self) as [[|s0 sep']|] eqn:S;
      cbn [truthy_seq negb andb CallbackQuery.data_differs].
    + (* empty separator: the split raises *)
      destruct (seq_eqb D p); cbn [negb]; [|discriminate].
      destruct (CallbackQuery.split_char_count self) as [n|];
        [destruct (n =? 0)%Z|]; cbn [CallbackQuery.data_count];
        try destruct (negb _); cbn; discriminate.
    + (* a separator *)
      destruct (CallbackQuery.split_char_count self) as [n|] eqn:N.
      * destruct (n =? 0)%Z eqn:Z0; cbn [CallbackQuery.data_count];
          [| destruct (Z.of_nat (count (s0 :: sep') p) =? n)%Z eqn:Cn;
             cbn [negb]; [|discriminate] ];
          cbn [CallbackQuery.data_split];
          destruct (PyFacts.split_head (s0 :: sep') p 1) as [rest Hs];
          rewrite Hs; cbn [item0];
          (destruct (seq_eqb D _) eqn:Hd0; [|discriminate]);
          apply PyFacts.seq_eqb_eq in Hd0; intros _;
          exists p; (split; [reflexivity|]); (split; [discriminate|]);
          intros sep [= <-] _; (split; [now symmetry|]);
          intros m [= <-] Hm.
        -- apply Z.eqb_eq in Z0. contradiction.
        -- now apply Z.eqb_eq in Cn.
      * cbn [CallbackQuery.data_split].
        destruct (PyFacts.split_head (s0 :: sep') p 1) as [rest Hs].
        rewrite Hs. cbn [item0].
        destruct (seq_eqb D _) eqn:Hd0; [|discriminate].
        apply PyFacts.seq_eqb_eq in Hd0. intros _.
        exists p. split; [reflexivity|]. split; [discriminate|].
        intros sep [= <-] _. split; [now symmetry|]. discriminate.
    + (* no separator *)
      destruct (seq_eqb D p) eqn:Hd0; cbn [negb]; [|discriminate].
      apply PyFacts.seq_eqb_eq in Hd0. intros _.
      exists p. split; [reflexivity|]. split; [now symmetry|]. discriminate.
  - (* no payload: rejected, or an AttributeError *)
    cbn [CallbackQuery.data_differs]. rewrite andb_true_r.
    destruct (negb (truthy_seq (CallbackQuery.split_char self)));
      [discriminate|].
    destruct (CallbackQuery.split_char_count self) as [n|];
      [destruct (n =? 0)%Z|]; cbn; discriminate.
Qed.

(** C2, amended.  On a builder with non-empty data [d], [filter] accepts
    an event only when a payload is present and: without a split, the
    payload is [d]; with a separator, the part of the payload before the
    leftmost separator is [d] (the whole payload when it has none); and
    with a count [n] other than 0 in addition, the payload has exactly [n]
    occurrences of the separator. *)
Theorem filter_data (self : CallbackQuery.t) (now : Z)
    (ev : CallbackQuery.Event) (c : SpamGuard.TTLCache) (d : bytes) :
  CallbackQuery.data self = Some d -> d <> [] ->
  fst (CallbackQuery.filter self now ev c) = Return true ->
  exists p,
    types.data (CallbackQuery.query ev) = Some p
    /\ (CallbackQuery.split_char self = None -> p = d)
    /\ (forall sep, CallbackQuery.split_char self = Some sep -> sep <> [] ->
          ((p = d /\ find sep p = None)
           \/ (exists rest, p = d ++ sep ++ rest
                            /\ find sep p = Some (List.length d)))
          /\ forall n, CallbackQuery.split_char_count self = Some n ->
                       n <> 0%Z -> Z.of_nat (count sep p) = n).
Proof.
  intros Hd Hne Hacc.
  destruct (callback_filter_accepts self now ev c d Hd Hne Hacc) as (p & P & H0 & H1).
  exists p. split; [exact P|]. split.
  - intros S. apply H0. now rewrite S.
  - intros sep S Hsep. destruct (H1 sep S Hsep) as [Hhead Hcount].
    split; [|exact Hcount].
    destruct (find sep p) as [i|] eqn:F; [right | left; auto].
    pose proof (PyFacts.find_split _ _ _ F) as Hp.
    pose proof (PyFacts.find_bound _ _ _ F) as Hi.
    assert (Hlen : List.length d = i).
    { rewrite <- Hhead, length_firstn. lia. }
    rewrite Hhead in Hp. rewrite Hlen. eauto.
Qed.

Lemma filter_data_witness :
  exists p,
    types.data (CallbackQuery.query (callback_event (b "manage_1_2"))) = Some p
    /\ Z.of_nat (count (b "_") p) = 2%Z.
Proof.
  destruct (filter_data
              (CallbackQuery.resolve
                 (CallbackQuery.__init__
                    (Some (CallbackQuery.text_str (s "manage")))
                    (CallbackQuery.split_pair (CallbackQuery.text_str (s "_")) 2)
                    None))
              0 (callback_event (b "manage_1_2")) SpamGuard._spam_cache
              (b "manage") eq_refl ltac:(discriminate) eq_refl)
    as (p & P & _ & H).
  exists p. split; [exact P|].
  apply (H (b "_") eq_refl ltac:(discriminate)); [reflexivity | discriminate].
Defined.

(** C2 as written fails for the count 0: [split=("_", 0)] accepts a
    payload with two separators. *)
Lemma filter_count_zero_counterexample :
  ~ (forall (self : CallbackQuery.t) (now : Z) (ev : CallbackQuery.Event)
            (c : SpamGuard.TTLCache) (d sep p : bytes) (n : Z),
       CallbackQuery.data self = Some d -> d <> [] ->
       CallbackQuery.split_char self = Some sep -> sep <> [] ->
       CallbackQuery.split_char_count self = Some n ->
       types.data (CallbackQuery.query ev) = Some p ->
       fst (CallbackQuery.filter self now ev c) = Return true ->
       Z.of_nat (count sep p) = n).
Proof.
  intros Hall.
  specialize (Hall
    (CallbackQuery.resolve
       (CallbackQuery.__init__
          (Some (CallbackQuery.text_str (s "manage")))
          (CallbackQuery.split_pair (CallbackQuery.text_str (s "_")) 0)
          None))
    0%Z (callback_event (b "manage_1_2")) SpamGuard._spam_cache
    (b "manage") (b "_") (b "manage_1_2") 0%Z
    eq_refl ltac:(discriminate) eq_refl ltac:(discriminate) eq_refl eq_refl
    eq_refl).
  discriminate Hall.
Qed.

(** The examples of the documentation. *)
Lemma filter_examples :
  let accepts data split payload :=
    fst (CallbackQuery.filter
           (CallbackQuery.resolve (CallbackQuery.__init__ data split None))
           0 (callback_event payload) SpamGuard._spam_cache) in
  let manage := Some (CallbackQuery.text_str (s "manage")) in
  let sep x := CallbackQuery.text_str (s x) in
  accepts manage (CallbackQuery.split_sep (sep "/"%string)) (b "manage/one") = Return true
  /\ accepts manage (CallbackQuery.split_sep (sep "/"%string)) (b "management") = Return false
  /\ accepts manage (CallbackQuery.split_pair (sep "_"%string) 2) (b "manage_1_2") = Return true
  /\ accepts manage (CallbackQuery.split_pair (sep "_"%string) 2) (b "manage_1") = Return false
  /\ accepts manage CallbackQuery.split_none (b "manage") = Return true
  /\ accepts manage CallbackQuery.split_none (b "manage/one") = Return false.
Proof. repeat split. Qed.

End CallbackQueryFacts.

(** ** Event actions *)

Module EventFacts.
Import Notions.

Section Client.
Variable response : Type.
Variable reply : client.call -> outcome response.

(** The first [answer] of a callback event hands one request to the
    client and marks the event as answered. *)
Lemma callback_answer_first (ev : CallbackQuery.Event) (message : option str)
    (cache_time : Z) (url : option str) (alert : bool) (log : list client.call) :
  let r := client.invoke
             (client.SetBotCallbackAnswerRequest
                (types.query_id (CallbackQuery.query ev)) cache_time alert
                message url) in
  snd (CallbackQuery.answer reply ev message cache_time url alert
         {| client._answered := false; client.calls := log |})
  = {| client._answered := true; client.calls := log ++ [r] |}.
Proof.
  cbn. unfold client.bind, client.perform. cbn.
  destruct (reply _); reflexivity.
Qed.

(** Once a callback event is answered, [answer] returns at once. *)
Lemma callback_answer_again (ev : CallbackQuery.Event) (message : option str)
    (cache_time : Z) (url : option str) (alert : bool) (st : client.state) :
  client._answered st = true ->
  CallbackQuery.answer reply ev message cache_time url alert st
  = (Return None, st).
Proof.
  intros Ha. unfold CallbackQuery.answer, client.bind, client.get_answered.
  now rewrite Ha.
Qed.

(** However often a callback event is answered, the client sees at most
    one more request. *)
Lemma callback_answer_at_most_once (ev : CallbackQuery.Event)
    (args : list (option str * Z * option str * bool)) (st : client.state) :
  let run st a :=
    snd (CallbackQuery.answer reply ev (fst (fst (fst a))) (snd (fst (fst a)))
           (snd (fst a)) (snd a) st) in
  (List.length (client.calls (fold_left run args st))
   <= S (List.length (client.calls st)))%nat.
Proof.
  intros run.
  assert (Hdone : forall l st', client._answered st' = true ->
                                fold_left run l st' = st').
  { induction l as [|a l IH]; intros st' Ha; [reflexivity|].
    cbn [fold_left]. unfold run at 2.
    rewrite callback_answer_again by exact Ha. cbn [snd]. now apply IH. }
  destruct args as [|a args]; [cbn; lia|].
  cbn [fold_left].
  destruct (client._answered st) eqn:Ha.
  - unfold run at 2. rewrite callback_answer_again by exact Ha. cbn [snd].
    rewrite Hdone by exact Ha. lia.
  - destruct st as [ans log]. cbn in Ha. subst ans.
    unfold run at 2. rewrite callback_answer_first.
    rewrite Hdone by reflexivity. cbn. rewrite length_app. cbn. lia.
Qed.

(** C1 at the failing input.  Two calls of [answer] on a fresh inline
    query event hand the request to the client twice: the method reads
    [_answered] and never sets it. *)
Theorem inline_answer_twice (ev : InlineQuery.Event) (log : list client.call) :
  let r := client.invoke
             (client.SetInlineBotResultsRequest
                (types.iq_query_id (InlineQuery.query ev)) [] 0 false None
                false None) in
  let answer := InlineQuery.answer reply ev None 0 false None false None [] in
  snd (answer (snd (answer {| client._answered := false; client.calls := log |})))
  = {| client._answered := false; client.calls := log ++ [r; r] |}.
Proof.
  cbn. unfold client.bind, client.perform, client.ret. cbn.
  destruct (reply _); cbn; rewrite <- app_assoc; reflexivity.
Qed.

(** C6. [delete] on a callback event that came through inline mode, whose
    message identifier is an inline-message identifier, schedules the
    answer and raises [TypeError] without asking the client to delete
    anything; on every other callback event it asks the client to delete
    the message of the query and gives back what the client answers. *)
Theorem delete_inline (ev : CallbackQuery.Event) (st : client.state) :
  (CallbackQuery.via_inline ev = true ->
   (exists i, types.msg_id (CallbackQuery.query ev) = types.InlineId i)
   /\ CallbackQuery.delete reply ev st
      = (Raise TypeError,
         {| client._answered := client._answered st;
            client.calls := client.calls st ++ [client.create_task_answer] |}))
  /\ (CallbackQuery.via_inline ev = false ->
      exists m,
        types.msg_id (CallbackQuery.query ev) = types.IntId m
        /\ CallbackQuery.delete reply ev st
           = (reply (client.delete_messages (CallbackQuery.input_chat ev) [m]),
              {| client._answered := client._answered st;
                 client.calls :=
                   client.calls st
                   ++ [client.create_task_answer;
                       client.delete_messages (CallbackQuery.input_chat ev) [m]]
              |})).
Proof.
  unfold CallbackQuery.via_inline, CallbackQuery.delete, client.bind,
    client.perform, client.raise.
  destruct (CallbackQuery.query ev) as [q u peer m ci d | q u i ci d]; cbn;
    (split; [intros Hv | intros Hv]); try discriminate.
  - exists m. split; [reflexivity|]. now rewrite <- app_assoc.
  - split; [eauto | reflexivity].
Qed.

End Client.

Lemma delete_inline_witness :
  CallbackQuery.delete (fun _ => Return true) (inline_callback_event (b "x"))
    {| client._answered := false; client.calls := [] |}
  = (Raise TypeError,
     {| client._answered := false;
        client.calls := [client.create_task_answer] |})
  /\ CallbackQuery.delete (fun _ => Return true) (callback_event (b "x"))
       {| client._answered := false; client.calls := [] |}
     = (Return true,
        {| client._answered := false;
           client.calls :=
             [client.create_task_answer;
              client.delete_messages (Some (types.InputPeerUser 7 0)) [1%Z]] |}).
Proof.
  split.
  - apply (delete_inline bool (fun _ => Return true)
             (inline_callback_event (b "x"))
             {| client._answered := false; client.calls := [] |}).
    reflexivity.
  - destruct (proj2 (delete_inline bool (fun _ => Return true)
                       (callback_event (b "x"))
                       {| client._answered := false; client.calls := [] |})
                eq_refl) as (m & Hm & Hd).
    injection Hm as <-. exact Hd.
Defined.

End EventFacts.

(** ** The file-id packer *)

Module FileIdFacts.
Import Notions.
Local Open Scope Z_scope.

(** The loop stops at the first attribute that decides the type. *)
Lemma scan_attributes_first (file_type : Z) (attrs : list types.DocumentAttribute) :
  utils.scan_attributes file_type attrs
  = match List.find media_attribute attrs with
    | Some a => type_code (Some a)
    | None => file_type
    end.
Proof.
  induction attrs as [|a attrs IH]; [reflexivity|].
  destruct a; cbn; try exact IH; reflexivity.
Qed.

Lemma type_code_values (a : option types.DocumentAttribute) :
  In (type_code a) [3; 4; 5; 8; 9; 10; 13].
Proof.
  destruct a as [[| | |[]|[]| | |]|]; cbn; tauto.
Qed.

Lemma type_code_in_range (a : option types.DocumentAttribute) :
  struct.in_range struct.fmt_i (type_code a) = true.
Proof.
  destruct a as [[| | |[]|[]| | |]|]; reflexivity.
Qed.

(** Reading a packed integer back as a signed little-endian number gives
    the integer. *)
Lemma pack_int_roundtrip (c : struct.code) (v : Z) :
  struct.in_range c v = true ->
  signed (8 * Z.of_nat (struct.size c)) (le_combine (le_split (struct.size c) v))
  = v.
Proof.
  unfold struct.in_range, signed. rewrite andb_true_iff, Z.leb_le, Z.ltb_lt.
  rewrite le_combine_split.
  replace (Z.of_nat (struct.size c) * 8) with (8 * Z.of_nat (struct.size c)) by lia.
  set (w := 8 * Z.of_nat (struct.size c)).
  assert (Hw : 0 < w) by (subst w; destruct c; cbn; lia).
  assert (Hpow : 2 ^ w = 2 * 2 ^ (w - 1)).
  { replace w with (Z.succ (w - 1)) at 1 by lia. apply Z.pow_succ_r. lia. }
  assert (Hpos : 0 < 2 ^ (w - 1)) by (apply Z.pow_pos_nonneg; lia).
  intros [Hlo Hhi].
  destruct (Z.ltb_spec v 0).
  - replace (v mod 2 ^ w) with (v + 2 ^ w).
    + destruct (Z.ltb_spec (v + 2 ^ w) (2 ^ (w - 1))); lia.
    + apply Z.mod_unique with (q := -1); lia.
  - rewrite Z.mod_small by lia.
    destruct (Z.ltb_spec v (2 ^ (w - 1))); lia.
Qed.

(** A record of at most 255 octets is always encoded. *)
Lemma rle_encode_total (string new : bytes) (count : Z) :
  0 <= count -> count + Z.of_nat (List.length string) <= 255 ->
  exists out, utils._rle_encode_from new count string = Return out.
Proof.
  revert new count. induction string as [|cur rest IH]; intros new count H0 Hle.
  - cbn. eauto.
  - cbn [utils._rle_encode_from]. cbn [List.length] in Hle.
    destruct (byte.unsigned cur =? 0).
    + apply IH; lia.
    + destruct (count =? 0); [apply IH; lia|].
      destruct (Z.ltb_spec 255 count); [lia|]. apply IH; lia.
Qed.

Lemma zero_byte (x : byte) : byte.unsigned x = 0 -> x = Init.Byte.x00.
Proof. intros Hx. apply byte.unsigned_inj. now rewrite Hx. Qed.

Lemma repeat_snoc {A} (a : A) (n : nat) (l : list A) :
  repeat a (S n) ++ l = repeat a n ++ a :: l.
Proof.
  induction n as [|n IH]; [reflexivity|].
  change (repeat a (S (S n))) with (a :: repeat a (S n)).
  cbn [app]. rewrite IH. reflexivity.
Qed.

(** Decoding gives back the pending zeros and the rest of the input, as
    long as the input does not end in a zero. *)
Lemma rle_decode_encode (string new out : bytes) (count : Z) :
  0 <= count ->
  (string = [] -> count = 0) ->
  byte.unsigned (last string Init.Byte.x01) <> 0 ->
  utils._rle_encode_from new count string = Return out ->
  exists tail,
    out = new ++ tail
    /\ rle_decode tail = repeat Init.Byte.x00 (Z.to_nat count) ++ string.
Proof.
  revert new out count.
  induction string as [|cur rest IH]; intros new out count H0 Hempty Hlast.
  - cbn. intros [= <-]. rewrite (Hempty eq_refl). exists [].
    now rewrite app_nil_r.
  - cbn [utils._rle_encode_from].
    assert (Hrest : rest <> [] -> byte.unsigned (last rest Init.Byte.x01) <> 0).
    { intros Hr. destruct rest; [congruence | exact Hlast]. }
    destruct (byte.unsigned cur =? 0) eqn:Hz.
    + apply Z.eqb_eq in Hz.
      assert (Hr : rest <> []).
      { intros ->. cbn in Hlast. contradiction. }
      intros Henc.
      destruct (IH new out (count + 1) ltac:(lia) ltac:(intros; congruence)
                  (Hrest Hr) Henc) as (tail & -> & Hdec).
      exists tail. split; [reflexivity|]. rewrite Hdec.
      replace (Z.to_nat (count + 1)) with (S (Z.to_nat count)) by lia.
      rewrite repeat_snoc. now rewrite (zero_byte cur Hz).
    + assert (Hcont : forall new' out',
                utils._rle_encode_from new' 0 rest = Return out' ->
                exists tail, out' = new' ++ tail /\ rle_decode tail = rest).
      { intros new' out' Henc. destruct rest as [|r rest'].
        - cbn in Henc. injection Henc as <-. exists [].
          now rewrite app_nil_r.
        - apply (IH new' out' 0 ltac:(lia) ltac:(reflexivity)
                   (Hrest ltac:(discriminate)) Henc). }
      destruct (count =? 0) eqn:Hc.
      * apply Z.eqb_eq in Hc. subst count. intros Henc.
        destruct (Hcont _ _ Henc) as (tail & -> & Hdec).
        exists (cur :: tail). split; [now rewrite <- app_assoc|].
        cbn [rle_decode Z.to_nat repeat app]. now rewrite Hz, Hdec.
      * destruct (Z.ltb_spec 255 count); [discriminate|]. intros Henc.
        destruct (Hcont _ _ Henc) as (tail & -> & Hdec).
        exists (Init.Byte.x00 :: byte.of_Z count :: cur :: tail).
        split; [now rewrite <- app_assoc|].
        cbn [rle_decode]. change (byte.unsigned Init.Byte.x00 =? 0) with true.
        cbn match. rewrite byte.unsigned_of_Z. unfold byte.wrap.
        rewrite Z.mod_small by lia. now rewrite Hz, Hdec.
Qed.

Lemma last_record (l : bytes) :
  byte.unsigned (last (l ++ [Init.Byte.x02]) Init.Byte.x01) <> 0.
Proof. rewrite last_last. discriminate. Qed.

(** What [pack_bot_file_id] does with a record that ends in the version
    octet and has at most 255 octets. *)
Lemma encode_record (l : bytes) :
  Z.of_nat (List.length (l ++ [Init.Byte.x02])) <= 255 ->
  exists packed,
    utils._rle_encode (l ++ [Init.Byte.x02]) = Return packed
    /\ rle_decode packed = l ++ [Init.Byte.x02].
Proof.
  intros Hlen. unfold utils._rle_encode.
  destruct (rle_encode_total (l ++ [Init.Byte.x02]) [] 0 ltac:(lia) ltac:(lia))
    as [packed Hp].
  exists packed. split; [exact Hp|].
  assert (Hne : l ++ [Init.Byte.x02] = [] -> 0 = 0) by reflexivity.
  destruct (rle_decode_encode (l ++ [Init.Byte.x02]) [] packed 0 ltac:(lia)
              Hne (last_record l) Hp) as (tail & -> & Hdec).
  exact Hdec.
Qed.

Lemma pack_document_record (d : types.Document) :
  document_fits d ->
  struct.pack [struct.fmt_i; struct.fmt_i; struct.fmt_q; struct.fmt_q; struct.fmt_b]
    [utils.scan_attributes 5 (types.attributes d); types.document_dc_id d;
     types.document_id d; types.document_access_hash d; 2]
  = Return (document_record d).
Proof.
  intros (Hdc & Hid & Hah). cbn [struct.pack].
  rewrite scan_attributes_first.
  replace (match List.find media_attribute (types.attributes d) with
           | Some a => type_code (Some a)
           | None => 5
           end)
    with (type_code (List.find media_attribute (types.attributes d)))
    by (destruct (List.find media_attribute (types.attributes d)); reflexivity).
  rewrite type_code_in_range, Hdc, Hid, Hah.
  change (struct.in_range struct.fmt_b 2) with true. cbv iota.
  reflexivity.
Qed.

Lemma pack_photo_record (p : types.Photo) :
  photo_fits p ->
  struct.pack [struct.fmt_i; struct.fmt_i; struct.fmt_q; struct.fmt_q;
               struct.fmt_q; struct.fmt_q; struct.fmt_i; struct.fmt_b]
    [2; types.photo_dc_id p; types.photo_id p; types.photo_access_hash p;
     0; 0; 0; 2]
  = Return (photo_record p).
Proof.
  intros (Hdc & Hid & Hah). cbn [struct.pack].
  change (struct.in_range struct.fmt_i 2) with true.
  change (struct.in_range struct.fmt_q 0) with true.
  change (struct.in_range struct.fmt_i 0) with true.
  change (struct.in_range struct.fmt_b 2) with true.
  rewrite Hdc, Hid, Hah. cbv iota. reflexivity.
Qed.

Lemma document_record_length (d : types.Document) :
  List.length (document_record d) = 25%nat.
Proof.
  unfold document_record. rewrite !length_app, !length_le_split. reflexivity.
Qed.

Lemma photo_record_length (p : types.Photo) :
  List.length (photo_record p) = 45%nat.
Proof.
  unfold photo_record. rewrite !length_app, !length_le_split. reflexivity.
Qed.

(** Base64 text is decoded to the octets it was made from. *)
Lemma b64_value_digit (n : Z) :
  0 <= n < 64 -> b64_value (utils.b64_digit n) = Some n.
Proof.
  intros Hn.
  assert (H : forall k, (k < 64)%nat ->
            b64_value (utils.b64_digit (Z.of_nat k)) = Some (Z.of_nat k)).
  { intros k Hk. do 64 (destruct k as [|k]; [reflexivity|]). lia. }
  rewrite <- (Z2Nat.id n) by lia. apply H. lia.
Qed.

Lemma b64_digit_not_pad (n : Z) : 0 <= n < 64 -> utils.b64_digit n <> "="%char.
Proof.
  intros Hn E. pose proof (b64_value_digit n Hn) as H. rewrite E in H.
  discriminate H.
Qed.

Lemma lstrip_app (c : ascii) (x y : str) :
  utils.lstrip c (x ++ y)
  = match utils.lstrip c x with
    | [] => utils.lstrip c y
    | a :: r => (a :: r) ++ y
    end.
Proof.
  induction x as [|a x IH]; [reflexivity|].
  cbn. destruct (Ascii.eqb a c); [exact IH | reflexivity].
Qed.

Lemma rstrip_app (c : ascii) (x y : str) :
  (forall a, In a x -> a <> c) ->
  utils.rstrip c (x ++ y) = x ++ utils.rstrip c y.
Proof.
  intros Hx. unfold utils.rstrip. rewrite rev_app_distr, lstrip_app.
  destruct (utils.lstrip c (rev y)) as [|a r] eqn:Ey.
  - cbn [rev]. rewrite app_nil_r.
    assert (E : utils.lstrip c (rev x) = rev x).
    { destruct (rev x) as [|a r] eqn:Ex; [reflexivity|].
      cbn. destruct (Ascii.eqb_spec a c) as [->|]; [|reflexivity].
      exfalso. apply (Hx c); [|reflexivity].
      apply in_rev. rewrite Ex. now left. }
    rewrite E. apply rev_involutive.
  - rewrite rev_app_distr, rev_involutive. reflexivity.
Qed.

Lemma group_bytes (x y z : byte) :
  let n := byte.unsigned x * 65536 + byte.unsigned y * 256 + byte.unsigned z in
  0 <= n / 262144 < 64 /\ 0 <= n / 4096 mod 64 < 64
  /\ 0 <= n / 64 mod 64 < 64 /\ 0 <= n mod 64 < 64
  /\ n / 262144 * 4 + n / 4096 mod 64 / 16 = byte.unsigned x
  /\ n / 4096 mod 64 mod 16 * 16 + n / 64 mod 64 / 4 = byte.unsigned y
  /\ n / 64 mod 64 mod 4 * 64 + n mod 64 = byte.unsigned z.
Proof.
  pose proof (byte.unsigned_range x). pose proof (byte.unsigned_range y).
  pose proof (byte.unsigned_range z).
  change (2 ^ 8) with 256 in *.
  intros n. subst n.
  repeat split; Z.div_mod_to_equations; lia.
Qed.

Lemma group_bytes2 (x y : byte) :
  let n := byte.unsigned x * 256 + byte.unsigned y in
  0 <= n / 1024 < 64 /\ 0 <= n / 16 mod 64 < 64 /\ 0 <= n mod 16 * 4 < 64
  /\ n / 1024 * 4 + n / 16 mod 64 / 16 = byte.unsigned x
  /\ n / 16 mod 64 mod 16 * 16 + n mod 16 * 4 / 4 = byte.unsigned y.
Proof.
  pose proof (byte.unsigned_range x). pose proof (byte.unsigned_range y).
  change (2 ^ 8) with 256 in *.
  intros n. subst n.
  repeat split; Z.div_mod_to_equations; lia.
Qed.

Lemma group_bytes1 (x : byte) :
  let n := byte.unsigned x in
  0 <= n / 4 < 64 /\ 0 <= n mod 4 * 16 < 64
  /\ n / 4 * 4 + n mod 4 * 16 / 16 = byte.unsigned x.
Proof.
  pose proof (byte.unsigned_range x).
  change (2 ^ 8) with 256 in *.
  intros n. subst n.
  repeat split; Z.div_mod_to_equations; lia.
Qed.

Lemma list_ind3 {A} (P : list A -> Prop) :
  P [] -> (forall x, P [x]) -> (forall x y, P [x; y]) ->
  (forall x y z r, P r -> P (x :: y :: z :: r)) ->
  forall l, P l.
Proof.
  intros H0 H1 H2 H3. fix IH 1.
  intros [|x [|y [|z r]]]; [exact H0 | apply H1 | apply H2 | apply H3, IH].
Qed.

Lemma b64decode_encode (string : bytes) :
  b64decode (utils.rstrip "="%char (utils.urlsafe_b64encode string)) = Some string.
Proof.
  induction string as [|x|x y|x y z r IH] using list_ind3.
  - reflexivity.
  - destruct (group_bytes1 x) as (R1 & R2 & E1).
    cbn [utils.urlsafe_b64encode].
    change [utils.b64_digit (byte.unsigned x / 4);
            utils.b64_digit (byte.unsigned x mod 4 * 16); "="%char; "="%char]
      with ([utils.b64_digit (byte.unsigned x / 4);
             utils.b64_digit (byte.unsigned x mod 4 * 16)] ++ ["="%char; "="%char]).
    rewrite rstrip_app.
    + cbn [app utils.rstrip rev utils.lstrip]. cbn [b64decode].
      rewrite !b64_value_digit by assumption.
      now rewrite E1, byte.of_Z_unsigned.
    + intros a [<-|[<-|[]]]; now apply b64_digit_not_pad.
  - destruct (group_bytes2 x y) as (R1 & R2 & R3 & E1 & E2).
    cbn [utils.urlsafe_b64encode].
    match goal with
    | |- context [utils.rstrip _ [?a; ?b; ?c; ?p]] =>
      change [a; b; c; p] with ([a; b; c] ++ [p])
    end.
    rewrite rstrip_app.
    + cbn [app utils.rstrip rev utils.lstrip]. cbn [b64decode].
      rewrite !b64_value_digit by assumption.
      now rewrite E1, E2, !byte.of_Z_unsigned.
    + intros a [<-|[<-|[<-|[]]]]; now apply b64_digit_not_pad.
  - destruct (group_bytes x y z) as (R1 & R2 & R3 & R4 & E1 & E2 & E3).
    cbn [utils.urlsafe_b64encode].
    rewrite rstrip_app.
    + cbn [app b64decode].
      rewrite !b64_value_digit by assumption.
      now rewrite IH, E1, E2, E3, !byte.of_Z_unsigned.
    + intros a [<-|[<-|[<-|[<-|[]]]]]; now apply b64_digit_not_pad.
Qed.

Lemma pack_document_encoded (d : types.Document) :
  document_fits d ->
  exists packed,
    utils._rle_encode (document_record d) = Return packed
    /\ rle_decode packed = document_record d
    /\ utils.pack_bot_file_id (types.Document_ d)
       = Return (Some (utils.rstrip "="%char (utils.urlsafe_b64encode packed))).
Proof.
  intros Hfits.
  pose proof (document_record_length d) as Hlen.
  assert (Hrec : exists l, document_record d = l ++ [Init.Byte.x02]).
  { unfold document_record. eexists. rewrite !app_assoc. reflexivity. }
  destruct Hrec as [l Hl].
  destruct (encode_record l) as (packed & Henc & Hdec).
  { rewrite <- Hl, Hlen. lia. }
  rewrite <- Hl in Henc, Hdec.
  exists packed. split; [exact Henc|]. split; [exact Hdec|].
  unfold utils.pack_bot_file_id.
  rewrite (pack_document_record d Hfits), Henc. reflexivity.
Qed.

(** C9. For a document whose fields fit their types, the type code is
    decided by the first audio, video, sticker or animated attribute
    (3 or 9, 13 or 4, 8, 10) and is 5 without one; the 25 octets packed
    are the code and the datacenter on 32 bits, the file id and the
    access hash on 64 bits, little-endian, and the version 2; the result
    is the unpadded URL-safe base64 text of the run-length encoding of
    these octets, and decoding the text, then the runs, gives the octets
    back. *)
Theorem pack_document (d : types.Document) :
  document_fits d ->
  utils.scan_attributes 5 (types.attributes d)
  = type_code (List.find media_attribute (types.attributes d))
  /\ List.length (document_record d) = 25%nat
  /\ exists packed file_id,
       utils.pack_bot_file_id (types.Document_ d) = Return (Some file_id)
       /\ file_id = utils.rstrip "="%char (utils.urlsafe_b64encode packed)
       /\ utils._rle_encode (document_record d) = Return packed
       /\ b64decode file_id = Some packed
       /\ rle_decode packed = document_record d.
Proof.
  intros Hfits. split; [|split; [apply document_record_length|]].
  - rewrite scan_attributes_first.
    destruct (List.find media_attribute (types.attributes d)); reflexivity.
  - destruct (pack_document_encoded d Hfits) as (packed & Henc & Hdec & Hpack).
    exists packed, (utils.rstrip "="%char (utils.urlsafe_b64encode packed)).
    repeat split; try assumption. apply b64decode_encode.
Qed.

Lemma pack_document_witness :
  utils.pack_bot_file_id
    (types.Document_
       {| types.document_id := 5; types.document_access_hash := -3;
          types.document_dc_id := 2;
          types.attributes :=
            [types.DocumentAttributeFilename (s "a.mp4");
             types.DocumentAttributeVideo false;
             types.DocumentAttributeAnimated] |})
  = Return (Some (s "BAADAgADBQAH_f________8C")).
Proof.
  destruct (pack_document
              {| types.document_id := 5; types.document_access_hash := -3;
                 types.document_dc_id := 2;
                 types.attributes :=
                   [types.DocumentAttributeFilename (s "a.mp4");
                    types.DocumentAttributeVideo false;
                    types.DocumentAttributeAnimated] |})
    as (_ & _ & packed & file_id & Hpack & -> & Henc & _ & _).
  - repeat split.
  - rewrite Hpack. injection Henc as <-. vm_compute. reflexivity.
Defined.

Lemma find_absent {A} (f : A -> bool) (l : list A) :
  (forall x, In x l -> f x = false) -> List.find f l = None.
Proof.
  induction l as [|a l IH]; intros Hl; [reflexivity|].
  cbn. rewrite (Hl a) by now left. apply IH. intros x Hx. apply Hl. now right.
Qed.

Lemma find_present {A} (f : A -> bool) (l : list A) (x : A) :
  In x l -> f x = true -> exists y, List.find f l = Some y.
Proof.
  induction l as [|a l IH]; intros Hin Hx; [contradiction|].
  cbn. destruct (f a) eqn:Fa; [eauto|].
  destruct Hin as [->|Hin]; [congruence | now apply IH].
Qed.

Lemma pack_photo (p : types.Photo) :
  photo_fits p ->
  (exists x, In x (types.sizes p) /\ utils.is_sized x = true) ->
  exists packed,
    utils._rle_encode (photo_record p) = Return packed
    /\ rle_decode packed = photo_record p
    /\ utils.pack_bot_file_id (types.Photo_ p)
       = Return (Some (utils.rstrip "="%char (utils.urlsafe_b64encode packed))).
Proof.
  intros Hfits (x & Hin & Hx).
  pose proof (photo_record_length p) as Hlen.
  assert (Hrec : exists l, photo_record p = l ++ [Init.Byte.x02]).
  { unfold photo_record. eexists. rewrite !app_assoc. reflexivity. }
  destruct Hrec as [l Hl].
  destruct (encode_record l) as (packed & Henc & Hdec).
  { rewrite <- Hl, Hlen. lia. }
  rewrite <- Hl in Henc, Hdec.
  exists packed. split; [exact Henc|]. split; [exact Hdec|].
  unfold utils.pack_bot_file_id.
  destruct (find_present utils.is_sized (rev (types.sizes p)) x) as [y Hy];
    [now apply in_rev in Hin | exact Hx |].
  rewrite Hy, (pack_photo_record p Hfits), Henc. reflexivity.
Qed.

(** A field outside its TL type is refused by [struct.pack]. *)
Lemma pack_document_out_of_range (d : types.Document) :
  struct.in_range struct.fmt_i (types.document_dc_id d) = false ->
  utils.pack_bot_file_id (types.Document_ d) = Raise StructError.
Proof.
  intros Hdc. unfold utils.pack_bot_file_id. cbn [struct.pack].
  rewrite scan_attributes_first.
  replace (match List.find media_attribute (types.attributes d) with
           | Some a => type_code (Some a)
           | None => 5
           end)
    with (type_code (List.find media_attribute (types.attributes d)))
    by (destruct (List.find media_attribute (types.attributes d)); reflexivity).
  now rewrite type_code_in_range, Hdc.
Qed.

(** C8. [pack_bot_file_id] returns [None] for every input that is not a
    document or a photo and does not wrap one, and for every photo none of
    whose sizes is a [PhotoSize] or a [PhotoCachedSize]; for every
    document, and for every photo with such a size, whose fields fit
    their types it returns an identifier: the unpadded URL-safe base64
    text of the run-length encoding of the record of the file, from
    which decoding gives the record back, so that the text is never
    empty; and a media container around a document or a photo is
    treated as what it contains. *)
Theorem pack_applicable :
  (forall file,
     (forall d, file <> types.Document_ d) ->
     (forall p, file <> types.Photo_ p) ->
     (forall x, file = types.MessageMediaDocument x
                \/ file = types.MessageMediaPhoto x ->
                (forall d, x <> types.Document_ d)
                /\ (forall p, x <> types.Photo_ p)) ->
     utils.pack_bot_file_id file = Return None)
  /\ (forall p,
        (forall x, In x (types.sizes p) ->
                   x <> types.PhotoSize /\ x <> types.PhotoCachedSize) ->
        utils.pack_bot_file_id (types.Photo_ p) = Return None)
  /\ (forall d, document_fits d ->
        exists packed id,
          utils.pack_bot_file_id (types.Document_ d) = Return (Some id)
          /\ utils._rle_encode (document_record d) = Return packed
          /\ id = utils.rstrip "="%char (utils.urlsafe_b64encode packed)
          /\ b64decode id = Some packed
          /\ rle_decode packed = document_record d
          /\ id <> [])
  /\ (forall p, photo_fits p ->
        In types.PhotoSize (types.sizes p)
        \/ In types.PhotoCachedSize (types.sizes p) ->
        exists packed id,
          utils.pack_bot_file_id (types.Photo_ p) = Return (Some id)
          /\ utils._rle_encode (photo_record p) = Return packed
          /\ id = utils.rstrip "="%char (utils.urlsafe_b64encode packed)
          /\ b64decode id = Some packed
          /\ rle_decode packed = photo_record p
          /\ id <> [])
  /\ (forall x,
        (exists d, x = types.Document_ d) \/ (exists p, x = types.Photo_ p) ->
        utils.pack_bot_file_id (types.MessageMediaDocument x)
        = utils.pack_bot_file_id x
        /\ utils.pack_bot_file_id (types.MessageMediaPhoto x)
           = utils.pack_bot_file_id x).
Proof.
  split; [|split; [|split; [|split]]].
  - intros file Hd Hp Hw.
    destruct file as [d|i|p|i|x|x| |]; try reflexivity.
    + now destruct (Hd d).
    + now destruct (Hp p).
    + destruct (Hw x (or_introl eq_refl)) as [Hxd Hxp].
      destruct x as [d|i|p|i|y|y| |]; try reflexivity.
      * now destruct (Hxd d).
      * now destruct (Hxp p).
    + destruct (Hw x (or_intror eq_refl)) as [Hxd Hxp].
      destruct x as [d|i|p|i|y|y| |]; try reflexivity.
      * now destruct (Hxd d).
      * now destruct (Hxp p).
  - intros p Hsizes. unfold utils.pack_bot_file_id.
    rewrite find_absent; [reflexivity|].
    intros x Hx. apply in_rev in Hx. destruct (Hsizes x Hx) as [H1 H2].
    destruct x; try reflexivity; congruence.
  - intros d Hfits.
    destruct (pack_document_encoded d Hfits) as (packed & Henc & Hdec & Hpack).
    exists packed, (utils.rstrip "="%char (utils.urlsafe_b64encode packed)).
    pose proof (b64decode_encode packed) as Hb.
    repeat split; try assumption.
    intros Hnil. rewrite Hnil in Hb. cbn in Hb. injection Hb as <-.
    cbn in Hdec. pose proof (document_record_length d) as Hlen.
    rewrite <- Hdec in Hlen. discriminate Hlen.
  - intros p Hfits Hsized.
    destruct (pack_photo p Hfits) as (packed & Henc & Hdec & Hpack).
    { destruct Hsized as [Hin|Hin]; eexists;
        (split; [exact Hin | reflexivity]). }
    exists packed, (utils.rstrip "="%char (utils.urlsafe_b64encode packed)).
    pose proof (b64decode_encode packed) as Hb.
    repeat split; try assumption.
    intros Hnil. rewrite Hnil in Hb. cbn in Hb. injection Hb as <-.
    cbn in Hdec. pose proof (photo_record_length p) as Hlen.
    rewrite <- Hdec in Hlen. discriminate Hlen.
  - intros x [[d ->]|[p ->]]; split; reflexivity.
Qed.

Lemma pack_applicable_witness :
  utils.pack_bot_file_id types.MessageMediaGeo = Return None
  /\ utils.pack_bot_file_id
       (types.Photo_
          {| types.photo_id := 9; types.photo_access_hash := 1;
             types.photo_dc_id := 4;
             types.sizes := [types.PhotoStrippedSize; types.PhotoPathSize] |})
     = Return None
  /\ utils.pack_bot_file_id
       (types.Photo_
          {| types.photo_id := 9; types.photo_access_hash := 1;
             types.photo_dc_id := 4;
             types.sizes := [types.PhotoStrippedSize; types.PhotoSize] |})
     = Return (Some (s "AgADBAADCQAHAQAbAg")).
Proof.
  destruct pack_applicable as (Hother & Hbare & _ & Hphoto & _).
  split; [|split].
  - apply Hother; try discriminate. intros x [E|E]; discriminate E.
  - apply Hbare. cbn. intros x [<-|[<-|[]]]; split; discriminate.
  - destruct (Hphoto
                {| types.photo_id := 9; types.photo_access_hash := 1;
                   types.photo_dc_id := 4;
                   types.sizes := [types.PhotoStrippedSize; types.PhotoSize] |})
      as (packed & id & Hpack & Henc & Hid & _);
      [repeat split | left; cbn; auto |].
    vm_compute in Henc. injection Henc as <-.
    rewrite Hpack, Hid. vm_compute. reflexivity.
Defined.

End FileIdFacts.

(** ** The filters as a whole *)

Module FilterFacts.
Import Notions.

Ltac bool_cases :=
  repeat match goal with
         | |- context [if ?b then _ else _] => destruct b eqn:?
         | |- context [match ?x with Some _ => _ | None => _ end] =>
           destruct x eqn:?
         end.

(** No builder accepts anything before [resolve] has run. *)
Theorem unresolved_rejects_everything :
  (forall (self : NewMessage.t) now ev c,
      EventBuilder.resolved (NewMessage.base self) = false ->
      fst (NewMessage.filter self now ev c) = false)
  /\ (forall (self : Command.t) now ev c,
        EventBuilder.resolved (NewMessage.base (Command.super self)) = false ->
        fst (Command.filter self now ev c) = false)
  /\ (forall (self : CallbackQuery.t) now ev c,
        EventBuilder.resolved (CallbackQuery.base self) = false ->
        fst (CallbackQuery.filter self now ev c) <> Return true)
  /\ (forall (self : InlineQuery.t) ev,
        EventBuilder.resolved (InlineQuery.base self) = false ->
        InlineQuery.filter self ev = false).
Proof.
  split; [|split; [|split]].
  - intros self now ev c Hr. unfold NewMessage.filter, EventBuilder.filter.
    rewrite Hr. cbn [negb].
    destruct (SpamGuard.is_spam now _ c) as [spam c'].
    bool_cases; reflexivity.
  - intros self now ev c Hr. unfold Command.filter, EventBuilder.filter.
    rewrite Hr. cbn [negb].
    destruct (SpamGuard.is_spam now _ c) as [spam c'].
    repeat match goal with
           | |- context [if ?b then _ else _] => destruct b
           | |- context [match ?x with _ => _ end] => destruct x
           end; reflexivity.
  - intros self now ev c Hr. unfold CallbackQuery.filter, EventBuilder.filter.
    rewrite Hr. cbn [negb].
    destruct (SpamGuard.is_spam now _ c) as [spam c'].
    match goal with
    | |- context [match ?p with Raise _ => _ | _ => _ end] => destruct p as [[|]|]
    end; cbn; try destruct spam; cbn; discriminate.
  - intros self ev Hr. unfold InlineQuery.filter, EventBuilder.filter.
    rewrite Hr. cbn [negb]. bool_cases; reflexivity.
Qed.

Lemma unresolved_rejects_everything_witness :
  fst (NewMessage.filter
         {| NewMessage.base := EventBuilder.__init__ None;
            NewMessage.pattern := None;
            NewMessage.incoming := None; NewMessage.outgoing := None;
            NewMessage.private := false; NewMessage.public := false |}
         0 (text_event false (s "hi") None None) SpamGuard._spam_cache)
  = false.
Proof.
  apply (proj1 unresolved_rejects_everything). reflexivity.
Defined.

(** [NewMessage.filter] accepts an event exactly when every configured
    criterion holds, the sender is not marked by the spam guard, the
    builder is resolved and the user predicate, if any, agrees. *)
Theorem newmessage_filter_iff (self : NewMessage.t) (now : Z)
    (ev : NewMessage.Event) (c : SpamGuard.TTLCache) :
  fst (NewMessage.filter self now ev c) = true <->
  (NewMessage.private self = true -> NewMessage.is_private ev = true)
  /\ (NewMessage.public self = true ->
      NewMessage.is_group ev = true \/ NewMessage.is_channel ev = true)
  /\ (NewMessage.incoming self = Some true ->
      types.out (NewMessage.message ev) = false)
  /\ (NewMessage.outgoing self = Some true ->
      types.out (NewMessage.message ev) = true)
  /\ (forall p, NewMessage.pattern self = Some p ->
                matches p (types.message (NewMessage.message ev)) = true)
  /\ fst (SpamGuard.is_spam now (types.sender_id (NewMessage.message ev)) c)
     = false
  /\ EventBuilder.resolved (NewMessage.base self) = true
  /\ (forall f, EventBuilder.func (NewMessage.base self) = Some f ->
                f ev = true).
Proof.
  unfold NewMessage.filter, EventBuilder.filter.
  destruct (SpamGuard.is_spam now _ c) as [spam c']. cbn [fst].
  destruct (NewMessage.private self && negb (NewMessage.is_private ev)) eqn:E1.
  { split; [discriminate|]. intros (H & _).
    apply andb_true_iff in E1. destruct E1 as [Hp Hn].
    rewrite (H Hp) in Hn. discriminate. }
  destruct (NewMessage.public self
            && negb (NewMessage.is_group ev || NewMessage.is_channel ev)) eqn:E2.
  { split; [discriminate|]. intros (_ & H & _).
    apply andb_true_iff in E2. destruct E2 as [Hp Hn].
    destruct (H Hp) as [Hg|Hg]; rewrite Hg in Hn;
      [|rewrite orb_true_r in Hn]; discriminate. }
  destruct (truthy_flag (NewMessage.incoming self)
            && types.out (NewMessage.message ev)) eqn:E3.
  { split; [discriminate|]. intros (_ & _ & H & _).
    apply andb_true_iff in E3. destruct E3 as [Hp Hn].
    destruct (NewMessage.incoming self) as [[|]|]; try discriminate.
    rewrite (H eq_refl) in Hn. discriminate. }
  destruct (truthy_flag (NewMessage.outgoing self)
            && negb (types.out (NewMessage.message ev))) eqn:E4.
  { split; [discriminate|]. intros (_ & _ & _ & H & _).
    apply andb_true_iff in E4. destruct E4 as [Hp Hn].
    destruct (NewMessage.outgoing self) as [[|]|]; try discriminate.
    rewrite (H eq_refl) in Hn. discriminate. }
  destruct (match NewMessage.pattern self with
            | Some p => negb (matches p (types.message (NewMessage.message ev)))
            | None => false
            end) eqn:E5.
  { split; [discriminate|]. intros (_ & _ & _ & _ & H & _).
    destruct (NewMessage.pattern self) as [p|]; [|discriminate].
    rewrite (H p eq_refl) in E5. discriminate. }
  assert (C1 : NewMessage.private self = true -> NewMessage.is_private ev = true).
  { intros Hp. rewrite Hp in E1. now destruct (NewMessage.is_private ev). }
  assert (C2 : NewMessage.public self = true ->
               NewMessage.is_group ev = true \/ NewMessage.is_channel ev = true).
  { intros Hp. rewrite Hp in E2. apply orb_true_iff.
    now destruct (NewMessage.is_group ev || NewMessage.is_channel ev). }
  assert (C3 : NewMessage.incoming self = Some true ->
               types.out (NewMessage.message ev) = false).
  { intros Hp. rewrite Hp in E3. exact E3. }
  assert (C4 : NewMessage.outgoing self = Some true ->
               types.out (NewMessage.message ev) = true).
  { intros Hp. rewrite Hp in E4.
    now destruct (types.out (NewMessage.message ev)). }
  assert (C5 : forall p, NewMessage.pattern self = Some p ->
               matches p (types.message (NewMessage.message ev)) = true).
  { intros p Hp. rewrite Hp in E5. now destruct (matches p _). }
  destruct spam; cbn [fst].
  { split; [discriminate|]. intros (_ & _ & _ & _ & _ & H & _). discriminate. }
  destruct (EventBuilder.resolved (NewMessage.base self)); cbn [negb].
  2: { split; [discriminate|]. intros (_ & _ & _ & _ & _ & _ & H & _).
       discriminate. }
  destruct (EventBuilder.func (NewMessage.base self)) as [f|].
  - split.
    + intros Hf. repeat split; try assumption. now intros f' [= <-].
    + intros (_ & _ & _ & _ & _ & _ & _ & H). now apply H.
  - split; [|reflexivity]. intros _. repeat split; try assumption.
    discriminate.
Qed.

(** [InlineQuery.filter] accepts a query exactly when its text matches
    the pattern, if there is one, the builder is resolved and the user
    predicate, if any, agrees; the spam guard has no part in it, so
    that a query is accepted however often its sender has just been
    seen. *)
Theorem inline_filter_iff (self : InlineQuery.t) (ev : InlineQuery.Event) :
  InlineQuery.filter self ev = true <->
  (forall p, InlineQuery.pattern self = Some p ->
             matches p (types.iq_query (InlineQuery.query ev)) = true)
  /\ EventBuilder.resolved (InlineQuery.base self) = true
  /\ (forall f, EventBuilder.func (InlineQuery.base self) = Some f ->
                f ev = true).
Proof.
  unfold InlineQuery.filter, EventBuilder.filter.
  destruct self as [[r f] p]; cbn.
  destruct p as [p|].
  - destruct (matches p _) eqn:M; cbn.
    + destruct r; cbn.
      * destruct f as [f|].
        -- split.
           ++ intros H. repeat split; [intros ? [= <-]; exact M|].
              now intros ? [= <-].
           ++ intros (_ & _ & H). now apply H.
        -- split; [|reflexivity]. intros _.
           repeat split; [intros ? [= <-]; exact M | discriminate].
      * split; [discriminate|]. now intros (_ & ? & _).
    + split; [discriminate|]. intros (H & _).
      specialize (H p eq_refl). congruence.
  - destruct r; cbn.
    + destruct f as [f|].
      * split.
        -- intros H. repeat split; [discriminate|]. now intros ? [= <-].
        -- intros (_ & _ & H). now apply H.
      * split; [|reflexivity]. intros _. repeat split; discriminate.
    + split; [discriminate|]. now intros (_ & ? & _).
Qed.

(** What [__init__] leaves in the direction flags. *)
Lemma init_directions (re_compile : str -> outcome Pattern)
    (pattern : pattern_arg) (outgoing incoming : option bool)
    (func : option (NewMessage.Event -> bool)) (private public : bool)
    (t : NewMessage.t) (i : bool) :
  NewMessage.__init__ re_compile pattern outgoing incoming func private public
  = Return t ->
  (incoming = Some i /\ outgoing = None)
  \/ (incoming = None /\ outgoing = Some (negb i))
  \/ (incoming = Some i /\ outgoing = Some (negb i)) ->
  NewMessage.incoming t = Some i /\ NewMessage.outgoing t = Some (negb i).
Proof.
  unfold NewMessage.__init__.
  destruct (private && public); [discriminate|].
  intros Ht [[-> ->]|[[-> ->]|[-> ->]]]; revert Ht; destruct i; cbn;
    (destruct pattern as [p|p| |]; cbn;
     [destruct (re_compile p) | | | ]; try discriminate;
     intros [= <-]; cbn; split; reflexivity).
Qed.

(** A builder made with [incoming=i] alone, with [outgoing=not i] alone,
    or with both, accepts only messages whose [out] flag is [not i]:
    [incoming=True] means incoming messages only, [incoming=False] means
    outgoing messages only. *)
Theorem newmessage_direction (re_compile : str -> outcome Pattern)
    (pattern : pattern_arg) (outgoing incoming : option bool)
    (func : option (NewMessage.Event -> bool)) (private public : bool)
    (t : NewMessage.t) (i : bool) :
  NewMessage.__init__ re_compile pattern outgoing incoming func private public
  = Return t ->
  (incoming = Some i /\ outgoing = None)
  \/ (incoming = None /\ outgoing = Some (negb i))
  \/ (incoming = Some i /\ outgoing = Some (negb i)) ->
  forall now ev c,
    fst (NewMessage.filter (NewMessage.resolve t) now ev c) = true ->
    types.out (NewMessage.message ev) = negb i.
Proof.
  intros Ht Hflags now ev c.
  destruct (init_directions _ _ _ _ _ _ _ t i Ht Hflags) as [Hi Ho].
  unfold NewMessage.filter.
  cbn [NewMessage.resolve NewMessage.incoming NewMessage.outgoing
       NewMessage.private NewMessage.public NewMessage.pattern].
  rewrite Hi, Ho.
  destruct (NewMessage.private t && _); [discriminate|].
  destruct (NewMessage.public t && _); [discriminate|].
  destruct i, (types.out (NewMessage.message ev)); cbn;
    intros H; (reflexivity || discriminate H).
Qed.

Lemma newmessage_direction_witness :
  types.out (NewMessage.message (text_event false (s "hi") None None)) = negb true.
Proof.
  refine (newmessage_direction (fun _ => Raise ReError) pattern_none
            None (Some true) None false false _ true eq_refl
            (or_introl (conj eq_refl eq_refl))
            0%Z (text_event false (s "hi") None None) SpamGuard._spam_cache
            eq_refl).
Defined.

End FilterFacts.

(** ** The spam guard inside the filters *)

Module GuardedFilterFacts.
Import Notions.

(** A miss stores the mark of the id. *)
Lemma is_spam_false_marks (now : Z) (id : SpamGuard.key) (c : SpamGuard.TTLCache) :
  fst (SpamGuard.is_spam now id c) = false ->
  SpamGuard.lookup (snd (SpamGuard.is_spam now id c)) id
  = Some {| SpamGuard.e_key := id; SpamGuard.e_value := 1;
            SpamGuard.e_expires := now + 600 |}.
Proof.
  unfold SpamGuard.is_spam.
  destruct (negb (SpamGuard.get c now id 0 =? 0)%Z); [discriminate|].
  intros _. cbn [snd]. apply SpamGuardFacts.lookup_setitem.
Qed.

(** Either a filter stops before the guard and leaves the cache alone, or
    it consults the guard once and lets the base filter decide. *)
Lemma newmessage_filter_shape (self : NewMessage.t) (now : Z)
    (ev : NewMessage.Event) (c : SpamGuard.TTLCache) :
  let sp := SpamGuard.is_spam now (types.sender_id (NewMessage.message ev)) c in
  NewMessage.filter self now ev c = (false, c)
  \/ NewMessage.filter self now ev c
     = (negb (fst sp) && EventBuilder.filter (NewMessage.base self) ev, snd sp).
Proof.
  intros sp. subst sp. unfold NewMessage.filter.
  repeat match goal with
         | |- context [if ?b then (false, c) else _] =>
           destruct b; [left; reflexivity|]
         end.
  right. destruct (SpamGuard.is_spam now _ c) as [[|] c']; reflexivity.
Qed.

Lemma command_filter_shape (self : Command.t) (now : Z)
    (ev : NewMessage.Event) (c : SpamGuard.TTLCache) :
  let sp := SpamGuard.is_spam now (types.sender_id (NewMessage.message ev)) c in
  Command.filter self now ev c = (false, c)
  \/ Command.filter self now ev c
     = (negb (fst sp)
        && EventBuilder.filter (NewMessage.base (Command.super self)) ev,
        snd sp).
Proof.
  intros sp. subst sp. unfold Command.filter.
  repeat match goal with
         | |- context [if ?b then (false, c) else _] =>
           destruct b; [left; reflexivity|]
         end.
  destruct (types.entities (NewMessage.message ev)) as [[|e0 rest]|];
    try (left; reflexivity).
  destruct (_ || _); [left; reflexivity|].
  destruct (split _ _ None) as [|name others]; [left; reflexivity|].
  repeat match goal with
         | |- context [if ?b then (false, c) else _] =>
           destruct b; [left; reflexivity|]
         end.
  right. destruct (SpamGuard.is_spam now _ c) as [[|] c']; reflexivity.
Qed.

Lemma callback_filter_shape (self : CallbackQuery.t) (now : Z)
    (ev : CallbackQuery.Event) (c : SpamGuard.TTLCache) :
  let sp := SpamGuard.is_spam now
              (Some (types.user_id (CallbackQuery.query ev))) c in
  (exists e, CallbackQuery.filter self now ev c = (Raise e, c))
  \/ CallbackQuery.filter self now ev c = (Return false, c)
  \/ CallbackQuery.filter self now ev c
     = (Return (negb (fst sp)
                && EventBuilder.filter (CallbackQuery.base self) ev),
        snd sp).
Proof.
  intros sp. subst sp. unfold CallbackQuery.filter.
  match goal with
  | |- context [match ?p with Raise _ => _ | _ => _ end] =>
    destruct p as [[|]|e]
  end; [| right; left; reflexivity | left; eauto].
  right. right.
  destruct (SpamGuard.is_spam now _ c) as [[|] c']; reflexivity.
Qed.

Section Marks.
Import SpamGuard.
Local Open Scope Z_scope.

(** A marked id is found. *)
Lemma lookup_marked (t : Z) (id : key) (n : nat) (c : TTLCache) :
  marked t id n c ->
  lookup c id = Some {| e_key := id; e_value := 1; e_expires := t + ttl |}.
Proof.
  intros (older & newer & -> & Hold & _). unfold lookup.
  induction older as [|x older IH]; cbn.
  - now rewrite SpamGuardFacts.key_eqb_refl.
  - rewrite (Hold x) by now left. apply IH. intros y Hy. apply Hold. now right.
Qed.

(** While the mark lives, [is_spam] of a marked id is a hit. *)
Lemma marked_hit (t : Z) (id : key) (n : nat) (c : TTLCache) (now : Z) :
  marked t id n c -> now < t + ttl -> is_spam now id c = (true, c).
Proof.
  intros Hm Hnow.
  apply (SpamGuardFacts.is_spam_hit _ _ _ _ (lookup_marked _ _ _ _ Hm));
    cbn; [exact Hnow | discriminate].
Qed.

(** A call of [is_spam] keeps the mark as long as fewer than [maxsize]
    entries are newer: only the oldest entry is given up. *)
Lemma marked_step (t : Z) (id : key) (n : nat) (c : TTLCache) (now : Z) (k : key) :
  marked t id n c -> (S n < maxsize)%nat -> now < t + ttl ->
  marked t id (S n) (snd (is_spam now k c)).
Proof.
  intros Hm Hn Hnow.
  destruct (key_eqb k id) eqn:Ek.
  { apply SpamGuardFacts.key_eqb_eq in Ek. subst k.
    rewrite (marked_hit _ _ _ _ _ Hm Hnow). cbn [snd].
    destruct Hm as (older & newer & E & Hold & Hlen).
    exists older, newer. repeat split; auto. }
  assert (Eki : key_eqb id k = false).
  { destruct (key_eqb id k) eqn:E; [|reflexivity].
    apply SpamGuardFacts.key_eqb_eq in E. subst k.
    now rewrite SpamGuardFacts.key_eqb_refl in Ek. }
  destruct Hm as (older & newer & -> & Hold & Hlen).
  unfold is_spam.
  destruct (negb (get _ now k 0 =? 0)).
  { cbn [snd]. exists older, newer. repeat split; auto. }
  cbn [snd]. unfold setitem, expire.
  set (e := {| e_key := id; e_value := 1; e_expires := t + ttl |}).
  set (live := fun x => negb (expired now x)).
  assert (He : live e = true).
  { unfold live, expired, e. cbn. apply negb_true_iff. apply Z.leb_gt. exact Hnow. }
  rewrite filter_app. cbn [filter]. rewrite He.
  assert (Hold' : forall p x, In x (filter p older) ->
                              key_eqb (e_key x) id = false).
  { intros p x Hx. apply filter_In in Hx. now apply Hold. }
  pose proof (filter_length_le live newer) as Hl1.
  destruct (lookup _ k) as [found|].
  - rewrite filter_app. cbn [filter]. cbn [e_key e]. rewrite Eki. cbn [negb].
    exists (filter (fun x => negb (key_eqb (e_key x) k)) (filter live older)),
           (filter (fun x => negb (key_eqb (e_key x) k)) (filter live newer)
            ++ [{| e_key := k; e_value := 1; e_expires := now + ttl |}]).
    split; [now rewrite <- app_assoc|]. split.
    + intros x Hx. apply filter_In in Hx. now apply (Hold' live).
    + rewrite length_app. cbn.
      pose proof (filter_length_le (fun x => negb (key_eqb (e_key x) k))
                    (filter live newer)). lia.
  - destruct (maxsize <=? _)%nat eqn:Efull.
    + destruct (filter live older) as [|x older'] eqn:Eo.
      * apply Nat.leb_le in Efull. cbn in Efull. lia.
      * cbn [app tl].
        exists older',
               (filter live newer
                ++ [{| e_key := k; e_value := 1; e_expires := now + ttl |}]).
        split; [now rewrite <- app_assoc|]. split.
        -- intros y Hy. apply (Hold' live). rewrite Eo. now right.
        -- rewrite length_app. cbn. lia.
    + exists (filter live older),
             (filter live newer
              ++ [{| e_key := k; e_value := 1; e_expires := now + ttl |}]).
      split; [now rewrite <- app_assoc|]. split.
      * apply Hold'.
      * rewrite length_app. cbn. lia.
Qed.

Lemma marked_calls (t : Z) (id : key) (calls : list (Z * key)) :
  forall (n : nat) (c : TTLCache),
  marked t id n c -> (n + List.length calls < maxsize)%nat ->
  Forall (fun call => fst call < t + ttl) calls ->
  marked t id (n + List.length calls) (spam_calls calls c).
Proof.
  induction calls as [|[now k] calls IH]; intros n c Hm Hn Hall.
  - cbn. now rewrite Nat.add_0_r.
  - cbn [spam_calls fold_left]. cbn [List.length] in *.
    inversion Hall as [|? ? Hnow Hrest]; subst.
    replace (n + S (List.length calls))%nat with (S n + List.length calls)%nat
      by lia.
    apply IH; [|lia|exact Hrest].
    apply marked_step; [exact Hm | lia | exact Hnow].
Qed.

(** Storing an id marks it, with no newer entry. *)
Lemma setitem_marks (c : TTLCache) (now : Z) (id : key) :
  marked now id 0 (setitem c now id 1).
Proof.
  unfold setitem.
  set (live := expire now c).
  destruct (lookup live id) eqn:L.
  - exists (filter (fun e => negb (key_eqb (e_key e) id)) live), [].
    split; [reflexivity|]. split; [|cbn; lia].
    intros x Hx. apply filter_In in Hx. now apply negb_true_iff.
  - assert (Hno : forall l, lookup l id = None ->
                    forall x, In x l -> key_eqb (e_key x) id = false).
    { intros l Hl x Hx. unfold lookup in Hl.
      apply (find_none _ _ Hl x Hx). }
    exists (if (maxsize <=? List.length live)%nat then tl live else live), [].
    split; [reflexivity|]. split; [|cbn; lia].
    intros x Hx. apply (Hno live L).
    destruct (maxsize <=? _)%nat; [|exact Hx].
    destruct live; [contradiction | now right].
Qed.

End Marks.

(** The mark outlives 499 further calls, not 500: after 500 calls for
    other ids the cache has given up the mark of the sender, who is then
    let through again within the 0.6 s. *)
Lemma mark_evicted_by_500_others :
  let c' := snd (SpamGuard.is_spam 0 (Some 7%Z) SpamGuard._spam_cache) in
  let others n :=
    map (fun i => (1%Z, Some (1000 + Z.of_nat i)%Z)) (seq 0 n) in
  fst (SpamGuard.is_spam 2 (Some 7%Z) (spam_calls (others 499%nat) c')) = true
  /\ fst (SpamGuard.is_spam 2 (Some 7%Z) (spam_calls (others 500%nat) c'))
     = false.
Proof. vm_compute. split; reflexivity. Qed.

(** Once a filter has accepted an event at time [t], and fewer than 500
    calls of [is_spam] have followed, for whatever ids, all before
    [t + 0.6 s], every filter rejects what the same originator sends
    before [t + 0.6 s], and leaves the cache as it is: a second handler
    for the same event, a repeated message, a second click.  Every call
    of a filter makes at most one call of [is_spam]. *)
Theorem accepted_then_rejected (c c' : SpamGuard.TTLCache) (t : Z)
    (id : SpamGuard.key) (calls : list (Z * SpamGuard.key)) :
  (exists self ev,
      types.sender_id (NewMessage.message ev) = id
      /\ NewMessage.filter self t ev c = (true, c'))
  \/ (exists self ev,
        types.sender_id (NewMessage.message ev) = id
        /\ Command.filter self t ev c = (true, c'))
  \/ (exists self ev,
        Some (types.user_id (CallbackQuery.query ev)) = id
        /\ CallbackQuery.filter self t ev c = (Return true, c')) ->
  (List.length calls < 500)%nat ->
  Forall (fun call => (fst call < t + 600)%Z) calls ->
  forall t', (t <= t' < t + 600)%Z ->
    let c'' := spam_calls calls c' in
    (forall self ev,
        types.sender_id (NewMessage.message ev) = id ->
        NewMessage.filter self t' ev c'' = (false, c''))
    /\ (forall self ev,
          types.sender_id (NewMessage.message ev) = id ->
          Command.filter self t' ev c'' = (false, c''))
    /\ (forall self ev,
          Some (types.user_id (CallbackQuery.query ev)) = id ->
          fst (CallbackQuery.filter self t' ev c'') <> Return true
          /\ snd (CallbackQuery.filter self t' ev c'') = c'').
Proof.
  intros Hacc Hfew Hcalls t' Ht' c''.
  assert (Hsp : fst (SpamGuard.is_spam t id c) = false
                /\ c' = snd (SpamGuard.is_spam t id c)).
  { destruct Hacc as [(self & ev & <- & H)|[(self & ev & <- & H)|
                                            (self & ev & <- & H)]].
    - destruct (newmessage_filter_shape self t ev c) as [E|E];
        rewrite E in H; [discriminate|].
      injection H as H1 H2. apply andb_true_iff in H1.
      split; [now apply negb_true_iff | now symmetry].
    - destruct (command_filter_shape self t ev c) as [E|E];
        rewrite E in H; [discriminate|].
      injection H as H1 H2. apply andb_true_iff in H1.
      split; [now apply negb_true_iff | now symmetry].
    - destruct (callback_filter_shape self t ev c) as [[e E]|[E|E]];
        rewrite E in H; try discriminate.
      injection H as H1 H2. apply andb_true_iff in H1.
      split; [now apply negb_true_iff | now symmetry]. }
  destruct Hsp as [Hmiss Hc'].
  assert (Hmark : marked t id 0 c').
  { rewrite Hc'. revert Hmiss. unfold SpamGuard.is_spam.
    destruct (negb (SpamGuard.get c t id 0 =? 0)%Z); [discriminate|].
    intros _. cbn [snd]. apply setitem_marks. }
  assert (Hhit : SpamGuard.is_spam t' id c'' = (true, c'')).
  { apply (marked_hit t id (0 + List.length calls) c'' t');
      [|unfold SpamGuard.ttl; lia].
    apply marked_calls; [exact Hmark | unfold SpamGuard.maxsize; cbn; lia
                        | exact Hcalls]. }
  split; [|split].
  - intros self ev <-.
    destruct (newmessage_filter_shape self t' ev c'') as [E|E]; [exact E|].
    rewrite E, Hhit. reflexivity.
  - intros self ev <-.
    destruct (command_filter_shape self t' ev c'') as [E|E]; [exact E|].
    rewrite E, Hhit. reflexivity.
  - intros self ev <-.
    destruct (callback_filter_shape self t' ev c'') as [[e E]|[E|E]];
      rewrite E; try rewrite Hhit; cbn; split; (discriminate || reflexivity).
Qed.

Lemma accepted_then_rejected_witness :
  exists c',
    NewMessage.filter
      (NewMessage.resolve
         {| NewMessage.base := EventBuilder.__init__ None;
            NewMessage.pattern := None;
            NewMessage.incoming := None; NewMessage.outgoing := None;
            NewMessage.private := false; NewMessage.public := false |})
      0 (text_event false (s "hi") None None) SpamGuard._spam_cache
    = (true, c')
    /\ fst (Command.filter
              {| Command.command := [s "start"];
                 Command.super :=
                   NewMessage.resolve
                     {| NewMessage.base := EventBuilder.__init__ None;
                        NewMessage.pattern := None;
                        NewMessage.incoming := None;
                        NewMessage.outgoing := None;
                        NewMessage.private := false;
                        NewMessage.public := false |} |}
              100 (text_event false (s "/start") (Some [bot_command 0 6]) None)
              (spam_calls [(20, Some 8); (40, Some 9); (60, Some 8)]%Z c'))
       = false.
Proof.
  eexists. split; [reflexivity|].
  refine (f_equal fst
            (proj1 (proj2 (accepted_then_rejected SpamGuard._spam_cache _ 0
                             (Some 7%Z)
                             [(20, Some 8); (40, Some 9); (60, Some 8)]%Z
                             _ _ _ 100%Z _))
               {| Command.command := [s "start"];
                  Command.super :=
                    NewMessage.resolve
                      {| NewMessage.base := EventBuilder.__init__ None;
                         NewMessage.pattern := None;
                         NewMessage.incoming := None;
                         NewMessage.outgoing := None;
                         NewMessage.private := false;
                         NewMessage.public := false |} |}
               (text_event false (s "/start") (Some [bot_command 0 6]) None)
               eq_refl)).
  - left.
    exists (NewMessage.resolve
              {| NewMessage.base := EventBuilder.__init__ None;
                 NewMessage.pattern := None;
                 NewMessage.incoming := None; NewMessage.outgoing := None;
                 NewMessage.private := false; NewMessage.public := false |}),
           (text_event false (s "hi") None None).
    split; reflexivity.
  - cbn. lia.
  - repeat constructor.
  - lia.
Defined.

(** An event that meets the criteria of the builder and whose sender is
    not marked gets its sender marked even when the user predicate turns
    the event down, so the sender is then held back for 0.6 s. *)
Theorem predicate_rejection_marks_sender (self : NewMessage.t) (now : Z)
    (ev : NewMessage.Event) (c : SpamGuard.TTLCache)
    (f : NewMessage.Event -> bool) :
  fst (NewMessage.filter (without_predicate self) now ev c) = true ->
  EventBuilder.func (NewMessage.base self) = Some f -> f ev = false ->
  fst (NewMessage.filter self now ev c) = false
  /\ SpamGuard.lookup (snd (NewMessage.filter self now ev c))
       (types.sender_id (NewMessage.message ev))
     = Some {| SpamGuard.e_key := types.sender_id (NewMessage.message ev);
               SpamGuard.e_value := 1; SpamGuard.e_expires := now + 600 |}.
Proof.
  unfold NewMessage.filter, EventBuilder.filter, without_predicate. cbn.
  repeat match goal with
         | |- context [if ?b then (false, c) else _] =>
           destruct b; [discriminate|]
         end.
  pose proof (is_spam_false_marks now (types.sender_id (NewMessage.message ev)) c)
    as Hm.
  destruct (SpamGuard.is_spam now _ c) as [[|] c']; [discriminate|].
  intros _ Hf Hfe. rewrite Hf, Hfe. cbn in *.
  split; [now destruct (EventBuilder.resolved _) | now apply Hm].
Qed.

Lemma predicate_rejection_marks_sender_witness :
  fst (NewMessage.filter
         {| NewMessage.base := {| EventBuilder.resolved := true;
                                  EventBuilder.func := Some (fun _ => false) |};
            NewMessage.pattern := None;
            NewMessage.incoming := None; NewMessage.outgoing := None;
            NewMessage.private := false; NewMessage.public := false |}
         0 (text_event false (s "hi") None None) SpamGuard._spam_cache)
  = false.
Proof.
  refine (proj1 (predicate_rejection_marks_sender
                   {| NewMessage.base :=
                        {| EventBuilder.resolved := true;
                           EventBuilder.func := Some (fun _ => false) |};
                      NewMessage.pattern := None;
                      NewMessage.incoming := None; NewMessage.outgoing := None;
                      NewMessage.private := false; NewMessage.public := false |}
                   0 (text_event false (s "hi") None None) SpamGuard._spam_cache
                   (fun _ => false) eq_refl eq_refl eq_refl)).
Defined.

End GuardedFilterFacts.

(** ** [Command] as a whole *)

Module CommandMoreFacts.
Import Notions.

(** [Command.__init__] fails with [TypeError] when [command] is neither a
    string nor a list, before the flags are looked at; otherwise it fails
    exactly when the flags conflict, with [ValueError]; otherwise it
    stores every name without its first slash, and no pattern.  No
    regular expression is ever compiled. *)
Theorem command_init_outcome (re_compile : str -> outcome Pattern)
    (command : Command.command_arg) (outgoing incoming : option bool)
    (func : option (NewMessage.Event -> bool)) (private public : bool) :
  let r := Command.__init__ re_compile command outgoing incoming func
             private public in
  (command = Command.command_other -> r = Raise TypeError)
  /\ (command <> Command.command_other ->
      flags_conflict private public incoming outgoing -> r = Raise ValueError)
  /\ (command <> Command.command_other ->
      ~ flags_conflict private public incoming outgoing ->
      exists t,
        r = Return t
        /\ Command.command t
           = map (replace1 (s "/") (s ""))
               match command with
               | Command.command_str c => [c]
               | Command.command_list l => l
               | Command.command_other => []
               end
        /\ NewMessage.pattern (Command.super t) = None
        /\ NewMessage.private (Command.super t) = private
        /\ NewMessage.public (Command.super t) = public
        /\ EventBuilder.resolved (NewMessage.base (Command.super t)) = false)
  /\ (forall re_compile',
        Command.__init__ re_compile' command outgoing incoming func
          private public = r).
Proof.
  intros r. subst r. unfold flags_conflict.
  split; [|split; [|split]].
  - intros ->. reflexivity.
  - intros Hc Hconf. unfold Command.__init__, NewMessage.__init__.
    destruct command as [c|l|]; [| |congruence];
      (destruct Hconf as [[-> ->]|[-> ->]]; [reflexivity|];
       destruct private, public; reflexivity).
  - intros Hc Hok. unfold Command.__init__, NewMessage.__init__.
    destruct command as [c|l|]; [| |congruence];
      (destruct private, public, incoming as [[|]|], outgoing as [[|]|]; cbn;
       try (exfalso; apply Hok; auto; fail);
       eexists; repeat split).
  - intros re'. reflexivity.
Qed.

Lemma command_init_outcome_witness :
  Command.__init__ (fun _ => Raise ReError) Command.command_other None None None
    true true = Raise TypeError
  /\ Command.__init__ (fun _ => Raise ReError)
       (Command.command_list [s "/start"; s "help"]) None None None true true
     = Raise ValueError.
Proof.
  split.
  - exact (proj1 (command_init_outcome (fun _ => Raise ReError)
                    Command.command_other None None None true true) eq_refl).
  - refine (proj1 (proj2 (command_init_outcome (fun _ => Raise ReError)
                            (Command.command_list [s "/start"; s "help"])
                            None None None true true)) _ _);
      [discriminate | left; split; reflexivity].
Defined.

(** [Command.filter] accepts an event exactly when the visibility and
    direction criteria hold for the message, its first entity is a bot
    command at offset 0 whose name is configured and whose username
    suffix, if any, is the bot's, the sender is not marked by the spam
    guard, the builder is resolved and the user predicate agrees. *)
Theorem command_filter_iff (self : Command.t) (now : Z)
    (ev : NewMessage.Event) (c : SpamGuard.TTLCache) :
  let nm := Command.super self in
  let m := NewMessage.message ev in
  fst (Command.filter self now ev c) = true <->
  (NewMessage.private nm = true -> types.is_private m = true)
  /\ (NewMessage.public nm = true ->
      types.is_group m = true \/ types.is_channel m = true)
  /\ (NewMessage.incoming nm = Some true -> types.out m = false)
  /\ (NewMessage.outgoing nm = Some true -> types.out m = true)
  /\ (exists e0 rest name others,
        types.entities m = Some (e0 :: rest)
        /\ types.kind e0 = types.MessageEntityBotCommand
        /\ types.offset e0 = 0%Z
        /\ split (s "@") (slice (types.message m) 1 (types.length e0)) None
           = name :: others
        /\ In name (Command.command self)
        /\ (forall user more, others = user :: more ->
              NewMessage.me_username ev = Some user))
  /\ fst (SpamGuard.is_spam now (types.sender_id m) c) = false
  /\ EventBuilder.resolved (NewMessage.base nm) = true
  /\ (forall f, EventBuilder.func (NewMessage.base nm) = Some f -> f ev = true).
Proof.
  intros nm m. subst nm m. unfold Command.filter, EventBuilder.filter.
  destruct (NewMessage.private (Command.super self)
            && negb (types.is_private (NewMessage.message ev))) eqn:E1.
  { split; [discriminate|]. intros (H & _).
    apply andb_true_iff in E1. destruct E1 as [Hp Hn].
    rewrite (H Hp) in Hn. discriminate. }
  destruct (NewMessage.public (Command.super self)
            && negb (types.is_group (NewMessage.message ev)
                     || types.is_channel (NewMessage.message ev))) eqn:E2.
  { split; [discriminate|]. intros (_ & H & _).
    apply andb_true_iff in E2. destruct E2 as [Hp Hn].
    destruct (H Hp) as [Hg|Hg]; rewrite Hg in Hn;
      [|rewrite orb_true_r in Hn]; discriminate. }
  destruct (truthy_flag (NewMessage.incoming (Command.super self))
            && types.out (NewMessage.message ev)) eqn:E3.
  { split; [discriminate|]. intros (_ & _ & H & _).
    apply andb_true_iff in E3. destruct E3 as [Hp Hn].
    destruct (NewMessage.incoming (Command.super self)) as [[|]|];
      try discriminate.
    rewrite (H eq_refl) in Hn. discriminate. }
  destruct (truthy_flag (NewMessage.outgoing (Command.super self))
            && negb (types.out (NewMessage.message ev))) eqn:E4.
  { split; [discriminate|]. intros (_ & _ & _ & H & _).
    apply andb_true_iff in E4. destruct E4 as [Hp Hn].
    destruct (NewMessage.outgoing (Command.super self)) as [[|]|];
      try discriminate.
    rewrite (H eq_refl) in Hn. discriminate. }
  assert (C1 : NewMessage.private (Command.super self) = true ->
               types.is_private (NewMessage.message ev) = true).
  { intros Hp. rewrite Hp in E1.
    now destruct (types.is_private (NewMessage.message ev)). }
  assert (C2 : NewMessage.public (Command.super self) = true ->
               types.is_group (NewMessage.message ev) = true
               \/ types.is_channel (NewMessage.message ev) = true).
  { intros Hp. rewrite Hp in E2. apply orb_true_iff.
    now destruct (types.is_group (NewMessage.message ev)
                  || types.is_channel (NewMessage.message ev)). }
  assert (C3 : NewMessage.incoming (Command.super self) = Some true ->
               types.out (NewMessage.message ev) = false).
  { intros Hp. rewrite Hp in E3. exact E3. }
  assert (C4 : NewMessage.outgoing (Command.super self) = Some true ->
               types.out (NewMessage.message ev) = true).
  { intros Hp. rewrite Hp in E4.
    now destruct (types.out (NewMessage.message ev)). }
  destruct (types.entities (NewMessage.message ev)) as [[|e0 rest]|] eqn:En.
  1, 3: split; [discriminate|];
        intros (_ & _ & _ & _ & (e & r & n & o & He & _) & _); discriminate He.
  destruct (types.kind e0) eqn:K; cbn [orb].
  2-6: split; [discriminate|];
       intros (_ & _ & _ & _ & (e & r & n & o & He & Hk & _) & _);
       injection He as <- <-; congruence.
  destruct (types.offset e0 =? 0)%Z eqn:O; cbn [negb].
  2: { split; [discriminate|].
       intros (_ & _ & _ & _ & (e & r & n & o & He & _ & Ho & _) & _).
       injection He as <- <-. apply Z.eqb_neq in O. contradiction. }
  apply Z.eqb_eq in O. rewrite O. cbn [Z.add].
  destruct (split (s "@") _ None) as [|name others] eqn:S.
  { split; [discriminate|].
    intros (_ & _ & _ & _ & (e & r & n & o & He & _ & _ & Hs & _) & _).
    injection He as <- <-. rewrite S in Hs. discriminate. }
  destruct (contains name (Command.command self)) eqn:Cn; cbn [negb].
  2: { split; [discriminate|].
       intros (_ & _ & _ & _ & (e & r & n & o & He & _ & _ & Hs & Hin & _) & _).
       injection He as <- <-. rewrite S in Hs. injection Hs as <- <-.
       apply CommandFacts.contains_In in Hin. congruence. }
  apply CommandFacts.contains_In in Cn.
  destruct (match others with
            | [] => false
            | user :: _ =>
              match NewMessage.me_username ev with
              | Some me => negb (seq_eqb user me)
              | None => true
              end
            end) eqn:U.
  { split; [discriminate|].
    intros (_ & _ & _ & _ & (e & r & n & o & He & _ & _ & Hs & _ & Hu) & _).
    injection He as <- <-. rewrite S in Hs. injection Hs as <- <-.
    destruct others as [|user more]; [discriminate|].
    rewrite (Hu user more eq_refl) in U.
    now rewrite PyFacts.seq_eqb_refl in U. }
  assert (C5 : forall user more, others = user :: more ->
               NewMessage.me_username ev = Some user).
  { intros user more ->.
    destruct (NewMessage.me_username ev) as [me|]; [|discriminate].
    destruct (seq_eqb user me) eqn:Q; [|discriminate].
    apply PyFacts.seq_eqb_eq in Q. now subst. }
  destruct (SpamGuard.is_spam now _ c) as [spam c']. cbn [fst].
  destruct spam; cbn [fst].
  { split; [discriminate|]. intros (_ & _ & _ & _ & _ & H & _). discriminate. }
  destruct (EventBuilder.resolved (NewMessage.base (Command.super self)));
    cbn [negb].
  2: { split; [discriminate|]. intros (_ & _ & _ & _ & _ & _ & H & _).
       discriminate. }
  assert (C6 : exists e0' rest' name' others',
             Some (e0 :: rest) = Some (e0' :: rest')
             /\ types.kind e0' = types.MessageEntityBotCommand
             /\ types.offset e0' = 0%Z
             /\ split (s "@")
                  (slice (types.message (NewMessage.message ev)) 1
                         (types.length e0')) None = name' :: others'
             /\ In name' (Command.command self)
             /\ (forall user more, others' = user :: more ->
                   NewMessage.me_username ev = Some user)).
  { exists e0, rest, name, others. repeat split; assumption. }
  destruct (EventBuilder.func (NewMessage.base (Command.super self))) as [f|].
  - split.
    + intros Hf. repeat split; try assumption. now intros f' [= <-].
    + intros (_ & _ & _ & _ & _ & _ & _ & H). now apply H.
  - split; [|reflexivity]. intros _. repeat split; try assumption.
    discriminate.
Qed.

End CommandMoreFacts.

(** ** [CallbackQuery.filter] as a whole *)

Module CallbackFilterFacts.
Import Notions.

Lemma take_word_no_space (x : bytes) :
  forallb (fun o => negb (is_space o)) (take_word x) = true.
Proof.
  induction x as [|o x IH]; [reflexivity|].
  cbn [take_word]. destruct (is_space o) eqn:E; [reflexivity|].
  cbn. now rewrite E, IH.
Qed.

Lemma take_word_all (x : bytes) :
  forallb (fun o => negb (is_space o)) x = true ->
  take_word x = x /\ drop_word x = [].
Proof.
  induction x as [|o x IH]; [split; reflexivity|].
  cbn. destruct (is_space o); [discriminate|]. cbn.
  intros Hx. destruct (IH Hx) as [-> ->]. split; reflexivity.
Qed.

(** A word without whitespace is the only piece of its split. *)
Lemma split_space_word (m : nat) (d : bytes) :
  d <> [] -> forallb (fun o => negb (is_space o)) d = true ->
  split_space (S m) d = [d].
Proof.
  intros Hne Hd. destruct d as [|o d]; [congruence|].
  pose proof (take_word_all _ Hd) as [Ht Hr].
  cbn in Hd. apply andb_true_iff in Hd. destruct Hd as [Ho _].
  apply negb_true_iff in Ho.
  cbn [split_space lstrip_space]. rewrite Ho.
  rewrite Ht, Hr. destruct m; reflexivity.
Qed.

(** The first piece of a split on whitespace holds no whitespace. *)
Lemma split_space_head (m : nat) (x h : bytes) (rest : list bytes) :
  split_space (S m) x = h :: rest ->
  forallb (fun o => negb (is_space o)) h = true.
Proof.
  cbn [split_space]. destruct (lstrip_space x) as [|o r]; [discriminate|].
  intros [= <- _]. apply (take_word_no_space (o :: r)).
Qed.

Lemma split_space_blank (m : nat) (x : bytes) :
  forallb is_space x = true -> split_space m x = [].
Proof.
  intros Hx.
  assert (E : lstrip_space x = []).
  { induction x as [|o x IH]; [reflexivity|].
    cbn in *. apply andb_true_iff in Hx. destruct Hx as [-> Hx]. now apply IH. }
  destruct m; cbn [split_space]; now rewrite E.
Qed.

(** Without a split, [filter] accepts exactly the payload equal to the
    data, and only if the data holds no whitespace: the comparison runs
    on the first whitespace-separated word of the payload. *)
Theorem exact_match_iff (self : CallbackQuery.t) (now : Z)
    (ev : CallbackQuery.Event) (c : SpamGuard.TTLCache) (d : bytes) :
  CallbackQuery.data self = Some d -> d <> [] ->
  CallbackQuery.split_char self = None ->
  CallbackQuery.split_char_count self = None ->
  (fst (CallbackQuery.filter self now ev c) = Return true <->
   types.data (CallbackQuery.query ev) = Some d
   /\ forallb (fun o => negb (is_space o)) d = true
   /\ fst (SpamGuard.is_spam now
             (Some (types.user_id (CallbackQuery.query ev))) c) = false
   /\ EventBuilder.filter (CallbackQuery.base self) ev = true).
Proof.
  intros Hd Hne Hs Hn. unfold CallbackQuery.filter.
  rewrite Hd, Hs, Hn. destruct d as [|d0 d']; [congruence|].
  set (D := d0 :: d') in *. cbn [truthy_seq negb andb].
  destruct (types.data (CallbackQuery.query ev)) as [p|] eqn:P;
    cbn [CallbackQuery.data_differs CallbackQuery.data_split].
  2: { split; [discriminate | intros (H & _); discriminate]. }
  destruct (seq_eqb D p) eqn:Q; cbn [negb].
  2: { split; [discriminate|]. intros ([= <-] & _).
       now rewrite PyFacts.seq_eqb_refl in Q. }
  apply PyFacts.seq_eqb_eq in Q. subst p.
  destruct (split_space 2 D) as [|h rest] eqn:S; cbn [item0].
  { split; [discriminate|]. intros (_ & Hw & _).
    rewrite (split_space_word 1 D Hne Hw) in S. discriminate. }
  pose proof (split_space_head 1 D h rest S) as Hh.
  destruct (seq_eqb D h) eqn:Q.
  2: { split; [discriminate|]. intros (_ & Hw & _).
       rewrite (split_space_word 1 D Hne Hw) in S. injection S as <- _.
       now rewrite PyFacts.seq_eqb_refl in Q. }
  apply PyFacts.seq_eqb_eq in Q. subst h.
  destruct (SpamGuard.is_spam now _ c) as [[|] c']; cbn [fst].
  - split; [discriminate|]. intros (_ & _ & H & _). discriminate.
  - split.
    + intros [= ->]. repeat split; assumption.
    + intros (_ & _ & _ & ->). reflexivity.
Qed.

Lemma exact_match_iff_witness :
  fst (CallbackQuery.filter
         (callback_builder "a b" CallbackQuery.split_none)
         0 (callback_event (b "a b")) SpamGuard._spam_cache)
  <> Return true.
Proof.
  intros H.
  apply (exact_match_iff (callback_builder "a b" CallbackQuery.split_none) 0
           (callback_event (b "a b")) SpamGuard._spam_cache
           (b "a b") eq_refl ltac:(discriminate) eq_refl eq_refl) in H.
  destruct H as (_ & H & _). discriminate H.
Defined.

(** When the data is nothing but whitespace, the payload equal to it
    makes [filter] raise [IndexError]. *)
Theorem blank_data_raises (self : CallbackQuery.t) (now : Z)
    (ev : CallbackQuery.Event) (c : SpamGuard.TTLCache) (d : bytes) :
  CallbackQuery.data self = Some d -> d <> [] ->
  forallb is_space d = true ->
  CallbackQuery.split_char self = None ->
  CallbackQuery.split_char_count self = None ->
  types.data (CallbackQuery.query ev) = Some d ->
  CallbackQuery.filter self now ev c = (Raise IndexError, c).
Proof.
  intros Hd Hne Hb Hs Hn Hp. unfold CallbackQuery.filter.
  rewrite Hd, Hs, Hn, Hp. destruct d as [|d0 d']; [congruence|].
  cbn [truthy_seq negb andb CallbackQuery.data_differs CallbackQuery.data_split].
  rewrite PyFacts.seq_eqb_refl. cbn [negb].
  now rewrite (split_space_blank 2 _ Hb).
Qed.

Lemma blank_data_raises_witness :
  CallbackQuery.filter
    (callback_builder " " CallbackQuery.split_none)
    0 (callback_event (b " ")) SpamGuard._spam_cache
  = (Raise IndexError, SpamGuard._spam_cache).
Proof.
  apply (blank_data_raises (callback_builder " " CallbackQuery.split_none) 0
           (callback_event (b " ")) SpamGuard._spam_cache (b " "));
    (reflexivity || discriminate).
Defined.

(** With a separator, [filter] accepts exactly the payloads whose part
    before the leftmost separator is the data and, when a non-zero count
    is configured, that hold that many separators. *)
Theorem split_match_iff (self : CallbackQuery.t) (now : Z)
    (ev : CallbackQuery.Event) (c : SpamGuard.TTLCache) (d sep : bytes) :
  CallbackQuery.data self = Some d -> d <> [] ->
  CallbackQuery.split_char self = Some sep -> sep <> [] ->
  (fst (CallbackQuery.filter self now ev c) = Return true <->
   exists p,
     types.data (CallbackQuery.query ev) = Some p
     /\ (forall n, CallbackQuery.split_char_count self = Some n -> n <> 0%Z ->
                   Z.of_nat (count sep p) = n)
     /\ match find sep p with Some i => firstn i p | None => p end = d
     /\ fst (SpamGuard.is_spam now
               (Some (types.user_id (CallbackQuery.query ev))) c) = false
     /\ EventBuilder.filter (CallbackQuery.base self) ev = true).
Proof.
  intros Hd Hne Hs Hsep. split.
  - intros Hacc.
    destruct (CallbackQueryFacts.callback_filter_accepts self now ev c d
                Hd Hne Hacc) as (p & P & _ & H).
    destruct (H sep Hs Hsep) as [Hhead Hcount].
    exists p. split; [exact P|]. split; [exact Hcount|]. split; [exact Hhead|].
    destruct (GuardedFilterFacts.callback_filter_shape self now ev c)
      as [[e E]|[E|E]]; rewrite E in Hacc; try discriminate.
    cbn in Hacc. injection Hacc as Hacc. apply andb_true_iff in Hacc.
    destruct Hacc as [H1 H2]. split; [now apply negb_true_iff | exact H2].
  - intros (p & P & Hcount & Hhead & Hmiss & Hbase).
    unfold CallbackQuery.filter. rewrite Hd, Hs, P.
    destruct d as [|d0 d']; [congruence|]. set (D := d0 :: d') in *.
    destruct sep as [|s0 sep']; [congruence|].
    cbn [truthy_seq negb andb].
    destruct (PyFacts.split_head (s0 :: sep') p 1) as [rest Hsp].
    destruct (SpamGuard.is_spam now _ c) as [[|] c']; [discriminate|].
    destruct (CallbackQuery.split_char_count self) as [n|] eqn:N;
      [destruct (n =? 0)%Z eqn:Z0|]; cbn [CallbackQuery.data_count];
      try (apply Z.eqb_neq in Z0;
           rewrite (Hcount n eq_refl Z0), Z.eqb_refl; cbn [negb]);
      cbn [CallbackQuery.data_split]; rewrite Hsp; cbn [item0];
      rewrite Hhead, PyFacts.seq_eqb_refl; cbn; now rewrite Hbase.
Qed.

Lemma split_match_iff_witness :
  fst (CallbackQuery.filter
         (callback_builder "manage"
            (CallbackQuery.split_sep (CallbackQuery.text_str (s "/"))))
         0 (callback_event (b "manage/one/two")) SpamGuard._spam_cache)
  = Return true.
Proof.
  apply (split_match_iff
           (callback_builder "manage"
              (CallbackQuery.split_sep (CallbackQuery.text_str (s "/"))))
           0 (callback_event (b "manage/one/two"))
           SpamGuard._spam_cache (b "manage") (b "/")
           eq_refl ltac:(discriminate) eq_refl ltac:(discriminate)).
  exists (b "manage/one/two"). repeat split. discriminate.
Defined.

(** [filter] and exceptions.  Without data it never raises, whatever the
    payload and the split.  With data and a non-empty separator it raises
    exactly when the update carries no payload: an [AttributeError], and
    the spam cache is left alone. *)
Theorem filter_raises (self : CallbackQuery.t) (now : Z)
    (ev : CallbackQuery.Event) (c : SpamGuard.TTLCache) :
  (CallbackQuery.data self = None \/ CallbackQuery.data self = Some [] ->
   forall e, fst (CallbackQuery.filter self now ev c) <> Raise e)
  /\ (forall d sep,
        CallbackQuery.data self = Some d -> d <> [] ->
        CallbackQuery.split_char self = Some sep -> sep <> [] ->
        (types.data (CallbackQuery.query ev) = None ->
         CallbackQuery.filter self now ev c = (Raise AttributeError, c))
        /\ (forall p e, types.data (CallbackQuery.query ev) = Some p ->
                        fst (CallbackQuery.filter self now ev c) <> Raise e)).
Proof.
  split.
  - intros Hd e. unfold CallbackQuery.filter.
    destruct Hd as [-> | ->];
      destruct (SpamGuard.is_spam now _ c) as [[|] c']; discriminate.
  - intros d sep Hd Hne Hs Hsep. unfold CallbackQuery.filter.
    rewrite Hd, Hs. destruct d as [|d0 d']; [congruence|].
    destruct sep as [|s0 sep']; [congruence|].
    cbn [truthy_seq negb andb]. split.
    + intros ->.
      destruct (CallbackQuery.split_char_count self) as [n|];
        [destruct (n =? 0)%Z|]; reflexivity.
    + intros p e ->.
      destruct (PyFacts.split_head (s0 :: sep') p 1) as [rest Hsp].
      destruct (CallbackQuery.split_char_count self) as [n|];
        [destruct (n =? 0)%Z|]; cbn [CallbackQuery.data_count];
        try destruct (negb _); cbn [CallbackQuery.data_split];
        try rewrite Hsp; cbn [item0];
        try destruct (seq_eqb _ _);
        try destruct (SpamGuard.is_spam now _ c) as [[|] c'];
        discriminate.
Qed.

Lemma filter_raises_witness :
  CallbackQuery.filter
    (callback_builder "manage"
       (CallbackQuery.split_sep (CallbackQuery.text_str (s "/"))))
    0
    {| CallbackQuery.query :=
         types.UpdateBotCallbackQuery 100 7 (types.PeerUser 7) 1 5 None;
       CallbackQuery.input_chat := None |}
    SpamGuard._spam_cache
  = (Raise AttributeError, SpamGuard._spam_cache).
Proof.
  refine (proj1 (proj2 (filter_raises
                          (callback_builder "manage"
                             (CallbackQuery.split_sep
                                (CallbackQuery.text_str (s "/"))))
                          0
                          {| CallbackQuery.query :=
                               types.UpdateBotCallbackQuery 100 7
                                 (types.PeerUser 7) 1 5 None;
                             CallbackQuery.input_chat := None |}
                          SpamGuard._spam_cache)
                   (b "manage") (b "/") eq_refl _ eq_refl _) eq_refl);
    discriminate.
Defined.

End CallbackFilterFacts.

(** ** The [build] class methods *)

Module BuildFacts.
Import Notions.
Local Open Scope Z_scope.

Lemma unpack_long (v : Z) :
  struct.in_range struct.fmt_q v = true ->
  unpacking.unpack [struct.fmt_i; struct.fmt_i] (le_split 8 v ++ [])
  = Return [signed 32 (v mod 2 ^ 32); v / 2 ^ 32].
Proof.
  intros Hv. rewrite app_nil_r.
  assert (Hhi : struct.in_range struct.fmt_i (Z.shiftr v 32) = true).
  { revert Hv. unfold struct.in_range. cbn [struct.size Z.of_nat].
    rewrite !andb_true_iff, !Z.leb_le, !Z.ltb_lt, Z.shiftr_div_pow2 by lia.
    intros [Hlo Hup].
    change (8 * Z.of_nat 8 - 1) with 63 in *.
    change (8 * Z.of_nat 4 - 1) with 31.
    split.
    - apply Z.div_le_lower_bound; [lia|].
      change (2 ^ 63) with (2 ^ 32 * 2 ^ 31) in Hlo. lia.
    - apply Z.div_lt_upper_bound; [lia|].
      change (2 ^ 63) with (2 ^ 32 * 2 ^ 31) in Hup. lia. }
  cbn [unpacking.unpack struct.size]. rewrite length_le_split. cbn [Nat.ltb Nat.leb].
  rewrite length_skipn, length_le_split. cbn [Nat.sub Nat.ltb Nat.leb].
  rewrite skipn_skipn. cbn [Nat.add].
  rewrite (skipn_all2 (n := 8)) by (rewrite length_le_split; lia).
  f_equal. f_equal.
  - f_equal. rewrite le_combine_firstn, le_combine_split.
    change (8 * Z.of_nat 4) with 32. change (Z.of_nat 8 * 8) with 64.
    apply Z.mod_mod_divide. exists (2 ^ 32). reflexivity.
  - f_equal. rewrite skipn_le_split by lia. cbn [Nat.sub].
    change (8 * Z.of_nat 4) with 32.
    pose proof (FileIdFacts.pack_int_roundtrip struct.fmt_i _ Hhi) as R.
    cbn [struct.size] in R. change (8 * Z.of_nat 4) with 32 in R.
    rewrite (firstn_all2 (n := 4)) by (rewrite length_le_split; lia).
    rewrite R. apply Z.shiftr_div_pow2. lia.
Qed.

Lemma callback_build_inline_eq (query_id user_id chat_instance : Z)
    (msg_id : types.InputBotInlineMessageID) (data : option bytes) :
  let id := updates.inline_id msg_id in
  let q := types.UpdateInlineBotCallbackQuery query_id user_id msg_id
             chat_instance data in
  struct.in_range struct.fmt_q id = true ->
  updates.CallbackQuery_build (updates.UpdateCallback q)
  = Return (Some {| updates.cb_query := q;
                    updates.cb_chat_peer :=
                      if id <? 0 then types.PeerChannel (- (id / 2 ^ 32))
                      else types.PeerUser (id / 2 ^ 32);
                    updates.cb_message_id := signed 32 (id mod 2 ^ 32) |}).
Proof.
  intros id q Hr. subst q. cbn [updates.CallbackQuery_build].
  fold id. cbn [struct.pack]. rewrite Hr. cbn [struct.size].
  rewrite (unpack_long id Hr). cbv iota.
  do 3 f_equal.
  assert (E : (id / 2 ^ 32 <? 0) = (id <? 0)).
  { destruct (Z.ltb_spec id 0) as [Hn|Hn].
    - apply Z.ltb_lt. apply Z.div_lt_upper_bound; lia.
    - apply Z.ltb_ge. apply Z.div_pos; lia. }
  now rewrite E.
Qed.

(** For a callback that came through inline mode, [build] cuts the long
    identifier in two: the low 32 bits are the message id, the high 32
    bits the peer, a channel when they are negative and a user otherwise;
    the identifier is the sum of the two parts. *)
Theorem callback_build_inline (query_id user_id chat_instance : Z)
    (msg_id : types.InputBotInlineMessageID) (data : option bytes) :
  let id := updates.inline_id msg_id in
  let q := types.UpdateInlineBotCallbackQuery query_id user_id msg_id
             chat_instance data in
  struct.in_range struct.fmt_q id = true ->
  updates.CallbackQuery_build (updates.UpdateCallback q)
  = Return (Some {| updates.cb_query := q;
                    updates.cb_chat_peer :=
                      if id <? 0 then types.PeerChannel (- (id / 2 ^ 32))
                      else types.PeerUser (id / 2 ^ 32);
                    updates.cb_message_id := signed 32 (id mod 2 ^ 32) |})
  /\ id = id / 2 ^ 32 * 2 ^ 32 + signed 32 (id mod 2 ^ 32) mod 2 ^ 32
  /\ - 2 ^ 31 <= signed 32 (id mod 2 ^ 32) < 2 ^ 31.
Proof.
  intros id q Hr. subst q.
  pose proof (Z.mod_pos_bound id (2 ^ 32) ltac:(lia)) as Hm.
  assert (Hs : signed 32 (id mod 2 ^ 32) mod 2 ^ 32 = id mod 2 ^ 32
               /\ - 2 ^ 31 <= signed 32 (id mod 2 ^ 32) < 2 ^ 31).
  { unfold signed. change (2 ^ (32 - 1)) with (2 ^ 31).
    destruct (Z.ltb_spec (id mod 2 ^ 32) (2 ^ 31)).
    - split; [apply Z.mod_small; lia | lia].
    - split; [|lia].
      symmetry. apply Z.mod_unique with (q := -1); lia. }
  destruct Hs as [Hs1 Hs2].
  split; [|split; [|exact Hs2]].
  - now apply callback_build_inline_eq.
  - rewrite Hs1. rewrite Z.mul_comm. apply Z.div_mod. lia.
Qed.

Lemma callback_build_inline_witness :
  updates.CallbackQuery_build
    (updates.UpdateCallback
       (types.UpdateInlineBotCallbackQuery 1 7
          (types.InputBotInlineMessageID_ 2 (-4299262263241) 0) 5 None))
  = Return (Some {| updates.cb_query :=
                      types.UpdateInlineBotCallbackQuery 1 7
                        (types.InputBotInlineMessageID_ 2 (-4299262263241) 0)
                        5 None;
                    updates.cb_chat_peer := types.PeerChannel 1001;
                    updates.cb_message_id := 55 |}).
Proof.
  exact (proj1 (callback_build_inline 1 7 5
                  (types.InputBotInlineMessageID_ 2 (-4299262263241) 0)
                  None eq_refl)).
Defined.

(** For the 64-bit form of the inline identifier, whose [id] is a 32-bit
    integer, the peer of the built event does not depend on [owner_id]:
    it is user 0, or channel 1 when [id] is negative, and the message id
    is [id]. *)
Theorem callback_build_inline64 (query_id user_id chat_instance : Z)
    (dc_id owner_id id access_hash : Z) (data : option bytes) :
  struct.in_range struct.fmt_i id = true ->
  let q := types.UpdateInlineBotCallbackQuery query_id user_id
             (types.InputBotInlineMessageID64 dc_id owner_id id access_hash)
             chat_instance data in
  updates.CallbackQuery_build (updates.UpdateCallback q)
  = Return (Some {| updates.cb_query := q;
                    updates.cb_chat_peer :=
                      if id <? 0 then types.PeerChannel 1 else types.PeerUser 0;
                    updates.cb_message_id := id |}).
Proof.
  intros Hi q. subst q.
  assert (Hb : - 2 ^ 31 <= id < 2 ^ 31).
  { revert Hi. unfold struct.in_range. cbn [struct.size].
    change (8 * Z.of_nat 4 - 1) with 31.
    rewrite andb_true_iff, Z.leb_le, Z.ltb_lt. tauto. }
  assert (Hq : struct.in_range struct.fmt_q id = true).
  { unfold struct.in_range. cbn [struct.size].
    change (8 * Z.of_nat 8 - 1) with 63.
    rewrite andb_true_iff, Z.leb_le, Z.ltb_lt. lia. }
  rewrite (callback_build_inline_eq query_id user_id chat_instance
             (types.InputBotInlineMessageID64 dc_id owner_id id access_hash)
             data Hq).
  cbn [updates.inline_id]. do 3 f_equal.
  - destruct (Z.ltb_spec id 0).
    + replace (id / 2 ^ 32) with (-1); [reflexivity|].
      apply Z.div_unique with (r := id + 2 ^ 32); lia.
    + rewrite Z.div_small by lia. reflexivity.
  - unfold signed. change (2 ^ (32 - 1)) with (2 ^ 31).
    destruct (Z.ltb_spec id 0).
    + replace (id mod 2 ^ 32) with (id + 2 ^ 32)
        by (apply Z.mod_unique with (q := -1); lia).
      destruct (Z.ltb_spec (id + 2 ^ 32) (2 ^ 31)); lia.
    + rewrite Z.mod_small by lia.
      destruct (Z.ltb_spec id (2 ^ 31)); lia.
Qed.

Lemma callback_build_inline64_witness :
  updates.CallbackQuery_build
    (updates.UpdateCallback
       (types.UpdateInlineBotCallbackQuery 1 7
          (types.InputBotInlineMessageID64 2 987654321 55 0) 5 None))
  = Return (Some {| updates.cb_query :=
                      types.UpdateInlineBotCallbackQuery 1 7
                        (types.InputBotInlineMessageID64 2 987654321 55 0)
                        5 None;
                    updates.cb_chat_peer := types.PeerUser 0;
                    updates.cb_message_id := 55 |}).
Proof.
  exact (callback_build_inline64 1 7 5 2 987654321 55 0 None eq_refl).
Defined.

(** Every update is built into an event by at most one kind of builder:
    messages by [NewMessage] (and [Command]), callbacks by
    [CallbackQuery], inline queries by [InlineQuery]; service messages
    and other updates by none. *)
Theorem build_routes (update : updates.Update) (self_id : option Z) :
  let nm := updates.NewMessage_build update self_id in
  let cb := updates.CallbackQuery_build update in
  let iq := updates.InlineQuery_build update in
  (nm <> None -> cb = Return None /\ iq = None)
  /\ (cb <> Return None -> nm = None /\ iq = None)
  /\ (iq <> None -> nm = None /\ cb = Return None)
  /\ (forall id,
        update = updates.UpdateNewMessage (updates.MessageService id)
        \/ update = updates.UpdateNewChannelMessage (updates.MessageService id) ->
        nm = None /\ cb = Return None /\ iq = None).
Proof.
  intros nm cb iq. subst nm cb iq.
  split; [|split; [|split]].
  - destruct update as [[m|i|i]|[m|i|i]|u|u|q|q|x]; cbn [updates.NewMessage_build];
      intros H; try (exfalso; apply H; reflexivity); split; reflexivity.
  - destruct update as [[m|i|i]|[m|i|i]|u|u|q|q|x];
      cbn [updates.CallbackQuery_build];
      intros H; try (exfalso; apply H; reflexivity); split; reflexivity.
  - destruct update as [[m|i|i]|[m|i|i]|u|u|q|q|x];
      cbn [updates.InlineQuery_build];
      intros H; try (exfalso; apply H; reflexivity); split; reflexivity.
  - intros id [->| ->]; repeat split.
Qed.

End BuildFacts.

(** ** [get_message] *)

Module GetMessageFacts.
Import Notions.

(** Once [get_message] has returned a message, every later call returns
    that message without asking the client, whatever the client would
    answer. *)
Theorem get_message_cached
    (get_messages get_messages' :
       option types.InputPeer -> Z -> outcome (option types.Message))
    (is_channel : bool) (input_chat : option types.InputPeer) (id : Z)
    (st st1 : get_message.state) (m : types.Message) :
  get_message.get_message get_messages is_channel input_chat id st
  = (Return (Some m), st1) ->
  forall is_channel' input_chat' id',
    get_message.get_message get_messages' is_channel' input_chat' id' st1
    = (Return (Some m), st1).
Proof.
  unfold get_message.get_message.
  destruct (get_message._message st) as [m0|] eqn:E.
  - intros [= <- <-] ? ? ?. now rewrite E.
  - destruct (get_messages _ id) as [[m0|]|[]]; try discriminate.
    intros [= <- <-] ? ? ?. reflexivity.
Qed.

Lemma get_message_cached_witness :
  get_message.get_message (fun _ _ => Raise (RPCError 500)) true None 9
    {| get_message._message := Some (text_message false (s "hi") None);
       get_message.fetches := [(None, 1%Z)] |}
  = (Return (Some (text_message false (s "hi") None)),
     {| get_message._message := Some (text_message false (s "hi") None);
        get_message.fetches := [(None, 1%Z)] |}).
Proof.
  apply (get_message_cached (fun _ _ => Return (Some (text_message false (s "hi") None)))
           (fun _ _ => Raise (RPCError 500)) false None 1
           {| get_message._message := None; get_message.fetches := [] |}).
  reflexivity.
Defined.

(** A call of [get_message] that did not give a message leaves nothing
    behind: whether the client found no message, raised [ValueError]
    (which [get_message] turns into [None]) or raised something else,
    the next call asks the client again, for the message id in the input
    chat when the chat is a channel and without a chat otherwise. *)
Theorem get_message_retries
    (get_messages get_messages' :
       option types.InputPeer -> Z -> outcome (option types.Message))
    (is_channel is_channel' : bool)
    (input_chat input_chat' : option types.InputPeer) (id id' : Z)
    (st : get_message.state) :
  get_message._message st = None ->
  (forall m, fst (get_message.get_message get_messages is_channel input_chat
                    id st) <> Return (Some m)) ->
  let st1 := snd (get_message.get_message get_messages is_channel input_chat
                    id st) in
  let chat' := if is_channel' then input_chat' else None in
  get_message._message st1 = None
  /\ get_message.fetches
       (snd (get_message.get_message get_messages' is_channel' input_chat'
               id' st1))
     = get_message.fetches st
       ++ [(if is_channel then input_chat else None, id); (chat', id')]
  /\ fst (get_message.get_message get_messages' is_channel' input_chat'
            id' st1)
     = match get_messages' chat' id' with
       | Raise ValueError => Return None
       | other => other
       end.
Proof.
  intros Hn Hfail st1 chat'. subst st1 chat'. revert Hfail.
  unfold get_message.get_message. rewrite Hn.
  destruct (get_messages _ id) as [[m|]|e]; cbn [fst snd].
  - intros Hfail. now destruct (Hfail m).
  - intros _. cbn.
    destruct (get_messages' _ id') as [m'|[]]; cbn;
      rewrite <- app_assoc; repeat split.
  - intros _.
    destruct e; cbn;
      destruct (get_messages' _ id') as [m'|[]]; cbn;
        rewrite <- app_assoc; repeat split.
Qed.

Lemma get_message_retries_witness :
  get_message.fetches
    (snd (get_message.get_message (fun _ _ => Return None) false None 4
            (snd (get_message.get_message (fun _ _ => Raise ValueError) true
                    (Some (types.InputPeerChannel 3 0)) 9
                    {| get_message._message := None;
                       get_message.fetches := [] |}))))
  = [(Some (types.InputPeerChannel 3 0), 9%Z); (None, 4%Z)].
Proof.
  refine (proj1 (proj2 (get_message_retries (fun _ _ => Raise ValueError)
                          (fun _ _ => Return None) true false
                          (Some (types.InputPeerChannel 3 0)) None 9 4
                          {| get_message._message := None;
                             get_message.fetches := [] |} eq_refl _))).
  intros m. cbn. discriminate.
Defined.

End GetMessageFacts.

(** ** The attribute dictionary of [NewMessage.Event] *)

Module AttributeFacts.
Import attributes.

Lemma lookup_store_same (d : dict) (name : str) (v : value) :
  lookup (store d name v) name = Some v.
Proof.
  induction d as [|[k w] d IH]; cbn.
  - now rewrite PyFacts.seq_eqb_refl.
  - destruct (seq_eqb k name) eqn:E; cbn; now rewrite E.
Qed.

Lemma lookup_store_other (d : dict) (name other : str) (v : value) :
  name <> other -> lookup (store d name v) other = lookup d other.
Proof.
  intros Hne. induction d as [|[k w] d IH]; cbn.
  - destruct (seq_eqb name other) eqn:E; [|reflexivity].
    apply PyFacts.seq_eqb_eq in E. contradiction.
  - destruct (seq_eqb k name) eqn:E; cbn.
    + apply PyFacts.seq_eqb_eq in E. subst k.
      destruct (seq_eqb name other) eqn:E'; [|reflexivity].
      apply PyFacts.seq_eqb_eq in E'. contradiction.
    + now rewrite IH.
Qed.

(** Storing under a name that is present keeps the names as they are. *)
Lemma store_keys (d : dict) (name : str) (v w : value) :
  lookup d name = Some w -> map fst (store d name v) = map fst d.
Proof.
  induction d as [|[k x] d IH]; cbn; [discriminate|].
  destruct (seq_eqb k name) eqn:E; cbn; [reflexivity|].
  intros H. now rewrite IH.
Qed.

(** Once [_init] is true, assignments never add an attribute: whatever
    is assigned, the event keeps exactly the attribute names it had, as
    long as [_init] itself is not assigned a false value. *)
Theorem frozen_attributes (d : dict) (init : value)
    (l : list (str * value)) :
  lookup d _init = Some init -> truthy init = true ->
  (forall v, In (_init, v) l -> truthy v = true) ->
  exists d',
    assign_all d l = Ok d'
    /\ map fst d' = map fst d
    /\ exists init', lookup d' _init = Some init' /\ truthy init' = true.
Proof.
  revert d init. induction l as [|[name v] l IH]; intros d init Hi Ht Hl.
  - exists d. cbn. eauto.
  - cbn [assign_all]. unfold __setattr__. rewrite Hi, Ht. cbn [negb orb].
    destruct (lookup d name) as [w|] eqn:E; cbn [is_some].
    + destruct (seq_eqb name _init) eqn:Q.
      * apply PyFacts.seq_eqb_eq in Q. subst name.
        destruct (IH (store d _init v) v) as (d' & H1 & H2 & H3).
        { apply lookup_store_same. }
        { apply Hl. now left. }
        { intros v' Hv'. apply Hl. now right. }
        exists d'. rewrite H1, H2. split; [reflexivity|].
        split; [now apply (store_keys d _init v w) | exact H3].
      * apply PyFacts.seq_eqb_neq in Q.
        destruct (IH (store d name v) init) as (d' & H1 & H2 & H3).
        { rewrite lookup_store_other by exact Q. exact Hi. }
        { exact Ht. }
        { intros v' Hv'. apply Hl. now right. }
        exists d'. rewrite H1, H2. split; [reflexivity|].
        split; [now apply (store_keys d name v w) | exact H3].
    + destruct (IH d init Hi Ht) as (d' & H1 & H2 & H3).
      { intros v' Hv'. apply Hl. now right. }
      exists d'. auto.
Qed.

Lemma frozen_attributes_witness :
  exists d',
    assign_all (freeze [(_init, PyBool false); (s "message", PyObject 1)])
      [(s "message", PyObject 2); (s "extra", PyInt 5)] = Ok d'
    /\ map fst d' = [_init; s "message"].
Proof.
  destruct (frozen_attributes
              (freeze [(_init, PyBool false); (s "message", PyObject 1)])
              (PyBool true)
              [(s "message", PyObject 2); (s "extra", PyInt 5)]
              eq_refl eq_refl) as (d' & H1 & H2 & _).
  - intros v [E|[E|[]]]; discriminate E.
  - exists d'. split; [exact H1 | exact H2].
Defined.

(** What an assignment does and what reading gives back.  An attribute
    that exists is overwritten and read back; before the freeze a new
    attribute is added and read back; after the freeze the assignment of
    a new attribute is dropped without an error, and reading the
    attribute raises [KeyError]. *)
Theorem setattr_getattr (d : dict) (init : value) (name : str) (v : value) :
  lookup d _init = Some init ->
  (is_some (lookup d name) = true \/ truthy init = false ->
   exists d', __setattr__ d name v = Ok d' /\ __getattr__ d' name = Ok v)
  /\ (lookup d name = None -> truthy init = true ->
      __setattr__ d name v = Ok d /\ __getattr__ d name = KeyError name).
Proof.
  intros Hi. unfold __setattr__, __getattr__. rewrite Hi. split.
  - intros Hc. exists (store d name v).
    rewrite lookup_store_same. split; [|reflexivity].
    destruct Hc as [-> | ->]; [now rewrite orb_true_r | reflexivity].
  - intros Hn Ht. now rewrite Hn, Ht.
Qed.

Lemma setattr_getattr_witness :
  __setattr__ (freeze [(_init, PyBool false); (s "message", PyObject 1)])
    (s "extra") (PyInt 5)
  = Ok (freeze [(_init, PyBool false); (s "message", PyObject 1)])
  /\ __getattr__ (freeze [(_init, PyBool false); (s "message", PyObject 1)])
       (s "extra")
     = KeyError (s "extra").
Proof.
  exact (proj2 (setattr_getattr
                  (freeze [(_init, PyBool false); (s "message", PyObject 1)])
                  (PyBool true) (s "extra") (PyInt 5) eq_refl)
           eq_refl eq_refl).
Defined.

End AttributeFacts.

(** ** Event actions, continued *)

Module ActionFacts.
Import Notions.

Section Client.
Variable response : Type.
Variable reply : client.call -> outcome response.

(** [delete] schedules [self.answer()].  When that task runs, the client
    receives the answer of the callback with the default arguments,
    unless the event was answered before, in which case it receives
    nothing; afterwards the event is answered, so that further calls of
    [answer] send nothing.  This holds whether [delete] raised or not. *)
Theorem scheduled_answer_after_delete (ev : CallbackQuery.Event)
    (st : client.state) :
  let st1 := snd (CallbackQuery.delete reply ev st) in
  let st2 := snd (CallbackQuery.answer reply ev None 0 None false st1) in
  client.calls st2
  = client.calls st1
    ++ (if client._answered st then []
        else [client.invoke
                (client.SetBotCallbackAnswerRequest
                   (types.query_id (CallbackQuery.query ev)) 0 false None None)])
  /\ client._answered st2 = true
  /\ forall message cache_time url alert,
       CallbackQuery.answer reply ev message cache_time url alert st2
       = (Return None, st2).
Proof.
  intros st1 st2.
  assert (Ha : client._answered st1 = client._answered st).
  { subst st1. unfold CallbackQuery.delete, client.bind, client.perform,
      client.raise. cbn.
    destruct (types.msg_id (CallbackQuery.query ev)); reflexivity. }
  assert (H2 : client.calls st2
               = client.calls st1
                 ++ (if client._answered st then []
                     else [client.invoke
                             (client.SetBotCallbackAnswerRequest
                                (types.query_id (CallbackQuery.query ev))
                                0 false None None)])
               /\ client._answered st2 = true).
  { subst st2. destruct (client._answered st) eqn:A.
    - rewrite (EventFacts.callback_answer_again response reply ev None 0%Z
                 None false st1 Ha). cbn [snd].
      now rewrite app_nil_r.
    - destruct st1 as [a1 log1]. cbn in Ha. subst a1.
      rewrite (EventFacts.callback_answer_first response reply ev None 0%Z
                 None false log1). split; reflexivity. }
  destruct H2 as [Hc Hd]. split; [exact Hc|]. split; [exact Hd|].
  intros. now apply EventFacts.callback_answer_again.
Qed.

(** The first [answer] of an inline query sends one request that carries
    the results in the order in which they were given, those that had to
    be awaited included. *)
Theorem inline_answer_keeps_order (ev : InlineQuery.Event)
    (results : list InlineQuery.result_arg)
    (values : list types.InputBotInlineResult)
    (cache_time : Z) (gallery : bool) (next_offset : option str)
    (private : bool) (log : list client.call) :
  map InlineQuery._as_future results = map Return values ->
  let r := client.invoke
             (client.SetInlineBotResultsRequest
                (types.iq_query_id (InlineQuery.query ev)) values cache_time
                gallery next_offset private None) in
  InlineQuery.answer reply ev (Some results) cache_time gallery next_offset
    private None []
    {| client._answered := false; client.calls := log |}
  = (match reply r with Return x => Return (Some x) | Raise e => Raise e end,
     {| client._answered := false; client.calls := log ++ [r] |}).
Proof.
  intros Hv r. subst r.
  assert (Hres : InlineQuery.results_of (map InlineQuery._as_future results)
                 = Return values).
  { rewrite Hv. clear Hv. induction values as [|v vs IH]; [reflexivity|].
    cbn. now rewrite IH. }
  unfold InlineQuery.answer, client.bind, client.get_answered, client.perform,
    client.ret.
  cbn [client._answered client.calls].
  destruct results as [|x xs].
  - destruct values; [|discriminate]. cbn.
    destruct (reply _); reflexivity.
  - cbn [truthy_seq]. rewrite Hres. cbn.
    destruct (reply _); reflexivity.
Qed.

(** When one of the awaited results fails, [answer] raises the exception
    of the first one that failed and the client receives nothing. *)
Theorem inline_answer_failed_result (ev : InlineQuery.Event)
    (before after : list InlineQuery.result_arg)
    (values : list types.InputBotInlineResult) (e : exn)
    (cache_time : Z) (gallery : bool) (next_offset : option str)
    (private : bool) (switch_pm : option str) (switch_pm_param : str)
    (log : list client.call) :
  map InlineQuery._as_future before = map Return values ->
  InlineQuery.answer reply ev
    (Some (before ++ InlineQuery.awaitable (Raise e) :: after))
    cache_time gallery next_offset private switch_pm switch_pm_param
    {| client._answered := false; client.calls := log |}
  = (Raise e, {| client._answered := false; client.calls := log |}).
Proof.
  intros Hv.
  assert (Hres : InlineQuery.results_of
                   (map InlineQuery._as_future
                      (before ++ InlineQuery.awaitable (Raise e) :: after))
                 = Raise e).
  { rewrite map_app, Hv. clear Hv.
    induction values as [|v vs IH]; [reflexivity|]. cbn. cbn in IH.
    now rewrite IH. }
  unfold InlineQuery.answer, client.bind, client.get_answered.
  cbn [client._answered].
  assert (Ht : truthy_seq
                 (Some (before ++ InlineQuery.awaitable (Raise e) :: after))
               = true) by (destruct before; reflexivity).
  rewrite Ht, Hres. reflexivity.
Qed.

End Client.

Lemma inline_answer_keeps_order_witness :
  snd (InlineQuery.answer (fun _ => Return true)
         {| InlineQuery.query :=
              {| types.iq_query_id := 4; types.iq_user_id := 7;
                 types.iq_query := s "q"; types.iq_offset := s "" |} |}
         (Some [InlineQuery.awaitable
                  (Return {| types.result_id := s "1";
                             types.send_message := s "a" |});
                InlineQuery.ready {| types.result_id := s "2";
                                     types.send_message := s "b" |}])
         0 false None false None []
         {| client._answered := false; client.calls := [] |})
  = {| client._answered := false;
       client.calls :=
         [client.invoke
            (client.SetInlineBotResultsRequest 4
               [{| types.result_id := s "1"; types.send_message := s "a" |};
                {| types.result_id := s "2"; types.send_message := s "b" |}]
               0 false None false None)] |}.
Proof.
  rewrite (inline_answer_keeps_order bool (fun _ => Return true) _
             [InlineQuery.awaitable
                (Return {| types.result_id := s "1";
                           types.send_message := s "a" |});
              InlineQuery.ready {| types.result_id := s "2";
                                   types.send_message := s "b" |}]
             [{| types.result_id := s "1"; types.send_message := s "a" |};
              {| types.result_id := s "2"; types.send_message := s "b" |}]
             0 false None false [] eq_refl).
  reflexivity.
Defined.

Lemma inline_answer_failed_result_witness :
  InlineQuery.answer (fun _ => Return true)
    {| InlineQuery.query :=
         {| types.iq_query_id := 4; types.iq_user_id := 7;
            types.iq_query := s "q"; types.iq_offset := s "" |} |}
    (Some ([InlineQuery.ready {| types.result_id := s "1";
                                 types.send_message := s "a" |}]
           ++ InlineQuery.awaitable (Raise (RPCError 400)) :: []))
    0 false None false None []
    {| client._answered := false; client.calls := [] |}
  = (Raise (RPCError 400), {| client._answered := false; client.calls := [] |}).
Proof.
  apply (inline_answer_failed_result bool (fun _ => Return true) _
           [InlineQuery.ready {| types.result_id := s "1";
                                 types.send_message := s "a" |}]
           []
           [{| types.result_id := s "1"; types.send_message := s "a" |}]).
  reflexivity.
Defined.

End ActionFacts.

(** ** The file-id packer, continued *)

Module FileIdMoreFacts.
Import Notions.
Local Open Scope Z_scope.

(** For a photo that has a [PhotoSize] or a [PhotoCachedSize] and whose
    fields fit their types, the result is the unpadded URL-safe base64
    text of the run-length encoding of 45 octets: the constant 2 and the
    datacenter on 32 bits, the photo id and the access hash on 64 bits,
    three zero fields of 64, 64 and 32 bits, little-endian, and the
    version 2; decoding the text, then the runs, gives the octets back. *)
Theorem pack_photo_encoded (p : types.Photo) :
  photo_fits p ->
  In types.PhotoSize (types.sizes p) \/ In types.PhotoCachedSize (types.sizes p) ->
  List.length (photo_record p) = 45%nat
  /\ exists packed file_id,
       utils.pack_bot_file_id (types.Photo_ p) = Return (Some file_id)
       /\ file_id = utils.rstrip "="%char (utils.urlsafe_b64encode packed)
       /\ utils._rle_encode (photo_record p) = Return packed
       /\ b64decode file_id = Some packed
       /\ rle_decode packed = photo_record p.
Proof.
  intros Hfits Hsized. split; [apply FileIdFacts.photo_record_length|].
  destruct (FileIdFacts.pack_photo p Hfits) as (packed & Henc & Hdec & Hpack).
  { destruct Hsized as [H|H]; eexists; (split; [exact H | reflexivity]). }
  exists packed, (utils.rstrip "="%char (utils.urlsafe_b64encode packed)).
  repeat split; try assumption. apply FileIdFacts.b64decode_encode.
Qed.

Lemma pack_photo_encoded_witness :
  utils.pack_bot_file_id
    (types.Photo_
       {| types.photo_id := 9; types.photo_access_hash := 1;
          types.photo_dc_id := 4;
          types.sizes := [types.PhotoStrippedSize; types.PhotoSize] |})
  = Return (Some (s "AgADBAADCQAHAQAbAg")).
Proof.
  destruct (pack_photo_encoded
              {| types.photo_id := 9; types.photo_access_hash := 1;
                 types.photo_dc_id := 4;
                 types.sizes := [types.PhotoStrippedSize; types.PhotoSize] |})
    as (_ & packed & file_id & Hpack & -> & Henc & _ & _).
  - repeat split.
  - left. right. left. reflexivity.
  - rewrite Hpack. injection Henc as <-. vm_compute. reflexivity.
Defined.

(** The sizes of a photo only decide whether there is a file id: two
    photos with the same datacenter, id and access hash that both have a
    [PhotoSize] or a [PhotoCachedSize] get the same result. *)
Theorem photo_sizes_irrelevant (p q : types.Photo) :
  types.photo_dc_id p = types.photo_dc_id q ->
  types.photo_id p = types.photo_id q ->
  types.photo_access_hash p = types.photo_access_hash q ->
  (exists x, In x (types.sizes p) /\ utils.is_sized x = true) ->
  (exists x, In x (types.sizes q) /\ utils.is_sized x = true) ->
  utils.pack_bot_file_id (types.Photo_ p) = utils.pack_bot_file_id (types.Photo_ q).
Proof.
  intros Hdc Hid Hah (x & Hx & Sx) (y & Hy & Sy).
  unfold utils.pack_bot_file_id.
  destruct (FileIdFacts.find_present utils.is_sized (rev (types.sizes p)) x)
    as [x' ->]; [now apply in_rev in Hx | exact Sx |].
  destruct (FileIdFacts.find_present utils.is_sized (rev (types.sizes q)) y)
    as [y' ->]; [now apply in_rev in Hy | exact Sy |].
  now rewrite Hdc, Hid, Hah.
Qed.

Lemma photo_sizes_irrelevant_witness :
  utils.pack_bot_file_id
    (types.Photo_
       {| types.photo_id := 9; types.photo_access_hash := 1;
          types.photo_dc_id := 4; types.sizes := [types.PhotoSize] |})
  = utils.pack_bot_file_id
      (types.Photo_
         {| types.photo_id := 9; types.photo_access_hash := 1;
            types.photo_dc_id := 4;
            types.sizes := [types.PhotoCachedSize; types.PhotoPathSize] |}).
Proof.
  apply photo_sizes_irrelevant; try reflexivity.
  - exists types.PhotoSize. split; [now left | reflexivity].
  - exists types.PhotoCachedSize. split; [now left | reflexivity].
Defined.

Lemma app_same_length {A} (x x' y y' : list A) :
  List.length x = List.length x' -> x ++ y = x' ++ y' -> x = x' /\ y = y'.
Proof.
  revert x'. induction x as [|a x IH]; intros [|a' x'] Hl; try discriminate.
  - cbn. auto.
  - cbn. intros [= -> E]. injection Hl as Hl.
    destruct (IH x' Hl E) as [-> ->]. auto.
Qed.

Lemma le_split_same (c : struct.code) (v w : Z) :
  struct.in_range c v = true -> struct.in_range c w = true ->
  le_split (struct.size c) v = le_split (struct.size c) w -> v = w.
Proof.
  intros Hv Hw E.
  rewrite <- (FileIdFacts.pack_int_roundtrip c v Hv).
  rewrite <- (FileIdFacts.pack_int_roundtrip c w Hw).
  now rewrite E.
Qed.

(** The file id of a document determines the document as far as it was
    packed: two documents with the same file id have the same type code,
    datacenter, id and access hash. *)
Theorem document_file_id_injective (d d' : types.Document) :
  document_fits d -> document_fits d' ->
  utils.pack_bot_file_id (types.Document_ d)
  = utils.pack_bot_file_id (types.Document_ d') ->
  type_code (List.find media_attribute (types.attributes d))
  = type_code (List.find media_attribute (types.attributes d'))
  /\ types.document_dc_id d = types.document_dc_id d'
  /\ types.document_id d = types.document_id d'
  /\ types.document_access_hash d = types.document_access_hash d'.
Proof.
  intros Hf Hf' Heq.
  destruct (FileIdFacts.pack_document_encoded d Hf) as (k & _ & Hdec & Hpack).
  destruct (FileIdFacts.pack_document_encoded d' Hf') as (k' & _ & Hdec' & Hpack').
  rewrite Hpack, Hpack' in Heq. injection Heq as Heq.
  apply (f_equal b64decode) in Heq.
  rewrite !FileIdFacts.b64decode_encode in Heq. injection Heq as <-.
  rewrite Hdec in Hdec'. unfold document_record in Hdec'.
  destruct Hf as (H1 & H2 & H3). destruct Hf' as (H1' & H2' & H3').
  apply app_same_length in Hdec'; [|now rewrite !length_le_split].
  destruct Hdec' as [E0 Hdec'].
  apply app_same_length in Hdec'; [|now rewrite !length_le_split].
  destruct Hdec' as [E1 Hdec'].
  apply app_same_length in Hdec'; [|now rewrite !length_le_split].
  destruct Hdec' as [E2 Hdec'].
  apply app_same_length in Hdec'; [|now rewrite !length_le_split].
  destruct Hdec' as [E3 _].
  repeat split.
  - apply (le_split_same struct.fmt_i); auto using FileIdFacts.type_code_in_range.
  - now apply (le_split_same struct.fmt_i).
  - now apply (le_split_same struct.fmt_q).
  - now apply (le_split_same struct.fmt_q).
Qed.

Lemma document_file_id_injective_witness :
  types.document_dc_id
    {| types.document_id := 5; types.document_access_hash := -3;
       types.document_dc_id := 2; types.attributes := [] |}
  = types.document_dc_id
      {| types.document_id := 5; types.document_access_hash := -3;
         types.document_dc_id := 2;
         types.attributes := [types.DocumentAttributeFilename (s "a")] |}.
Proof.
  refine (proj1 (proj2 (document_file_id_injective _ _ _ _ _)));
    [repeat split | repeat split | vm_compute; reflexivity].
Defined.

(** A document and a photo never get the same file id. *)
Theorem document_photo_distinct (d : types.Document) (p : types.Photo) :
  document_fits d -> photo_fits p ->
  In types.PhotoSize (types.sizes p) \/ In types.PhotoCachedSize (types.sizes p) ->
  utils.pack_bot_file_id (types.Document_ d)
  <> utils.pack_bot_file_id (types.Photo_ p).
Proof.
  intros Hd Hp Hs Heq.
  destruct (FileIdFacts.pack_document_encoded d Hd) as (k & _ & Hdec & Hpack).
  destruct (FileIdFacts.pack_photo p Hp) as (k' & _ & Hdec' & Hpack').
  { destruct Hs as [H|H]; eexists; (split; [exact H | reflexivity]). }
  rewrite Hpack, Hpack' in Heq. injection Heq as Heq.
  apply (f_equal b64decode) in Heq.
  rewrite !FileIdFacts.b64decode_encode in Heq. injection Heq as <-.
  rewrite Hdec in Hdec'. apply (f_equal (@List.length _)) in Hdec'.
  rewrite FileIdFacts.document_record_length,
    FileIdFacts.photo_record_length in Hdec'.
  discriminate.
Qed.

Lemma document_photo_distinct_witness :
  utils.pack_bot_file_id
    (types.Document_
       {| types.document_id := 9; types.document_access_hash := 1;
          types.document_dc_id := 4; types.attributes := [] |})
  <> utils.pack_bot_file_id
       (types.Photo_
          {| types.photo_id := 9; types.photo_access_hash := 1;
             types.photo_dc_id := 4; types.sizes := [types.PhotoSize] |}).
Proof.
  apply document_photo_distinct; [repeat split | repeat split | left; now left].
Defined.

End FileIdMoreFacts.

(** ** The spam guard over time *)

Module SpamCacheFacts.
Import Notions SpamGuard.

Lemma NoDup_keys_filter (p : entry -> bool) (l : TTLCache) :
  NoDup (map e_key l) -> NoDup (map e_key (filter p l)).
Proof.
  induction l as [|e l IH]; cbn; [auto|].
  intros Hnd. inversion Hnd as [|k ks Hk Hks]; subst.
  destruct (p e); cbn; [|now apply IH].
  constructor; [|now apply IH].
  intros Hin. apply Hk. apply in_map_iff in Hin.
  destruct Hin as (x & Hx & Hin). apply filter_In in Hin.
  apply in_map_iff. exists x. tauto.
Qed.

Lemma NoDup_keys_snoc (l : TTLCache) (e : entry) :
  NoDup (map e_key l) ->
  (forall x, In x l -> key_eqb (e_key x) (e_key e) = false) ->
  NoDup (map e_key (l ++ [e])).
Proof.
  intros Hnd Hl. rewrite map_app. cbn.
  apply NoDup_app; [exact Hnd | repeat constructor; intros [] |].
  intros k Hk [<-|[]]. apply in_map_iff in Hk.
  destruct Hk as (x & Hx & Hin). specialize (Hl x Hin).
  rewrite Hx, SpamGuardFacts.key_eqb_refl in Hl. discriminate.
Qed.

(** What every call of [setitem] with the value 1 preserves. *)
Lemma setitem_invariant (c : TTLCache) (now : Z) (id : key) :
  (List.length c <= maxsize)%nat /\ NoDup (map e_key c)
  /\ Forall (fun e => e_value e = 1%Z) c ->
  (List.length (setitem c now id 1) <= maxsize)%nat
  /\ NoDup (map e_key (setitem c now id 1))
  /\ Forall (fun e => e_value e = 1%Z) (setitem c now id 1).
Proof.
  intros (Hlen & Hnd & Hval). unfold setitem.
  set (live := expire now c).
  assert (Hlive : (List.length live <= maxsize)%nat
                  /\ NoDup (map e_key live)
                  /\ Forall (fun e => e_value e = 1%Z) live).
  { subst live. unfold expire. repeat split.
    - pose proof (filter_length_le (fun e => negb (expired now e)) c). lia.
    - now apply NoDup_keys_filter.
    - apply Forall_forall. intros x Hx. apply filter_In in Hx.
      rewrite Forall_forall in Hval. now apply Hval. }
  clearbody live. destruct Hlive as (Ll & Ln & Lv).
  destruct (lookup live id) as [e|] eqn:L.
  - set (others := filter (fun e => negb (key_eqb (e_key e) id)) live).
    assert (Hlt : (List.length others < List.length live)%nat).
    { subst others. apply find_some in L. destruct L as [Hin Hk].
      clear - Hin Hk. induction live as [|x l IH]; [contradiction|].
      cbn. destruct Hin as [->|Hin].
      - rewrite Hk. cbn.
        pose proof (filter_length_le (fun e => negb (key_eqb (e_key e) id)) l).
        lia.
      - specialize (IH Hin).
        destruct (negb (key_eqb (e_key x) id)); cbn; lia. }
    repeat split.
    + rewrite length_app. cbn. lia.
    + apply NoDup_keys_snoc; [now apply NoDup_keys_filter|].
      intros x Hx. apply filter_In in Hx. now apply negb_true_iff.
    + apply Forall_app. split; [|repeat constructor].
      apply Forall_forall. intros x Hx. apply filter_In in Hx.
      rewrite Forall_forall in Lv. now apply Lv.
  - pose proof (SpamGuardFacts.lookup_None _ _ L) as Hno.
    destruct (Nat.leb_spec maxsize (List.length live)).
    + destruct live as [|x l]; [cbn in *; unfold maxsize in *; lia|].
      cbn [tl]. repeat split.
      * rewrite length_app. cbn in *. lia.
      * apply NoDup_keys_snoc.
        -- cbn in Ln. now inversion Ln.
        -- intros y Hy. apply Hno. now right.
      * apply Forall_app. split; [now inversion Lv | repeat constructor].
    + repeat split.
      * rewrite length_app. cbn. lia.
      * now apply NoDup_keys_snoc.
      * apply Forall_app. split; [exact Lv | repeat constructor].
Qed.

(** However [is_spam] is called, the cache stays within its size, holds
    no id twice, and holds only the value 1. *)
Lemma reachable_invariant (c : TTLCache) :
  reachable c ->
  (List.length c <= maxsize)%nat
  /\ NoDup (map e_key c)
  /\ Forall (fun e => e_value e = 1%Z) c.
Proof.
  induction 1 as [|now id c Hr IH].
  - cbn. repeat split; [unfold maxsize; lia | constructor | constructor].
  - unfold is_spam. destruct (negb (get c now id 0 =? 0)%Z); cbn [snd].
    + exact IH.
    + now apply setitem_invariant.
Qed.

(** On a cache that calls of [is_spam] have produced, [is_spam(id)] is
    true exactly when the cache holds an entry for [id] that has not
    expired. *)
Theorem is_spam_iff_live (c : TTLCache) (now : Z) (id : key) :
  reachable c ->
  (fst (is_spam now id c) = true <->
   exists e, In e c /\ e_key e = id /\ (now < e_expires e)%Z).
Proof.
  intros Hr. destruct (reachable_invariant c Hr) as (_ & Hnd & Hval).
  unfold is_spam, get. split.
  - destruct (lookup c id) as [e|] eqn:L; [|discriminate].
    apply find_some in L. destruct L as [Hin Hk].
    apply SpamGuardFacts.key_eqb_eq in Hk.
    unfold expired. destruct (Z.leb_spec (e_expires e) now); [discriminate|].
    intros _. exists e. auto.
  - intros (e & Hin & Hk & Hlive).
    assert (L : lookup c id = Some e).
    { clear Hval Hr. unfold lookup. induction c as [|x l IH]; [contradiction|].
      cbn in *. inversion Hnd as [|k ks Hx Hks]; subst.
      destruct Hin as [->|Hin].
      - now rewrite SpamGuardFacts.key_eqb_refl.
      - destruct (key_eqb (e_key x) (e_key e)) eqn:Q; [|now apply IH].
        apply SpamGuardFacts.key_eqb_eq in Q. exfalso. apply Hx.
        rewrite Q. now apply in_map. }
    rewrite L. unfold expired.
    destruct (Z.leb_spec (e_expires e) now); [lia|].
    rewrite Forall_forall in Hval. rewrite (Hval e Hin). reflexivity.
Qed.

Lemma is_spam_iff_live_witness :
  fst (is_spam 5 (Some 7%Z) (snd (is_spam 0 (Some 7%Z) _spam_cache))) = true.
Proof.
  apply is_spam_iff_live; [do 2 constructor|].
  eexists. split; [left; reflexivity|]. split; reflexivity.
Defined.

End SpamCacheFacts.
